(** * FiveMUpdateBot: the file-management core of [main.py]

    A shallow embedding of the methods of [FiveMUpdateBot] that resolve and
    cache a numbered artifact, swap a deployment tree for a new one while
    keeping the old one as a backup, list and delete backups, and roll back.

    The program acts on the file system through [pathlib], [shutil] and
    [open]; the development therefore starts with a model of a file tree
    and of those library calls, then embeds the methods as programs of a
    small state-and-exception monad over a [world] (file tree, clock, log
    of the [logger] calls, remote server and the requests sent to it).

    Modelling conventions, fixed here once:
    - a path is the list of its components below the root; a name is one
      component (it holds no separator), so [parent / name] appends it;
    - the entries of a directory are an association list: its order is the
      order in which the operating system enumerates the directory;
    - times are integers (microseconds); [st_ctime] is the creation time,
      as on the Windows hosts the bot is written for;
    - a file may be read-only: it can be read, copied and renamed, but not
      overwritten or deleted (what [PermissionError] stands for below);
    - glob patterns are built from names without glob metacharacters, so
      [prefix*] and [prefix*suffix] are matched literally;
    - an artifact number is put as it is into a glob pattern and into a
      regular expression: the model matches it as literal text, which is
      what the program does for a number of decimal digits. *)

From Stdlib Require Import ZArith Lia Ascii.
From stdpp Require Import base tactics option list sorting strings pretty.

Open Scope Z_scope.

(** ** Python strings *)

Module Py.

Definition chars (s : string) : list ascii := String.list_ascii_of_string s.

(** [s.startswith(p)] and [s.endswith(p)]. *)
Definition startswith (s p : string) : bool :=
  bool_decide (chars p `prefix_of` chars s).
Definition endswith (s p : string) : bool :=
  bool_decide (chars p `suffix_of` chars s).

(** [fnmatch(name, pre + "*" + suf)] for literal [pre] and [suf]. *)
Definition glob_star (pre suf name : string) : bool :=
  startswith name pre && endswith name suf
  && bool_decide (String.length pre + String.length suf ≤ String.length name)%nat.

(** [str.isspace] on the ASCII range. *)
Definition isspace (c : ascii) : bool :=
  let n := nat_of_ascii c in
  bool_decide (9 ≤ n ≤ 13)%nat || bool_decide (28 ≤ n ≤ 32)%nat.

Fixpoint lstrip (s : string) : string :=
  match s with
  | String c s' => if isspace c then lstrip s' else s
  | EmptyString => EmptyString
  end.
Definition rstrip (s : string) : string := String.rev (lstrip (String.rev s)).
(** [s.strip()] *)
Definition strip (s : string) : string := rstrip (lstrip s).

(** Truth value of an optional string: [None] and the empty string are false. *)
Definition truthy (o : option string) : bool :=
  match o with
  | Some s => negb (bool_decide (s = EmptyString))
  | None => false
  end.

End Py.

(** ** File trees *)

Record stat := Stat { st_mtime : Z; st_ctime : Z }.

#[warnings="-register-all"]
Inductive node :=
| File (st : stat) (readonly : bool) (data : string)
| Dir (st : stat) (entries : list (string * node)).

Definition path := list string.

(** [Path.parent] and [Path.name]; the root is its own parent and has the
    empty name. *)
Definition parent (p : path) : path := removelast p.
Definition name (p : path) : string := List.last p EmptyString.

Module Tree.

Definition fresh (now : Z) : stat := Stat now now.

Fixpoint assoc (x : string) (es : list (string * node)) : option node :=
  match es with
  | [] => None
  | (y, n) :: es' => if decide (x = y) then Some n else assoc x es'
  end.

(** Replace the entry [x] in place, or add it at the end. *)
Fixpoint set_entry (x : string) (n : node) (es : list (string * node))
  : list (string * node) :=
  match es with
  | [] => [(x, n)]
  | (y, m) :: es' =>
      if decide (x = y) then (x, n) :: es' else (y, m) :: set_entry x n es'
  end.

Definition del_entry (x : string) (es : list (string * node))
  : list (string * node) :=
  filter (λ e, e.1 ≠ x) es.

Fixpoint lookup (p : path) (n : node) : option node :=
  match p with
  | [] => Some n
  | x :: p' =>
      match n with
      | Dir _ es => c ← assoc x es; lookup p' c
      | File _ _ _ => None
      end
  end.

(** [modify p f t] replaces what is at [p] (nothing, when [p] is absent)
    by [f] of it ([None]: the entry is removed). It fails when the
    parent of [p] is not an existing directory. *)
Fixpoint modify (p : path) (f : option node → option node) (n : node)
  : option node :=
  match p with
  | [] => f (Some n)
  | x :: p' =>
      match n with
      | File _ _ _ => None
      | Dir st es =>
          match p' with
          | [] =>
              Some (Dir st match f (assoc x es) with
                           | Some c => set_entry x c es
                           | None => del_entry x es
                           end)
          | _ :: _ =>
              c ← assoc x es; c' ← modify p' f c;
              Some (Dir st (set_entry x c' es))
          end
      end
  end.

Definition put (p : path) (new : node) : node → option node :=
  modify p (λ _, Some new).
Definition remove (p : path) : node → option node :=
  modify p (λ _, None).

Definition exists_ (p : path) (t : node) : bool :=
  bool_decide (is_Some (lookup p t)).
Definition is_dir (p : path) (t : node) : bool :=
  match lookup p t with Some (Dir _ _) => true | _ => false end.
Definition is_file (p : path) (t : node) : bool :=
  match lookup p t with Some (File _ _ _) => true | _ => false end.

(** Names of the entries of the directory at [p], in enumeration order;
    [None] when [p] is not a directory. *)
Definition listdir (p : path) (t : node) : option (list string) :=
  match lookup p t with
  | Some (Dir _ es) => Some (es.*1)
  | _ => None
  end.

(** [os.makedirs(p, exist_ok=True)] on a tree: every missing directory on
    the way is created; [None] when a file is in the way. *)
Fixpoint mkdirs (now : Z) (p : path) (n : node) : option node :=
  match n with
  | File _ _ _ => None
  | Dir st es =>
      match p with
      | [] => Some n
      | x :: p' =>
          c' ← mkdirs now p' (default (Dir (fresh now) []) (assoc x es));
          Some (Dir st (set_entry x c' es))
      end
  end.

(** [shutil.rmtree] on a node: entries are deleted in enumeration order,
    directories after their content; the first read-only file stops the
    deletion. [None]: everything was deleted; [Some r]: [r] is left. *)
Fixpoint rm_node (n : node) : option node :=
  match n with
  | File _ ro _ => if ro then Some n else None
  | Dir st es =>
      let fix go (es : list (string * node)) : list (string * node) :=
        match es with
        | [] => []
        | (x, c) :: es' =>
            match rm_node c with
            | Some c' => (x, c') :: es'
            | None => go es'
            end
        end in
      match go es with
      | [] => None
      | r => Some (Dir st r)
      end
  end.

(** [shutil.copy2] of a file onto a destination that holds [old]: an
    existing file is overwritten unless it is read-only, the modification
    time and the read-only flag follow the source. The flag of the
    result tells a failure. *)
Definition copy_file_onto (now : Z) (st : stat) (ro : bool) (data : string)
    (old : option node) : option node * bool :=
  match old with
  | None => (Some (File (Stat (st_mtime st) now) ro data), false)
  | Some (File st' ro' _) =>
      if ro' then (old, true)
      else (Some (File (Stat (st_mtime st) (st_ctime st')) ro data), false)
  | Some (Dir _ _) => (old, true)
  end.

(** The same on the entry [x] of a directory whose entries are [des]. *)
Definition copy_file_entry (now : Z) (x : string) (st : stat) (ro : bool)
    (data : string) (des : list (string * node))
  : list (string * node) * bool :=
  let '(n, e) := copy_file_onto now st ro data (assoc x des) in
  (match n with Some n => set_entry x n des | None => des end, e).

(** [shutil.copy2(src, dst)] where [dst] names the entry [x]: when that
    entry is a directory the file is copied into it, under its own name. *)
Definition copy2_entry (now : Z) (x : string) (st : stat) (ro : bool)
    (data : string) (des : list (string * node))
  : list (string * node) * bool :=
  match assoc x des with
  | Some (Dir st' es') =>
      let '(es'', e) := copy_file_entry now x st ro data es' in
      (set_entry x (Dir st' es'') des, e)
  | _ => copy_file_entry now x st ro data des
  end.

(** The loop of [shutil.copytree] over the entries [ses] of the source,
    given how a directory is copied: [acc] holds the entries of the
    destination so far and whether an error was met. *)
Definition copy_entries (copy_dir : node → option node → option node * bool)
    (now : Z) (ses : list (string * node)) (acc : list (string * node) * bool)
  : list (string * node) * bool :=
  fold_left
    (λ acc e,
       match e.2 with
       | Dir _ _ =>
           let '(d', err) := copy_dir e.2 (assoc e.1 acc.1) in
           (match d' with
            | Some d => set_entry e.1 d acc.1
            | None => acc.1
            end, acc.2 || err)
       | File st ro data =>
           let '(des', err) := copy2_entry now e.1 st ro data acc.1 in
           (des', acc.2 || err)
       end)
    ses acc.

(** [shutil.copytree(src, dst, dirs_exist_ok=ok)] on nodes: [dst] is what
    is at the destination before. Errors met on the way are collected and
    the copy goes on; the flag of the result tells whether there was one
    ([shutil.Error] is raised at the end). *)
Fixpoint copytree_node (now : Z) (ok : bool) (src : node) (dst : option node)
  : option node * bool :=
  match src with
  | File _ _ _ => (dst, true)
  | Dir sst ses =>
      match dst with
      | Some (File _ _ _) => (dst, true)
      | Some (Dir dst_st des) =>
          if ok then
            let '(des', err) :=
              copy_entries (copytree_node now ok) now ses (des, false) in
            (Some (Dir (Stat (st_mtime sst) (st_ctime dst_st)) des'), err)
          else (dst, true)
      | None =>
          let '(des', err) :=
            copy_entries (copytree_node now ok) now ses ([], false) in
          (Some (Dir (Stat (st_mtime sst) now) des'), err)
      end
  end.

(** What [os.walk] counts below a directory: all files, and all
    directories but the top one. *)
Fixpoint count_files (n : node) : nat :=
  match n with
  | File _ _ _ => 1
  | Dir _ es =>
      (fix go (es : list (string * node)) : nat :=
         match es with
         | [] => 0
         | (_, c) :: es' => count_files c + go es'
         end) es
  end%nat.

Fixpoint count_dirs (n : node) : nat :=
  match n with
  | File _ _ _ => 0
  | Dir _ es =>
      (fix go (es : list (string * node)) : nat :=
         match es with
         | [] => 0
         | (_, c) :: es' =>
             match c with
             | Dir _ _ => S (count_dirs c)
             | File _ _ _ => 0
             end + go es'
         end) es
  end%nat.

(** Total size in bytes of the files below a node. *)
Fixpoint size (n : node) : nat :=
  match n with
  | File _ _ data => String.length data
  | Dir _ es =>
      (fix go (es : list (string * node)) : nat :=
         match es with
         | [] => 0
         | (_, c) :: es' => size c + go es'
         end) es
  end%nat.

End Tree.

(** ** The world and its monad *)

Inductive exn :=
| FileNotFoundError
| FileExistsError
| NotADirectoryError
| IsADirectoryError
| PermissionError
| SameFileError
| ShutilError                 (* shutil.Error *)
| ClientError                 (* aiohttp: no connection, or a broken stream *)
| OverflowError               (* datetime: a date out of range *)
| Exception (msg : string).   (* raise Exception(f"...") *)

(** One constructor per [logger] call of the embedded methods. *)
Inductive log_msg :=
(* cleanup_old_files *)
| CleanedUpOldFile (file : string)
| ErrorDuringCleanup (e : exn)
(* get_artifact_hash_from_directory *)
| FetchingListing (url : string)
| ReceivedHtml (len : nat)
| SearchingForPattern (artifact : string)
| FoundArtifactDirectory (dir : string)
| ArtifactNotFoundShowing (artifact : string)
| FoundArtifactDownloads (n : nat)
| ArtifactLine (num dir : string)
| AndMore (n : nat)
| ErrorFetchingArtifactDirectory (e : exn)
(* download_or_find_artifact *)
| UsingCachedArtifact (file : path)
| FoundCachedButForced
| ConstructedUrl (url : string)
| ArtifactDirectory (dir : string)
| FailedToGetArtifactDirectory (e : exn)
| FoundDownloadUrl (url : string)
| SavingTo (file : path)
| StartingDownload (url : string)
| DownloadStatus (status : nat)
| DownloadSize (bytes : nat)
| DownloadCompleted
| DownloadedTo (file : path)
| FinalFileSize (bytes : nat)
| DownloadFailed (e : exn)
(* get_current_version, create_version_file *)
| CurrentServerVersion (version : string)
| CouldNotReadVersionFile (e : exn)
| CreatedVersionFile (artifact : string)
| FailedToCreateVersionFile (e : exn)
(* copy_server_files *)
| StartingFileCopy (src dst : path)
| CreatingBackup (target backup : path)
| BackupCreated (backup : path)
| CreatingDataBackup (data backup : path)
| DataBackupCreated (backup : path)
| RestoringDataFromBackup (backup data : path)
| ServerDataRestored (files dirs : nat)
| FoundServerDataInBackup (dir : path)
| CopyingServerDataToConfigured (src dst : path)
| CopyingServerDataBack (src dst : path)
| ServerDataFromBackupRestored (files dirs : nat)
| CopyingServerDataFromArtifact (src dst : path)
| ServerDataFromArtifact (files dirs : nat)
| FilesCopied (files dirs : nat) (src dst : path)
| FileCopyFailed (e : exn)
(* delete_backup_directory *)
| DeletedBackupDirectory (backup : path)
| FailedToDeleteBackup (backup : path) (e : exn)
(* rollback_server *)
| RollbackFailed (e : exn).

(** What the remote server answers to a GET: a status, an optional
    [content-length] header, and a body whose stream may break before its
    end ([complete = false]: [body] is what arrives before the break). *)
Record response := Response {
  status : nat;
  content_length : option nat;
  body : string;
  complete : bool
}.

Record world := World {
  root : node;                            (* the file tree *)
  now : Z;                                (* the clock *)
  log : list log_msg;                     (* logger output, oldest first *)
  remote : list (string * response);      (* url -> answer *)
  requests : list string                  (* urls fetched, oldest first *)
}.

Definition with_root (t : node) (w : world) : world :=
  World t (now w) (log w) (remote w) (requests w).
Definition with_log (l : list log_msg) (w : world) : world :=
  World (root w) (now w) l (remote w) (requests w).
Definition with_requests (r : list string) (w : world) : world :=
  World (root w) (now w) (log w) (remote w) r.

Inductive result (A : Type) :=
| Ok (a : A) (w : world)
| Raise (e : exn) (w : world).
Arguments Ok {A} a w.
Arguments Raise {A} e w.

Definition M (A : Type) : Type := world → result A.

Definition ret {A} (a : A) : M A := λ w, Ok a w.
Definition bind {A B} (m : M A) (k : A → M B) : M B :=
  λ w, match m w with
       | Ok a w' => k a w'
       | Raise e w' => Raise e w'
       end.
Definition raise {A} (e : exn) : M A := λ w, Raise e w.
(** [try: m except Exception as e: h e] *)
Definition try_except {A} (m : M A) (h : exn → M A) : M A :=
  λ w, match m w with
       | Ok a w' => Ok a w'
       | Raise e w' => h e w'
       end.

Declare Scope prog_scope.
Delimit Scope prog_scope with prog.
Bind Scope prog_scope with M.
Notation "x ← y ; z" := (bind y (λ x, z))
  (at level 20, y at level 100, z at level 200, only parsing) : prog_scope.
Notation "' x ← y ; z" := (bind y (λ x, z))
  (at level 20, x pattern, y at level 100, z at level 200, only parsing) : prog_scope.
Notation "x ;; z" := (bind x (λ _, z))
  (at level 100, z at level 200, only parsing, right associativity) : prog_scope.

Definition when_ (b : bool) (m : M unit) : M unit := if b then m else ret ().

(** [for x in l: acc = body(x, acc)] *)
Fixpoint for_each {A S} (l : list A) (body : A → S → M S) (acc : S) : M S :=
  match l with
  | [] => ret acc
  | x :: l' => bind (body x acc) (for_each l' body)
  end.

Definition logger (m : log_msg) : M unit :=
  λ w, Ok () (with_log (log w ++ [m]) w).

(** *** pathlib, open, os, shutil *)

Module Os.

Definition read {A} (f : node → A) : M A := λ w, Ok (f (root w)) w.

Definition exists_ (p : path) : M bool := read (Tree.exists_ p).
Definition is_dir (p : path) : M bool := read (Tree.is_dir p).
Definition is_file (p : path) : M bool := read (Tree.is_file p).

(** [list(p.iterdir())] *)
Definition iterdir (p : path) : M (list path) :=
  λ w, match Tree.lookup p (root w) with
       | Some (Dir _ es) => Ok ((λ x, p ++ [x]) <$> es.*1) w
       | Some (File _ _ _) => Raise NotADirectoryError w
       | None => Raise FileNotFoundError w
       end.

(** [p.glob(pre + "*" + suf)]: nothing when [p] is not a directory. *)
Definition glob (p : path) (pre suf : string) : M (list path) :=
  λ w, match Tree.lookup p (root w) with
       | Some (Dir _ es) =>
           Ok ((λ x, p ++ [x]) <$> filter (λ x, Py.glob_star pre suf x) es.*1) w
       | _ => Ok [] w
       end.

(** [p.stat()] *)
Definition stat_ (p : path) : M stat :=
  λ w, match Tree.lookup p (root w) with
       | Some (File st _ _) | Some (Dir st _) => Ok st w
       | None => Raise FileNotFoundError w
       end.

(** [p.mkdir(parents=True, exist_ok=True)] *)
Definition mkdir_parents (p : path) : M unit :=
  λ w, match Tree.lookup p (root w) with
       | Some (File _ _ _) => Raise FileExistsError w
       | _ =>
           match Tree.mkdirs (now w) p (root w) with
           | Some t => Ok () (with_root t w)
           | None => Raise NotADirectoryError w
           end
       end.

(** [with open(p, 'r') as f: f.read()] *)
Definition read_file (p : path) : M string :=
  λ w, match Tree.lookup p (root w) with
       | Some (File _ _ data) => Ok data w
       | Some (Dir _ _) => Raise IsADirectoryError w
       | None => Raise FileNotFoundError w
       end.

(** [open(p, 'w')] (or ['wb']): the file is created or truncated. *)
Definition open_w (p : path) : M unit :=
  λ w, match Tree.lookup p (root w) with
       | Some (Dir _ _) => Raise IsADirectoryError w
       | Some (File st ro _) =>
           if ro then Raise PermissionError w
           else match Tree.put p (File (Stat (now w) (st_ctime st)) false EmptyString) (root w) with
                | Some t => Ok () (with_root t w)
                | None => Raise FileNotFoundError w
                end
       | None =>
           match Tree.put p (File (Tree.fresh (now w)) false EmptyString) (root w) with
           | Some t => Ok () (with_root t w)
           | None => Raise FileNotFoundError w
           end
       end.

(** [f.write(data)] on the file opened at [p]. *)
Definition write (p : path) (data : string) : M unit :=
  λ w, match Tree.lookup p (root w) with
       | Some (File st ro old) =>
           match Tree.put p (File (Stat (now w) (st_ctime st)) ro (old +:+ data)) (root w) with
           | Some t => Ok () (with_root t w)
           | None => Raise FileNotFoundError w
           end
       | _ => Raise FileNotFoundError w
       end.

(** [p.unlink()] *)
Definition unlink (p : path) : M unit :=
  λ w, match Tree.lookup p (root w) with
       | Some (File _ ro _) =>
           if ro then Raise PermissionError w
           else match Tree.remove p (root w) with
                | Some t => Ok () (with_root t w)
                | None => Raise FileNotFoundError w
                end
       | Some (Dir _ _) => Raise PermissionError w
       | None => Raise FileNotFoundError w
       end.

(** [shutil.rmtree(p)] *)
Definition rmtree (p : path) : M unit :=
  λ w, match Tree.lookup p (root w) with
       | Some (Dir st es) =>
           match Tree.rm_node (Dir st es) with
           | None =>
               match Tree.remove p (root w) with
               | Some t => Ok () (with_root t w)
               | None => Raise PermissionError w
               end
           | Some r =>
               match Tree.put p r (root w) with
               | Some t => Raise PermissionError (with_root t w)
               | None => Raise PermissionError w
               end
           end
       | Some (File _ _ _) => Raise NotADirectoryError w
       | None => Raise FileNotFoundError w
       end.

(** [shutil.move(src, dst)], where it is a rename: [src] goes to [dst],
    or into [dst] when that is a directory. The program only moves a tree
    to a sibling name that [create_backup_name] found free; the other
    cases of [shutil.move] (a destination that is a file, or whose parent
    is missing) are given as errors. *)
Definition move (src dst : path) : M unit :=
  λ w, match Tree.lookup src (root w) with
       | None => Raise FileNotFoundError w
       | Some n =>
           let real_dst :=
             if Tree.is_dir dst (root w) then dst ++ [name src] else dst in
           if Tree.exists_ real_dst (root w) then Raise ShutilError w
           else if bool_decide (src `prefix_of` real_dst) then Raise ShutilError w
           else match t ← Tree.remove src (root w); Tree.put real_dst n t with
                | Some t => Ok () (with_root t w)
                | None => Raise FileNotFoundError w
                end
       end.

(** [shutil.copy2(src, dst)] *)
Definition copy2 (src dst : path) : M unit :=
  λ w, match Tree.lookup src (root w) with
       | None => Raise FileNotFoundError w
       | Some (Dir _ _) => Raise IsADirectoryError w
       | Some (File st ro data) =>
           let real_dst :=
             if Tree.is_dir dst (root w) then dst ++ [name src] else dst in
           if bool_decide (src = real_dst) then Raise SameFileError w
           else
             let '(n, e) :=
               Tree.copy_file_onto (now w) st ro data (Tree.lookup real_dst (root w)) in
             if e then Raise PermissionError w
             else match n' ← n; Tree.put real_dst n' (root w) with
                  | Some t => Ok () (with_root t w)
                  | None => Raise FileNotFoundError w
                  end
       end.

(** [shutil.copytree(src, dst, dirs_exist_ok=ok)]: the tree at [src], as
    it is when the call starts, is copied to [dst]. *)
Definition copytree (src dst : path) (ok : bool) : M unit :=
  λ w, match Tree.lookup src (root w) with
       | None => Raise FileNotFoundError w
       | Some (File _ _ _) => Raise NotADirectoryError w
       | Some (Dir sst ses) =>
           match Tree.lookup dst (root w) with
           | Some (File _ _ _) => Raise FileExistsError w
           | Some (Dir _ _) =>
               if ok then
                 let '(d, e) :=
                   Tree.copytree_node (now w) ok (Dir sst ses) (Tree.lookup dst (root w)) in
                 match d' ← d; Tree.put dst d' (root w) with
                 | Some t =>
                     if e then Raise ShutilError (with_root t w)
                     else Ok () (with_root t w)
                 | None => Raise FileNotFoundError w
                 end
               else Raise FileExistsError w
           | None =>
               match Tree.mkdirs (now w) (parent dst) (root w) with
               | None => Raise NotADirectoryError w
               | Some t0 =>
                   let '(d, e) := Tree.copytree_node (now w) ok (Dir sst ses) None in
                   match d' ← d; Tree.put dst d' t0 with
                   | Some t =>
                       if e then Raise ShutilError (with_root t w)
                       else Ok () (with_root t w)
                   | None => Raise FileNotFoundError w
                   end
               end
           end
       end.

(** [sum(len(files)) , sum(len(dirs))] over [os.walk(p)] *)
Definition walk_counts (p : path) : M (nat * nat) :=
  read (λ t, match Tree.lookup p t with
             | Some (Dir st es) =>
                 (Tree.count_files (Dir st es), Tree.count_dirs (Dir st es))
             | _ => (0, 0)%nat
             end).

Definition clock : M Z := λ w, Ok (now w) w.

(** [session.get(url)]: the request is recorded; no answer is a
    connection error. *)
Definition http_get (url : string) : M response :=
  λ w, let w' := with_requests (requests w ++ [url]) w in
       match list_find (λ e, e.1 = url) (remote w) with
       | Some (_, (_, r)) => Ok r w'
       | None => Raise ClientError w'
       end.

End Os.

(** ** The regular expressions of [get_artifact_hash_from_directory] *)

Module Re.

Definition quote : ascii := ascii_of_nat 34.

Definition is_digit (c : ascii) : bool :=
  bool_decide (48 ≤ nat_of_ascii c ≤ 57)%nat.
Definition is_hex (c : ascii) : bool :=
  is_digit c || bool_decide (97 ≤ nat_of_ascii c ≤ 102)%nat.

Fixpoint span (P : ascii → bool) (s : list ascii) : list ascii * list ascii :=
  match s with
  | c :: s' => if P c then let '(a, b) := span P s' in (c :: a, b) else ([], s)
  | [] => ([], [])
  end.

Definition literal (lit s : list ascii) : option (list ascii) :=
  if bool_decide (lit `prefix_of` s) then Some (drop (length lit) s) else None.

Definition href : list ascii := Py.chars "href=" ++ [quote] ++ Py.chars "./".
Definition server_7z : list ascii := Py.chars "/server.7z" ++ [quote].

(** The tail of both patterns at the head of [s], a non-empty run of
    [a-f0-9] followed by [/server.7z] and a quote: the run. *)
Definition hash_and_tail (s : list ascii) : option (list ascii) :=
  let '(h, s1) := span is_hex s in
  if bool_decide (h = []) then None
  else _ ← literal server_7z s1; Some h.

(** The pattern of line 1425 at the head of [s]: [href=], a quote, [./],
    then the group (the artifact number, a dash, the run), then the tail.
    Result: the group. The number stands for itself: it is one of
    decimal digits, without a character that the regular expression
    would read as an operator. *)
Definition link_of (artifact : string) (s : list ascii) : option string :=
  s1 ← literal (href ++ Py.chars artifact ++ Py.chars "-") s;
  h ← hash_and_tail s1;
  Some (artifact +:+ "-" +:+ String.string_of_list_ascii h).

(** The pattern of line 1439 at the head of [s]: as above with a
    non-empty run of digits for the number. Result: the group and the
    length of the match. *)
Definition any_link (s : list ascii) : option (string * nat) :=
  s1 ← literal href s;
  let '(d, s2) := span is_digit s1 in
  if bool_decide (d = []) then None
  else
    s3 ← literal (Py.chars "-") s2;
    h ← hash_and_tail s3;
    Some (String.string_of_list_ascii (d ++ Py.chars "-" ++ h),
          length href + length d + 1 + length h + length server_7z)%nat.

(** [re.search(pattern, html).group(1)]: the leftmost match. *)
Fixpoint search_from (artifact : string) (s : list ascii) : option string :=
  match link_of artifact s with
  | Some g => Some g
  | None => match s with
            | [] => None
            | _ :: s' => search_from artifact s'
            end
  end.
Definition search (artifact html : string) : option string :=
  search_from artifact (Py.chars html).

(** [re.findall(all_artifacts_pattern, html)]: the matches from left to
    right, none overlapping another ([skip] characters of the last match
    are still to be passed). *)
Fixpoint findall_from (s : list ascii) (skip : nat) : list string :=
  match skip with
  | S skip' => match s with
               | [] => []
               | _ :: s' => findall_from s' skip'
               end
  | O =>
      match s with
      | [] => []
      | _ :: s' =>
          match any_link s with
          | Some (g, n) => g :: findall_from s' (Nat.pred n)
          | None => findall_from s' O
          end
      end
  end.
Definition findall (html : string) : list string :=
  findall_from (Py.chars html) 0.

(** [m.split('-')[0]] *)
Definition before_dash (m : string) : string :=
  String.string_of_list_ascii (span (λ c, negb (bool_decide (c = "-"%char))) (Py.chars m)).1.

End Re.

(** ** The methods of [FiveMUpdateBot] *)

Local Open Scope prog_scope.

(** [self.file_config], as far as the methods below read it. *)
Record file_config := FileConfig {
  full_download_path : path;
  auto_cleanup_days : Z
}.

(** One day, in the unit of the clock. *)
Definition day : Z := 86400 * 1000000.





Definition list_url : string :=
  "https://runtime.fivem.net/artifacts/fivem/build_server_windows/master/".

(** [await response.text()]: the whole body, or an error when the stream
    breaks. *)
Definition response_text (r : response) : M string :=
  if complete r then ret (body r) else raise ClientError.

(** [get_artifact_hash_from_directory(self, artifact_number, session)],
    lines 1409-1452. *)
Definition get_artifact_hash_from_directory (artifact_number : string) : M string :=
  try_except
    (logger (FetchingListing list_url);;
     response ← Os.http_get list_url;
     if bool_decide (status response ≠ 200%nat) then
       raise (Exception ("Failed to fetch artifact list: " +:+ pretty (status response)))
     else
       html_content ← response_text response;
       logger (ReceivedHtml (String.length html_content));;
       logger (SearchingForPattern artifact_number);;
       match Re.search artifact_number html_content with
       | Some artifact_dir =>
           logger (FoundArtifactDirectory artifact_dir);;
           ret artifact_dir
       | None =>
           logger (ArtifactNotFoundShowing artifact_number);;
           let all_matches := Re.findall html_content in
           logger (FoundArtifactDownloads (length all_matches));;
           for_each (take 10 all_matches)
             (λ m _, logger (ArtifactLine (Re.before_dash m) m)) ();;
           when_ (bool_decide (10 < length all_matches)%nat)
             (logger (AndMore (length all_matches - 10)));;
           raise (Exception ("Artifact " +:+ artifact_number
                             +:+ " not found in directory listing"))
       end)
    (λ e, logger (ErrorFetchingArtifactDirectory e);; raise e).

(** [download_or_find_artifact(self, artifact_number, session, ctx=None,
    force_download=False)], lines 1454-1527. The result is the local path
    (the first component of the pair the method returns). *)
Definition download_or_find_artifact (cfg : file_config)
    (artifact_number : string) (force_download : bool) : M path :=
  try_except
    (let download_path := full_download_path cfg in
     existing_files ← Os.glob download_path artifact_number ".7z";
     match existing_files, force_download with
     | existing_file :: _, false =>
         logger (UsingCachedArtifact existing_file);;
         ret existing_file
     | _, _ =>
         when_ (bool_decide (existing_files ≠ []) && force_download)
           (logger FoundCachedButForced);;
         download_url ←
           try_except
             (artifact_dir ← get_artifact_hash_from_directory artifact_number;
              let download_url := list_url +:+ artifact_dir +:+ "/server.7z" in
              logger (ConstructedUrl download_url);;
              logger (ArtifactDirectory artifact_dir);;
              ret download_url)
             (λ e, logger (FailedToGetArtifactDirectory e);;
                   raise (Exception ("Artifact " +:+ artifact_number
                                     +:+ " not found in FiveM directory listing")));
         let artifact_filename := artifact_number +:+ ".7z" in
         let local_file_path := download_path ++ [artifact_filename] in
         logger (FoundDownloadUrl download_url);;
         logger (SavingTo local_file_path);;
         logger (StartingDownload download_url);;
         download_response ← Os.http_get download_url;
         logger (DownloadStatus (status download_response));;
         if bool_decide (status download_response ≠ 200%nat) then
           raise (Exception ("Failed to download artifact: HTTP "
                             +:+ pretty (status download_response)))
         else
           match content_length download_response with
           | Some n => logger (DownloadSize n)
           | None => ret ()
           end;;
           Os.open_w local_file_path;;
           Os.write local_file_path (body download_response);;
           when_ (negb (complete download_response)) (raise ClientError);;
           data ← Os.read_file local_file_path;
           logger DownloadCompleted;;
           logger (DownloadedTo local_file_path);;
           logger (FinalFileSize (String.length data));;
           ret local_file_path
     end)
    (λ e, logger (DownloadFailed e);; raise e).

(** [get_current_version(self, target_path)], lines 1539-1551. *)
Definition get_current_version (target_path : path) : M (option string) :=
  try_except
    (let version_file := target_path ++ ["version.txt"] in
     e ← Os.exists_ version_file;
     if e then
       data ← Os.read_file version_file;
       let version := Py.strip data in
       if Py.truthy (Some version) then
         logger (CurrentServerVersion version);;
         ret (Some version)
       else ret None
     else ret None)
    (λ e, logger (CouldNotReadVersionFile e);; ret None).

(** [counter = start; while taken(cand(counter)): counter += 1]. The loop
    is run for at most [rounds] rounds; [create_backup_name] gives it one
    round more than the parent directory has entries, which is enough. *)
Fixpoint first_free (taken : string → bool) (cand : nat → string)
    (rounds counter : nat) : nat :=
  match rounds with
  | O => counter
  | S rounds' =>
      if taken (cand counter) then first_free taken cand rounds' (S counter)
      else counter
  end.

Definition entry_count (p : path) (t : node) : nat :=
  match Tree.lookup p t with
  | Some (Dir _ es) => length es
  | _ => 0%nat
  end.

(** [create_backup_name(self, target_path, new_artifact_number=None)],
    lines 1553-1583. *)
Definition create_backup_name (target_path : path)
    (new_artifact_number : option string) : M path :=
  let parent_dir := parent target_path in
  let base_name := name target_path in
  current_version ← get_current_version target_path;
  t ← Os.read id;
  let taken := λ x, Tree.exists_ (parent_dir ++ [x]) t in
  let rounds := S (entry_count parent_dir t) in
  let unique := λ backup_base,
    if taken backup_base then
      let cand := λ counter : nat, backup_base +:+ "_" +:+ pretty counter in
      parent_dir ++ [cand (first_free taken cand rounds 1%nat)]
    else parent_dir ++ [backup_base] in
  if Py.truthy current_version then
    ret (unique (base_name +:+ "_backup_" +:+ default EmptyString current_version))
  else if Py.truthy new_artifact_number then
    ret (unique (base_name +:+ "_backup_" +:+ default EmptyString new_artifact_number))
  else
    let backup_base := base_name +:+ "_bak" in
    let cand := λ counter : nat, backup_base +:+ pretty counter in
    ret (parent_dir ++ [cand (first_free taken cand rounds 1%nat)]).

(** [create_version_file(self, target_dir, artifact_number)],
    lines 1585-1593. *)
Definition create_version_file (target_dir : path) (artifact_number : string)
  : M unit :=
  try_except
    (let version_file := target_dir ++ ["version.txt"] in
     Os.open_w version_file;;
     Os.write version_file artifact_number;;
     logger (CreatedVersionFile artifact_number))
    (λ e, logger (FailedToCreateVersionFile e)).

(** The result dictionary of [copy_server_files]. *)
Record copy_result := CopyResult {
  backup_created : option string;
  data_backup_created : option string;
  copied_files : nat;
  copied_dirs : nat;
  data_restored_files : nat;
  data_restored_dirs : nat
}.

(** [target.exists() and any(target.iterdir())] *)
Definition exists_nonempty (p : path) : M bool :=
  e ← Os.exists_ p;
  if e then items ← Os.iterdir p; ret (bool_decide (items ≠ []))
  else ret false.

(** The loop that [copy_server_files] runs four times (lines 1639-1645,
    1663-1669, 1688-1694, 1720-1726): every file and directory of [items]
    is copied under its own name into [dst], and counted. *)
Definition copy_items (items : list path) (dst : path) (counts : nat * nat)
  : M (nat * nat) :=
  for_each items
    (λ item '(files, dirs),
       f ← Os.is_file item;
       if f then
         Os.copy2 item (dst ++ [name item]);;
         ret (S files, dirs)
       else
         d ← Os.is_dir item;
         if d then
           Os.copytree item (dst ++ [name item]) true;;
           ret (files, S dirs)
         else ret (files, dirs))
    counts.

(** The six steps of [copy_server_files], in the order of the source. *)

(** Lines 1606-1616: the existing server files are moved to a backup. *)
Definition backup_server_files (target_path : path)
    (artifact_number : option string) : M (option string) :=
  nonempty ← exists_nonempty target_path;
  if nonempty then
    backup_path ← create_backup_name target_path artifact_number;
    logger (CreatingBackup target_path backup_path);;
    Os.move target_path backup_path;;
    logger (BackupCreated backup_path);;
    ret (Some (name backup_path))
  else ret None.

(** Lines 1618-1630: the server data, when configured, are moved to a
    backup of their own. *)
Definition backup_server_data (server_data_dir : option path)
    (artifact_number : option string) : M (option string) :=
  match server_data_dir with
  | Some server_data_path =>
      nonempty ← exists_nonempty server_data_path;
      if nonempty then
        data_backup_path ← create_backup_name server_data_path artifact_number;
        logger (CreatingDataBackup server_data_path data_backup_path);;
        Os.move server_data_path data_backup_path;;
        logger (DataBackupCreated data_backup_path);;
        ret (Some (name data_backup_path))
      else ret None
  | None => ret None
  end.

(** Lines 1632-1645: a fresh target directory receives the source. *)
Definition copy_source (source_path target_path : path) : M (nat * nat) :=
  Os.mkdir_parents target_path;;
  items ← Os.iterdir source_path;
  copy_items items target_path (0, 0)%nat.

(** Lines 1647-1671: the data are restored from the backup just made. *)
Definition restore_from_data_backup (server_data_dir : option path)
    (data_backup_created : option string) : M (nat * nat) :=
  match server_data_dir with
  | Some server_data_path =>
      if Py.truthy data_backup_created then
        let data_parent_dir := parent server_data_path in
        let backup_path :=
          data_parent_dir ++ [default EmptyString data_backup_created] in
        e ← Os.exists_ backup_path;
        if e then
          Os.mkdir_parents server_data_path;;
          logger (RestoringDataFromBackup backup_path server_data_path);;
          items ← Os.iterdir backup_path;
          r ← copy_items items server_data_path (0, 0)%nat;
          logger (ServerDataRestored r.1 r.2);;
          ret r
        else ret (0, 0)%nat
      else ret (0, 0)%nat
  | None => ret (0, 0)%nat
  end.

(** Lines 1673-1708: a ServerData directory inside the server backup is
    copied to the data location, whatever the step before restored. *)
Definition restore_from_server_backup (target_path : path)
    (server_data_dir : option path) (backup_created : option string)
    (restored : nat * nat) : M (nat * nat) :=
  if Py.truthy backup_created then
    let server_backup_path :=
      parent target_path ++ [default EmptyString backup_created] in
    let server_data_in_backup := server_backup_path ++ ["ServerData"] in
    e ← Os.exists_ server_data_in_backup;
    if e then
      logger (FoundServerDataInBackup server_data_in_backup);;
      r ← match server_data_dir with
          | Some server_data_path =>
              Os.mkdir_parents server_data_path;;
              logger (CopyingServerDataToConfigured
                        server_data_in_backup server_data_path);;
              items ← Os.iterdir server_data_in_backup;
              copy_items items server_data_path restored
          | None =>
              let server_data_in_server := target_path ++ ["ServerData"] in
              logger (CopyingServerDataBack
                        server_data_in_backup server_data_in_server);;
              Os.copytree server_data_in_backup server_data_in_server true;;
              '(files, dirs) ← Os.walk_counts server_data_in_server;
              ret (restored.1 + files, restored.2 + dirs)%nat
          end;
      logger (ServerDataFromBackupRestored r.1 r.2);;
      ret r
    else ret restored
  else ret restored.

(** Lines 1710-1737: the fallback, taken when nothing was restored so far:
    the server-data directory of the extracted artifact. *)
Definition restore_from_artifact (source_path target_path : path)
    (server_data_dir : option path) (restored : nat * nat) : M (nat * nat) :=
  if bool_decide (restored.1 = 0%nat) && bool_decide (restored.2 = 0%nat) then
    let source_data_path := source_path ++ ["server-data"] in
    e ← Os.exists_ source_data_path;
    if e then
      r ← match server_data_dir with
          | Some server_data_path =>
              Os.mkdir_parents server_data_path;;
              logger (CopyingServerDataFromArtifact
                        source_data_path server_data_path);;
              items ← Os.iterdir source_data_path;
              copy_items items server_data_path restored
          | None =>
              let server_data_in_server := target_path ++ ["ServerData"] in
              Os.copytree source_data_path server_data_in_server true;;
              '(files, dirs) ← Os.walk_counts server_data_in_server;
              ret (restored.1 + files, restored.2 + dirs)%nat
          end;
      logger (ServerDataFromArtifact r.1 r.2);;
      ret r
    else ret restored
  else ret restored.

(** [copy_server_files(self, source_dir, target_dir, server_data_dir=None,
    artifact_number=None)], lines 1595-1756. *)
Definition copy_server_files (source_dir target_dir : path)
    (server_data_dir : option path) (artifact_number : option string)
  : M copy_result :=
  try_except
    (logger (StartingFileCopy source_dir target_dir);;
     backup_created ← backup_server_files target_dir artifact_number;
     data_backup_created ← backup_server_data server_data_dir artifact_number;
     '(copied_files, copied_dirs) ← copy_source source_dir target_dir;
     restored ← restore_from_data_backup server_data_dir data_backup_created;
     restored ← restore_from_server_backup target_dir server_data_dir
                  backup_created restored;
     restored ← restore_from_artifact source_dir target_dir server_data_dir
                  restored;
     logger (FilesCopied copied_files copied_dirs source_dir target_dir);;
     (* lines 1741-1743 *)
     when_ (Py.truthy artifact_number)
       (create_version_file target_dir (default EmptyString artifact_number));;
     ret {| backup_created := backup_created;
            data_backup_created := data_backup_created;
            copied_files := copied_files;
            copied_dirs := copied_dirs;
            data_restored_files := restored.1;
            data_restored_dirs := restored.2 |})
    (λ e, logger (FileCopyFailed e);; raise e).

(** The ['type'] of a backup entry. *)
Inductive backup_type := Server | ServerPlusData | ServerDataOnly.

(** An entry of the list [find_backup_directories] returns; [size] is in
    bytes (the method reports megabytes). *)
Record backup_entry := BackupEntry {
  be_path : path;
  be_name : string;
  created : Z;
  size : nat;
  type : backup_type
}.

(** The entries of one scan: the directories of [dir] whose name matches
    [pattern*], in enumeration order (lines 1768-1787 and 1795-1808). *)
Definition scan_backups (dir : path) (pattern : string)
    (classify : node → backup_type) (t : node) : list backup_entry :=
  match Tree.lookup dir t with
  | Some (Dir _ es) =>
      omap (λ '(x, n),
              if Py.glob_star pattern EmptyString x then
                match n with
                | Dir st _ =>
                    Some {| be_path := dir ++ [x]; be_name := x;
                            created := st_ctime st; size := Tree.size n;
                            type := classify n |}
                | File _ _ _ => None
                end
              else None) es
  | _ => []
  end.

(** [l.sort(key=lambda x: x['created'], reverse=True)]: a stable sort,
    entries of equal key keep their order. *)
Fixpoint insert_newest_first (x : backup_entry) (l : list backup_entry)
  : list backup_entry :=
  match l with
  | [] => [x]
  | y :: l' =>
      if bool_decide (created x < created y) then y :: insert_newest_first x l'
      else x :: l
  end.
Definition sort_newest_first (l : list backup_entry) : list backup_entry :=
  foldr insert_newest_first [] l.

(** [find_backup_directories(self, server_path, server_data_path=None)],
    lines 1758-1812. *)
Definition find_backup_directories (server_path : path)
    (server_data_path : option path) : M (list backup_entry) :=
  let parent_dir := parent server_path in
  let server_name := name server_path in
  server_backups ←
    Os.read (scan_backups parent_dir (server_name +:+ "_backup")
               (λ item, if Tree.exists_ ["ServerData"] item
                        then ServerPlusData else Server));
  data_backups ←
    match server_data_path with
    | Some server_data_path =>
        let data_parent_dir := parent server_data_path in
        let data_name := name server_data_path in
        Os.read (scan_backups data_parent_dir (data_name +:+ "_backup")
                   (λ _, ServerDataOnly))
    | None => ret []
    end;
  ret (sort_newest_first (server_backups ++ data_backups)).

(** [delete_backup_directory(self, backup_path)], lines 1814-1825. *)
Definition delete_backup_directory (backup_path : path) : M bool :=
  try_except
    (e ← Os.exists_ backup_path;
     d ← Os.is_dir backup_path;
     if e && d then
       Os.rmtree backup_path;;
       logger (DeletedBackupDirectory backup_path);;
       ret true
     else ret false)
    (λ e, logger (FailedToDeleteBackup backup_path e);; raise e).

(** [get_server_config], as far as [rollback_server] reads it:
    [managed] is [tcadmin_enabled or service_enabled]. *)
Record server_config := ServerConfig {
  server_files : path;
  server_data : option path;
  managed : bool
}.

(** The process controller is outside the program: what [stop_server] and
    [start_server] do is given by their outcome, an exception or none. *)
Record controller := Controller {
  stop_outcome : option exn;
  start_outcome : option exn
}.
Definition stop_server (c : controller) : M unit :=
  match stop_outcome c with Some e => raise e | None => ret () end.
Definition start_server (c : controller) : M unit :=
  match start_outcome c with Some e => raise e | None => ret () end.

(** How the rollback command ends. *)
Inductive rollback_outcome :=
| RolledBack (current_backup_name : path)
| BackupNotFound
| Failed (e : exn) (restart : option exn).

(** [rollback_server(ctx, server_type, backup_name)] from its [try]
    on, lines 983-1046; the messages sent to the chat are left out. *)
Definition rollback_server (server_config : server_config) (c : controller)
    (backup_name : string) : M rollback_outcome :=
  try_except
    (let server_files_path := server_files server_config in
     let server_data_path := server_data server_config in
     backups ← find_backup_directories server_files_path server_data_path;
     match list_find (λ backup, be_name backup = backup_name) backups with
     | None => ret BackupNotFound
     | Some (_, backup_found) =>
         when_ (managed server_config) (stop_server c);;
         current_backup_name ← create_backup_name server_files_path None;
         Os.move server_files_path current_backup_name;;
         Os.copytree (be_path backup_found) server_files_path false;;
         when_ (managed server_config) (start_server c);;
         ret (RolledBack current_backup_name)
     end)
    (λ e, logger (RollbackFailed e);;
          if managed server_config then
            try_except (start_server c;; ret (Failed e None))
                       (λ e', ret (Failed e (Some e')))
          else ret (Failed e None)).

(** ** Vocabulary of the properties *)

(** Two paths of which neither is below the other. *)
Definition disjoint (p q : path) : Prop :=
  ¬ p `prefix_of` q ∧ ¬ q `prefix_of` p.

(** The world in which a run ends, normally or not. *)
Definition final {A} (r : result A) : world :=
  match r with Ok _ w | Raise _ w => w end.

(** [keeps R m]: every run of [m], whether it returns or raises, relates
    the world it starts in to the world it ends in. *)
Definition keeps {A} (R : relation world) (m : M A) : Prop :=
  ∀ w, R w (final (m w)).

(** Only the file tree changes. *)
Definition only_root : relation world :=
  λ w w', ∃ t, w' = with_root t w.
(** The file tree does not change. *)
Definition same_tree : relation world := λ w w', root w' = root w.
(** No request is sent. *)
Definition net_quiet : relation world := λ w w', requests w' = requests w.
(** What is at [q] does not change. *)
Definition same_at (q : path) : relation world :=
  λ w w', Tree.lookup q (root w') = Tree.lookup q (root w).
(** The log grows by messages that satisfy [P]. *)
Definition logs (P : log_msg → Prop) : relation world :=
  λ w w', ∃ evs, log w' = log w ++ evs ∧ Forall P evs.
(** Only the log changes. *)
Definition only_log : relation world :=
  λ w w', ∃ l, w' = with_log l w.

(** The version marker of a tree, as [get_current_version] reads it. *)
Definition version_marker (target : path) (t : node) : option string :=
  match Tree.lookup (target ++ ["version.txt"]) t with
  | Some (File _ _ data) =>
      if Py.truthy (Some (Py.strip data)) then Some (Py.strip data) else None
  | _ => None
  end.

(** The version that labels a backup: the marker of the tree, else the
    artifact number passed as fallback, else none. *)
Definition backup_label (marker artifact : option string) : option string :=
  if Py.truthy marker then marker
  else if Py.truthy artifact then artifact
  else None.

(** [x] is [base] when that is not taken, else [base_k] for the least
    [k], from 1 on, such that [base_k] is not taken. *)
Definition first_unique (taken : string → bool) (base x : string) : Prop :=
  (taken base = false ∧ x = base)
  ∨ (taken base = true
     ∧ ∃ k : nat, (1 ≤ k)%nat ∧ x = base +:+ "_" +:+ pretty k
         ∧ taken x = false
         ∧ ∀ j : nat, (1 ≤ j < k)%nat → taken (base +:+ "_" +:+ pretty j) = true).

(** [x] is [basek] for the least [k], from 1 on, that is not taken. *)
Definition first_numbered (taken : string → bool) (base x : string) : Prop :=
  ∃ k : nat, (1 ≤ k)%nat ∧ x = base +:+ pretty k
    ∧ taken x = false
    ∧ ∀ j : nat, (1 ≤ j < k)%nat → taken (base +:+ pretty j) = true.

(** Newest first: the order of the list of backups. *)
Definition newest_first : relation backup_entry :=
  λ a b, created b ≤ created a.

(** The ['type'] of a backup found beside the server files. *)
Definition server_backup_type (item : node) : backup_type :=
  if Tree.exists_ ["ServerData"] item then ServerPlusData else Server.

(** [b] describes a directory of [dir] whose name starts with [pattern],
    classified by [classify]. *)
Definition describes_backup (dir : path) (pattern : string)
    (classify : node → backup_type) (t : node) (b : backup_entry) : Prop :=
  ∃ st es st' es',
    Tree.lookup dir t = Some (Dir st es)
    ∧ (be_name b, Dir st' es') ∈ es
    ∧ Py.startswith (be_name b) pattern = true
    ∧ be_path b = dir ++ [be_name b]
    ∧ created b = st_ctime st'
    ∧ size b = Tree.size (Dir st' es')
    ∧ type b = classify (Dir st' es').

(** The cached archive that [download_or_find_artifact] takes for an
    artifact number: the first entry of the download directory, in
    enumeration order, that matches [<number>*.7z]. *)
Definition cached_artifact (cfg : file_config) (artifact_number : string)
    (t : node) : option path :=
  match Tree.lookup (full_download_path cfg) t with
  | Some (Dir _ es) =>
      (λ x, full_download_path cfg ++ [x]) <$>
        head (filter (λ x, Py.glob_star artifact_number ".7z" x) es.*1)
  | _ => None
  end.

(** ** Worlds for the examples *)

Module Scenario.

Definition st0 : stat := Stat 0 0.

Definition cfg : file_config := FileConfig ["bot"; "downloads"] 7.

(** The listing page with one artifact. *)
Definition html : string :=
  "<a href=" +:+ String Re.quote "./17346-c75a342e/server.7z"
  +:+ String Re.quote ">17346</a>".

Definition archive_url : string := list_url +:+ "17346-c75a342e/server.7z".

(** An empty cache and a remote server that has artifact 17346. *)
Definition fresh_cache : world :=
  World (Dir st0 [("bot", Dir st0 [("downloads", Dir st0 [])])]) 100 []
    [(list_url, Response 200 None html true);
     (archive_url, Response 200 (Some 3%nat) "7z!" true)] [].

(** A cache that holds the archive of 17346 only, and no remote server. *)
Definition cache_17346 : world :=
  World (Dir st0 [("bot", Dir st0 [("downloads",
           Dir st0 [("17346.7z", File (Stat 50 50) false "7z!")])])])
    100 [] [] [].

End Scenario.

(** ** Vocabulary of the cleanup *)







Module CleanupScenario.

Definition cfg : file_config := Scenario.cfg.

(** Two days after the epoch of the clock. *)
Definition today : Z := 2 * day.

Definition old_file (ro : bool) : node := File (Stat 0 0) ro "7z!".

Definition cache (es : list (string * node)) : world :=
  World (Dir Scenario.st0
           [("bot", Dir Scenario.st0 [("downloads", Dir Scenario.st0 es)])])
    today [] [] [].


(** Three old archives, the second of them read-only. *)
Definition with_read_only : list (string * node) :=
  [("100.7z", old_file false); ("200.7z", old_file true); ("300.7z", old_file false)].

End CleanupScenario.

Module ApplyScenario.

(** DeploymentPath = [{a.txt, sub/}]. *)
Definition deployment (a : string) : node :=
  Dir (Stat 5 5) [("a.txt", File (Stat 1 1) false a); ("sub", Dir (Stat 2 2) [])].

(** The extracted tree, [{b.txt, sub/c.txt}]. *)
Definition extracted (b c : string) : node :=
  Dir (Stat 6 6)
    [("b.txt", File (Stat 3 3) false b);
     ("sub", Dir (Stat 4 4) [("c.txt", File (Stat 4 4) false c)])].

Definition before (a b c : string) : world :=
  World (Dir Scenario.st0
           [("srv", Dir Scenario.st0
                      [("server", deployment a); ("extract", extracted b c)])])
    100 [] [] [].


End ApplyScenario.

Module RollbackScenario.

(** A tree installed from an artifact, with its version marker. *)
Definition release (version content : string) : node :=
  Dir (Stat 5 5)
    [("server.exe", File (Stat 1 1) false content);
     ("version.txt", File (Stat 5 5) false version)].

(** Version 2 is live; the backup of version 1 is beside it. *)
Definition before : world :=
  World (Dir Scenario.st0
           [("srv", Dir Scenario.st0
                      [("server", release "2" "two");
                       ("server_backup_1", release "1" "one")])])
    100 [] [] [].

Definition cfg : server_config := ServerConfig ["srv"; "server"] None false.
Definition ctl : controller := Controller None None.

End RollbackScenario.

(** ** Vocabulary of the data restore *)











Module TierScenario.

(** The server files hold a ServerData directory of their own, the
    configured data directory holds a file, and so does the [server-data]
    directory of the artifact. *)
Definition before : world :=
  World (Dir Scenario.st0
           [("srv", Dir Scenario.st0
              [("server", Dir (Stat 5 5)
                  [("version.txt", File (Stat 1 1) false "17000");
                   ("ServerData", Dir (Stat 1 1)
                      [("nested.cfg", File (Stat 1 1) false "nested")])]);
               ("data", Dir (Stat 2 2)
                  [("world.db", File (Stat 2 2) false "world")]);
               ("extract", Dir (Stat 3 3)
                  [("run.exe", File (Stat 3 3) false "exe");
                   ("server-data", Dir (Stat 3 3)
                      [("default.cfg", File (Stat 3 3) false "default")])])])])
    100 [] [] [].

End TierScenario.

(** ** Vocabulary of copies *)

(** No file in [n] is read-only. *)
Fixpoint writable (n : node) : bool :=
  match n with
  | File _ ro _ => negb ro
  | Dir _ es =>
      (fix go (es : list (string * node)) : bool :=
         match es with
         | [] => true
         | (_, c) :: es' => writable c && go es'
         end) es
  end.

(** No directory holds two entries of one name. *)
Fixpoint wf (n : node) : Prop :=
  match n with
  | File _ _ _ => True
  | Dir _ es => NoDup es.*1 ∧ fold_right (λ e P, wf e.2 ∧ P) True es
  end.

(** The copy that [shutil.copytree] makes of a tree at a place where
    nothing was: names, contents, read-only flags and modification times
    are those of the source, in the same order; the creation times are
    the time of the copy. *)
Fixpoint copied (now : Z) (n : node) : node :=
  match n with
  | File st ro data => File (Stat (st_mtime st) now) ro data
  | Dir st es =>
      Dir (Stat (st_mtime st) now) ((λ e, (e.1, copied now e.2)) <$> es)
  end.

(** The list that [find_backup_directories] returns for a tree. *)
Definition catalog (server_path : path) (server_data_path : option path)
    (t : node) : list backup_entry :=
  sort_newest_first
    (scan_backups (parent server_path) (name server_path +:+ "_backup")
       server_backup_type t
     ++ match server_data_path with
        | Some data =>
            scan_backups (parent data) (name data +:+ "_backup")
              (λ _, ServerDataOnly) t
        | None => []
        end).

(** The name of the backup that [create_backup_name] gives a target
    whose tree has the marker [marker], with [artifact] as fallback. *)
Definition backup_named (target : path) (artifact : option string) (t : node)
    (x : string) : Prop :=
  let taken := λ x, Tree.exists_ (parent target ++ [x]) t in
  match backup_label (version_marker target t) artifact with
  | Some version =>
      first_unique taken (name target +:+ "_backup_" +:+ version) x
  | None => first_numbered taken (name target +:+ "_bak") x
  end.

(** The path [create_backup_name] returns on a tree: it reads nothing
    else of the world. *)
Definition backup_path (target : path) (artifact : option string) (t : node)
  : path :=
  match create_backup_name target artifact (World t 0 [] [] []) with
  | Ok p _ => p
  | Raise _ _ => target
  end.


(** What is at [q], if anything, does not change. *)
Definition stays (q : path) : relation world :=
  λ w w', is_Some (Tree.lookup q (root w)) →
          Tree.lookup q (root w') = Tree.lookup q (root w).

(** What [exists_nonempty] tells of a node: a directory with an entry. *)
Definition nonempty (n : node) : Prop :=
  match n with
  | Dir _ es => es ≠ []
  | File _ _ _ => False
  end.


Module MarkerScenario.

(** An extracted tree in which [version.txt] is a directory. *)
Definition extracted : node :=
  Dir (Stat 6 6)
    [("server.exe", File (Stat 3 3) false "two");
     ("version.txt", Dir (Stat 4 4) [])].

Definition before : world :=
  World (Dir Scenario.st0
           [("srv", Dir Scenario.st0
                      [("server", RollbackScenario.release "1" "one");
                       ("extract", extracted)])])
    100 [] [] [].

End MarkerScenario.

(** [needle] occurs in [hay]. *)
Definition occurs_in (needle hay : list ascii) : Prop :=
  ∃ before after, hay = before ++ needle ++ after.


(** The remote server answers [r] to a GET of [url]. *)
Definition answers (w : world) (url : string) (r : response) : Prop :=
  ∃ i, list_find (λ e, e.1 = url) (remote w) = Some (i, (url, r)).

Module BrokenScenario.

(** An empty cache and a remote server whose archive of 17346 breaks
    after two of its three bytes. *)
Definition before : world :=
  World (Dir Scenario.st0 [("bot", Dir Scenario.st0 [("downloads", Dir Scenario.st0 [])])])
    100 []
    [(list_url, Response 200 None Scenario.html true);
     (Scenario.archive_url, Response 200 (Some 3%nat) "7z" false)] [].

End BrokenScenario.

Module UnversionedScenario.

(** A live tree without version marker beside the backup of version 1. *)
Definition before : world :=
  World (Dir Scenario.st0
           [("srv", Dir Scenario.st0
                      [("server", Dir (Stat 5 5)
                                    [("server.exe", File (Stat 1 1) false "two")]);
                       ("server_backup_1", RollbackScenario.release "1" "one")])])
    100 [] [] [].

End UnversionedScenario.

(** * Configuration and process control

    The methods of [main.py] that read [config.ini] and start, stop and
    query the managed server. [Control.stop_server] and
    [Control.start_server] are the methods whose outcome a [controller]
    stands for above.

    Conventions:
    - the text of outputs and messages is ASCII: [str.lower] maps [A-Z]
      to [a-z] and leaves every other character alone;
    - a configuration is given by its sections as [configparser] holds
      them: option names in lower case, values as [get] returns them;
      there is no [DEFAULT] section;
    - what a command line does is given by the host, a function of the
      commands run before and of the arguments; [subprocess.run] returns
      a completed process or raises. *)

Module Str.

(** [c.lower()] *)
Definition lower_char (c : ascii) : ascii :=
  let n := nat_of_ascii c in
  if bool_decide (65 ≤ n ≤ 90)%nat then ascii_of_nat (n + 32) else c.

(** [s.lower()] *)
Fixpoint lower (s : string) : string :=
  match s with
  | String c s' => String (lower_char c) (lower s')
  | EmptyString => EmptyString
  end.

(** [needle in hay] on the characters of two strings. *)
Fixpoint contains_chars (needle hay : list ascii) : bool :=
  bool_decide (needle `prefix_of` hay)
  || match hay with
     | [] => false
     | _ :: hay' => contains_chars needle hay'
     end.

(** [needle in hay] *)
Definition contains (needle hay : string) : bool :=
  contains_chars (Py.chars needle) (Py.chars hay).

(** [s.lstrip(c)], [s.rstrip(c)] and [s.strip(c)] for one character. *)
Fixpoint lstrip_char (c : ascii) (s : string) : string :=
  match s with
  | String d s' => if bool_decide (d = c) then lstrip_char c s' else s
  | EmptyString => EmptyString
  end.
Definition rstrip_char (c : ascii) (s : string) : string :=
  String.rev (lstrip_char c (String.rev s)).
Definition strip_char (c : ascii) (s : string) : string :=
  rstrip_char c (lstrip_char c s).

(** The double quote, and [f'"{s}"']. *)
Definition quote : ascii := ascii_of_nat 34.
Definition quoted (s : string) : string :=
  String quote (s +:+ String quote EmptyString).

(** [s.split(c)]: the pieces between the occurrences of [c]. *)
Fixpoint split (c : ascii) (s : string) : list string :=
  match s with
  | EmptyString => [EmptyString]
  | String d s' =>
      match split c s' with
      | piece :: rest =>
          if bool_decide (d = c) then EmptyString :: piece :: rest
          else String d piece :: rest
      | [] => [String d EmptyString]
      end
  end.

End Str.

Module Control.

Inductive exn :=
| TimeoutExpired              (* subprocess.TimeoutExpired *)
| OSError (msg : string)      (* the program cannot be started *)
| KeyError (key : string)
| ValueError (text : string)
| CommandRegistrationError (name : string)   (* discord.py *)
| Exception (msg : string).

(** [subprocess.CompletedProcess] *)
Record completed := Completed {
  returncode : Z;
  stdout : string;
  stderr : string
}.

(** One constructor per [logger] call of the embedded methods. *)
Inductive log_msg :=
(* get_server_config *)
| FieldRequired (server_type field : string)
| ServiceNameRequired (server_type : string)
| FileOperationsOnly (server_type : string)
(* tcadmin_command *)
| ExecutingTcadmin (args : list string)
| TcadminSuccessful (output : string)
| TcadminFailed (error_msg : string)
| TcadminTimedOut
| ErrorExecutingTcadmin (e : exn)
(* start_windows_service, stop_windows_service, get_windows_service_status *)
| StartCommandSent (service : string)
| AlreadyRunning (service : string)
| ErrorStartingService (service : string) (e : exn)
| StopCommandSent (service : string)
| AlreadyStopped (service : string)
| ErrorStoppingService (service : string) (e : exn)
| ErrorGettingStatus (service : string) (e : exn)
(* stop_server, start_server, get_server_status *)
| TcadminStopped (service_id response : string)
| SkippingStop
| ErrorStoppingServer (e : exn)
| TcadminStarted (service_id response : string)
| SkippingStart
| ErrorStartingServer (e : exn)
| NoStatusForTcadmin
| ErrorGettingServerStatus (e : exn).

(** What the methods do to the outside. *)
Inductive event :=
| Run (args : list string) (timeout : nat)
| Sleep (seconds : nat)
| Log (m : log_msg).

(** What a command line does, given what happened before. *)
Definition host := list event → list string → completed + exn.

(** Programs: they read the host, add to the trace, and return or
    raise. *)
Definition P (A : Type) : Type := host → list event → (A + exn) * list event.

Definition ret {A} (a : A) : P A := λ _ tr, (inl a, tr).
Definition raise {A} (e : exn) : P A := λ _ tr, (inr e, tr).
Definition bind {A B} (m : P A) (k : A → P B) : P B :=
  λ h tr, match m h tr with
          | (inl a, tr') => k a h tr'
          | (inr e, tr') => (inr e, tr')
          end.
(** [try: m except ... as e: handler e] *)
Definition try_except {A} (m : P A) (handler : exn → P A) : P A :=
  λ h tr, match m h tr with
          | (inl a, tr') => (inl a, tr')
          | (inr e, tr') => handler e h tr'
          end.

Definition emit (e : event) : P unit := λ _ tr, (inl (), tr ++ [e]).
Definition logger (m : log_msg) : P unit := emit (Log m).
(** [await asyncio.sleep(seconds)] *)
Definition sleep (seconds : nat) : P unit := emit (Sleep seconds).
(** [subprocess.run(args, capture_output=True, text=True, timeout=t)] *)
Definition run (args : list string) (timeout : nat) : P completed :=
  λ h tr, (h tr args, tr ++ [Run args timeout]).

Declare Scope ctl_scope.
Delimit Scope ctl_scope with ctl.
Bind Scope ctl_scope with P.
Notation "x ← y ; z" := (bind y (λ x, z))
  (at level 20, y at level 100, z at level 200, only parsing) : ctl_scope.
Notation "x ;; z" := (bind x (λ _, z))
  (at level 100, z at level 200, only parsing, right associativity) : ctl_scope.

Local Open Scope ctl_scope.

(** *** [configparser] *)

Definition section := list (string * string).
Definition config := list (string * section).

Fixpoint lookup_key {A} (k : string) (l : list (string * A)) : option A :=
  match l with
  | [] => None
  | (k', a) :: l' => if decide (k = k') then Some a else lookup_key k l'
  end.

(** [section in config] *)
Definition has_section (c : config) (s : string) : bool :=
  bool_decide (is_Some (lookup_key s c)).

(** The value of an option, if the section and the option are there;
    option names are matched in lower case ([optionxform]). *)
Definition get_raw (c : config) (s opt : string) : option string :=
  lookup_key s c ≫= lookup_key (Str.lower opt).

(** [config.get(s, opt, fallback=fallback)] *)
Definition get (c : config) (s opt fallback : string) : string :=
  default fallback (get_raw c s opt).

(** [RawConfigParser.BOOLEAN_STATES] *)
Definition boolean_states : list (string * bool) :=
  [("1", true); ("yes", true); ("true", true); ("on", true);
   ("0", false); ("no", false); ("false", false); ("off", false)].

(** [config.getboolean(s, opt, fallback=fallback)] *)
Definition getboolean (c : config) (s opt : string) (fallback : bool)
  : P bool :=
  match get_raw c s opt with
  | None => ret fallback
  | Some v =>
      match lookup_key (Str.lower v) boolean_states with
      | Some b => ret b
      | None => raise (ValueError v)
      end
  end.

(** *** The configuration of a server *)

(** The dictionary [get_server_config] returns; the two TCAdmin keys
    are present only when TCAdmin is enabled. *)
Record server_config := ServerConfig {
  tcadmin_enabled : bool;
  service_enabled : bool;
  service_name : string;
  server_files : string;
  server_data : option string;
  tcadmin_executable : option string;
  tcadmin_service_id : option string
}.

(** [not server_config.get(field)]: the key is absent or the value is
    empty. *)
Definition missing (v : option string) : bool := negb (Py.truthy v).

(** [get_server_config(self, server_type)], lines 101-138. *)
Definition get_server_config (c : config) (server_type : string)
  : P (option server_config) :=
  if negb (has_section c server_type) then ret None
  else
    tcadmin ← getboolean c server_type "TCADMIN_Enabled" false;
    service ← getboolean c server_type "Service_Enabled" false;
    let name := get c server_type "Service_Name" EmptyString in
    let files :=
      Str.strip_char Str.quote (get c server_type "ServerFiles" EmptyString) in
    let data :=
      Str.strip_char Str.quote (get c server_type "ServerData" EmptyString) in
    let data := if Py.truthy (Some data) then Some data else None in
    let executable :=
      if tcadmin then Some (get c server_type "tcadmin_executable" EmptyString)
      else None in
    let service_id :=
      if tcadmin then Some (get c server_type "tcadmin_service_id" EmptyString)
      else None in
    (if tcadmin then
       (if missing executable then
          logger (FieldRequired server_type "tcadmin_executable");;
          raise (Exception (server_type +:+ ": tcadmin_executable"
                            +:+ " is required when TCADMIN_Enabled=True"))
        else ret ());;
       (if missing service_id then
          logger (FieldRequired server_type "tcadmin_service_id");;
          raise (Exception (server_type +:+ ": tcadmin_service_id"
                            +:+ " is required when TCADMIN_Enabled=True"))
        else ret ())
     else ret ());;
    (if service && negb (Py.truthy (Some name)) then
       logger (ServiceNameRequired server_type);;
       raise (Exception (server_type
                         +:+ ": Service_Name is required when Service_Enabled=True"))
     else ret ());;
    (if negb tcadmin && negb service then logger (FileOperationsOnly server_type)
     else ret ());;
    ret (Some {| tcadmin_enabled := tcadmin;
                 service_enabled := service;
                 service_name := name;
                 server_files := files;
                 server_data := data;
                 tcadmin_executable := executable;
                 tcadmin_service_id := service_id |}).

(** *** Process control *)

(** [server_config[key]] *)
Definition item (key : string) (v : option string) : P string :=
  match v with
  | Some s => ret s
  | None => raise (KeyError key)
  end.

(** [result.stderr.strip() if result.stderr else result.stdout.strip()] *)
Definition error_text (result : completed) : string :=
  if Py.truthy (Some (stderr result)) then Py.strip (stderr result)
  else Py.strip (stdout result).

(** [tcadmin_command(self, server_config, command)], lines 270-299. *)
Definition tcadmin_command (cfg : server_config) (command : string) : P string :=
  try_except
    (executable ← item "tcadmin_executable" (tcadmin_executable cfg);
     service_id ← item "tcadmin_service_id" (tcadmin_service_id cfg);
     let cmd_args :=
       [executable; "-service=" +:+ service_id; "-command=" +:+ command] in
     logger (ExecutingTcadmin cmd_args);;
     result ← run cmd_args 30;
     if bool_decide (returncode result = 0) then
       logger (TcadminSuccessful (Py.strip (stdout result)));;
       ret (Py.strip (stdout result))
     else
       let error_msg := error_text result in
       logger (TcadminFailed error_msg);;
       raise (Exception ("TCAdmin command failed: " +:+ error_msg)))
    (λ e, match e with
          | TimeoutExpired =>
              logger TcadminTimedOut;;
              raise (Exception "TCAdmin command timed out")
          | _ => logger (ErrorExecutingTcadmin e);; raise e
          end).

(** [start_windows_service(self, service_name)], lines 301-321. *)
Definition start_windows_service (service : string) : P bool :=
  try_except
    (result ← run ["sc"; "start"; service] 30;
     if bool_decide (returncode result = 0) then
       logger (StartCommandSent service);;
       ret true
     else
       let error_msg := error_text result in
       if Str.contains "already running" (Str.lower error_msg)
          || Str.contains "running" (Str.lower error_msg)
       then logger (AlreadyRunning service);; ret true
       else raise (Exception ("Service start failed: " +:+ error_msg)))
    (λ e, logger (ErrorStartingService service e);; raise e).

(** [stop_windows_service(self, service_name)], lines 323-343. *)
Definition stop_windows_service (service : string) : P bool :=
  try_except
    (result ← run ["sc"; "stop"; service] 30;
     if bool_decide (returncode result = 0) then
       logger (StopCommandSent service);;
       ret true
     else
       let error_msg := error_text result in
       if Str.contains "not started" (Str.lower error_msg)
          || Str.contains "stopped" (Str.lower error_msg)
       then logger (AlreadyStopped service);; ret true
       else raise (Exception ("Service stop failed: " +:+ error_msg)))
    (λ e, logger (ErrorStoppingService service e);; raise e).

(** [get_windows_service_status(self, service_name)], lines 345-364. *)
Definition get_windows_service_status (service : string) : P string :=
  try_except
    (result ← run ["sc"; "query"; service] 10;
     if bool_decide (returncode result = 0) then
       let output := Py.strip (stdout result) in
       if Str.contains "RUNNING" output then ret "running"
       else if Str.contains "STOPPED" output then ret "stopped"
       else ret "unknown"
     else ret "not_found")
    (λ e, logger (ErrorGettingStatus service e);; ret "error").

(** [stop_server(self, server_config)], lines 368-385. *)
Definition stop_server (cfg : server_config) : P bool :=
  try_except
    (if tcadmin_enabled cfg then
       response ← tcadmin_command cfg "stop";
       service_id ← item "tcadmin_service_id" (tcadmin_service_id cfg);
       logger (TcadminStopped service_id response);;
       sleep 2;;
       ret true
     else if service_enabled cfg then
       stop_windows_service (service_name cfg);;
       sleep 3;;
       ret true
     else
       logger SkippingStop;;
       ret true)
    (λ e, logger (ErrorStoppingServer e);; raise e).

(** [start_server(self, server_config)], lines 387-402. *)
Definition start_server (cfg : server_config) : P bool :=
  try_except
    (if tcadmin_enabled cfg then
       response ← tcadmin_command cfg "start";
       service_id ← item "tcadmin_service_id" (tcadmin_service_id cfg);
       logger (TcadminStarted service_id response);;
       ret true
     else if service_enabled cfg then
       start_windows_service (service_name cfg);;
       ret true
     else
       logger SkippingStart;;
       ret true)
    (λ e, logger (ErrorStartingServer e);; raise e).

(** [get_server_status(self, server_config)], lines 404-419. *)
Definition get_server_status (cfg : server_config) : P string :=
  try_except
    (if tcadmin_enabled cfg then
       logger NoStatusForTcadmin;;
       ret "unknown"
     else if service_enabled cfg then
       get_windows_service_status (service_name cfg)
     else ret "no_management")
    (λ e, logger (ErrorGettingServerStatus e);; ret "error").

(** The commands a program ran, in order. *)
Definition commands (tr : list event) : list (list string) :=
  omap (λ e, match e with Run args _ => Some args | _ => None end) tr.

End Control.

(** A section with both kinds of management switched on, a section
    managed as a Windows service, and hosts on which every command
    succeeds or never ends. *)
Module ControlScenario.
Import Control.

Definition ini : config :=
  [("live",
    [("serverfiles", Str.quoted "G:/GTAV/live/server");
     ("tcadmin_enabled", "True");
     ("service_enabled", "yes");
     ("service_name", "FXServer");
     ("tcadmin_executable", "C:/TCAdmin2/Monitor/TCAdminServiceBrowser.exe");
     ("tcadmin_service_id", "12345")]);
   ("dev",
    [("serverfiles", Str.quoted "G:/GTAV/dev/server");
     ("service_enabled", "True");
     ("service_name", Str.quoted "FXServer")])].

Definition live : server_config :=
  {| tcadmin_enabled := true;
     service_enabled := true;
     service_name := "FXServer";
     server_files := "G:/GTAV/live/server";
     server_data := None;
     tcadmin_executable := Some "C:/TCAdmin2/Monitor/TCAdminServiceBrowser.exe";
     tcadmin_service_id := Some "12345" |}.

Definition dev : server_config :=
  {| tcadmin_enabled := false;
     service_enabled := true;
     service_name := Str.quoted "FXServer";
     server_files := "G:/GTAV/dev/server";
     server_data := None;
     tcadmin_executable := None;
     tcadmin_service_id := None |}.

Definition succeeds : host := λ _ _, inl (Completed 0 "OK" EmptyString).
Definition times_out : host := λ _ _, inr TimeoutExpired.

End ControlScenario.

(** * The setup program

    The questions of [setup_environment.py] and the configuration it
    writes.

    Conventions:
    - the input is the list of the lines typed, without their line
      ends; [input] takes the next one and raises [EOFError] when none
      is left; what is printed is left out;
    - a loop that asks again is run at most once for each line left:
      every turn reads at least one line;
    - [int] is a parameter: the number a text stands for, if any;
    - the bot reads back the configuration that the setup wrote:
      [config.ini] keeps the sections, the option names in lower case
      and the values, which have no line break and no blank at either
      end; a value with a percent sign is outside the model. *)

Module Setup.

(** How a question ends. *)
Inductive outcome (A : Type) :=
| Got (a : A) (rest : list string)
| EOFError.
Arguments Got {A} a rest.
Arguments EOFError {A}.

Definition I (A : Type) : Type := list string → outcome A.

Definition ret {A} (a : A) : I A := λ input, Got a input.
Definition bind {A B} (m : I A) (k : A → I B) : I B :=
  λ input, match m input with
           | Got a rest => k a rest
           | EOFError => EOFError
           end.

Declare Scope ask_scope.
Delimit Scope ask_scope with ask.
Bind Scope ask_scope with I.
Notation "x ← y ; z" := (bind y (λ x, z))
  (at level 20, y at level 100, z at level 200, only parsing) : ask_scope.

Local Open Scope ask_scope.

(** [not value] *)
Definition blank (value : string) : bool := negb (Py.truthy (Some value)).

(** [get_user_input(prompt, default, required)], lines 22-39. *)
Fixpoint get_user_input (dflt : option string) (required : bool)
    (input : list string) : outcome string :=
  match input with
  | [] => EOFError
  | line :: rest =>
      let value := Py.strip line in
      if blank value && Py.truthy dflt then Got (default EmptyString dflt) rest
      else if blank value && required then get_user_input dflt required rest
      else Got value rest
  end.

(** [get_boolean_input(prompt, default)], lines 41-57. *)
Fixpoint get_boolean_input (dflt : bool) (input : list string)
  : outcome bool :=
  match input with
  | [] => EOFError
  | line :: rest =>
      let value := Str.lower (Py.strip line) in
      if blank value then Got dflt rest
      else if bool_decide (value ∈ ["y"; "yes"; "true"; "1"]) then Got true rest
      else if bool_decide (value ∈ ["n"; "no"; "false"; "0"]) then Got false rest
      else get_boolean_input dflt rest
  end.

(** [min_value is not None and int_value < min_value], and the same
    for [max_value]. *)
Definition below (min_value : option Z) (int_value : Z) : bool :=
  match min_value with Some m => bool_decide (int_value < m) | None => false end.
Definition above (max_value : option Z) (int_value : Z) : bool :=
  match max_value with Some m => bool_decide (m < int_value) | None => false end.

Section int.
Variable int : string → option Z.

(** [get_integer_input(prompt, default, min_value, max_value)],
    lines 59-86. *)
Fixpoint get_integer_input (dflt min_value max_value : option Z)
    (input : list string) : outcome Z :=
  match input with
  | [] => EOFError
  | line :: rest =>
      let value := Py.strip line in
      match (if blank value then dflt else None) with
      | Some d => Got d rest
      | None =>
          match int value with
          | Some int_value =>
              if below min_value int_value
              then get_integer_input dflt min_value max_value rest
              else if above max_value int_value
              then get_integer_input dflt min_value max_value rest
              else Got int_value rest
          | None => get_integer_input dflt min_value max_value rest
          end
      end
  end.

(** The dictionary [setup_file_config] returns. *)
Record file_answers := FileAnswers {
  base_directory : string;
  download_directory : string;
  temp_directory : string;
  keep_downloaded_files : bool;
  auto_cleanup_days : Z
}.

(** [setup_file_config()], lines 163-207. *)
Definition setup_file_config : I file_answers :=
  base_dir ← get_user_input (Some "./bot_files/") true;
  download_dir ← get_user_input (Some "downloads") true;
  temp_dir ← get_user_input (Some "temp") true;
  keep_files ← get_boolean_input true;
  cleanup_days ← get_integer_input (Some 30) (Some 0) (Some 365);
  ret {| base_directory := base_dir;
         download_directory := download_dir;
         temp_directory := temp_dir;
         keep_downloaded_files := keep_files;
         auto_cleanup_days := cleanup_days |}.

End int.

(** A dictionary with text keys, in the order of insertion. *)
Definition dict := list (string * string).


(** The loop of lines 234-238, with a turn for each line left. *)
Fixpoint choose_method (turns : nat) : I string :=
  match turns with
  | O => λ _, EOFError
  | S turns' =>
      choice ← get_user_input (Some "1") true;
      if bool_decide (choice ∈ ["1"; "2"; "3"]) then ret choice
      else choose_method turns'
  end.


(** [setup_discord_config()], lines 88-161, for the token typed at
    [getpass]. *)
Definition setup_discord_config (typed : string) : I (option dict) :=
  let token := Py.strip typed in
  if blank token then ret None
  else
    channel_id ← get_user_input (Some EmptyString) false;
    allowed_roles ← get_user_input (Some EmptyString) false;
    allowed_users ← get_user_input (Some EmptyString) false;
    command_prefix ← get_user_input (Some "!") true;
    update_cmd ← get_user_input (Some "update") true;
    download_cmd ← get_user_input (Some "download") true;
    start_cmd ← get_user_input (Some "start") true;
    stop_cmd ← get_user_input (Some "stop") true;
    status_cmd ← get_user_input (Some "status") true;
    version_cmd ← get_user_input (Some "version") true;
    backups_cmd ← get_user_input (Some "backups") true;
    rollback_cmd ← get_user_input (Some "rollback") true;
    cleanup_cmd ← get_user_input (Some "cleanup") true;
    config_cmd ← get_user_input (Some "config") true;
    help_cmd ← get_user_input (Some "help") true;
    ret (Some [("discord_token", token);
               ("response_channel", channel_id);
               ("allowed_roles", allowed_roles);
               ("allowed_discord_users", allowed_users);
               ("command_prefix", command_prefix);
               ("update_command", update_cmd);
               ("download_command", download_cmd);
               ("start_command", start_cmd);
               ("stop_command", stop_cmd);
               ("status_command", status_cmd);
               ("version_command", version_cmd);
               ("backups_command", backups_cmd);
               ("rollback_command", rollback_cmd);
               ("cleanup_command", cleanup_cmd);
               ("config_command", config_cmd);
               ("help_command", help_cmd)]).

(** [config[name] = d], as the bot reads it back: [optionxform] puts
    the option names in lower case. *)
Definition section_of (d : dict) : Control.section :=
  (λ kv, (Str.lower kv.1, kv.2)) <$> d.

(** [str(value).lower()] for a boolean. *)
Definition str_bool_lower (b : bool) : string :=
  if b then "true" else "false".

(** The [files] section of [create_config_file], lines 290-295;
    [str] of an integer is its decimal notation. *)
Definition files_dict (a : file_answers) : dict :=
  [("base_directory", base_directory a);
   ("download_directory", download_directory a);
   ("temp_directory", temp_directory a);
   ("keep_downloaded_files", str_bool_lower (keep_downloaded_files a));
   ("auto_cleanup_days", pretty (auto_cleanup_days a))].

(** [create_config_file(discord_config, file_config, dev_config,
    live_config)], lines 280-306: the configuration in [config.ini]. *)
Definition create_config_file (discord_config : dict)
    (file_config : file_answers) (dev_config live_config : dict)
  : Control.config :=
  [("discord", section_of discord_config);
   ("files", section_of (files_dict file_config));
   ("dev", section_of dev_config);
   ("live", section_of live_config)].

End Setup.

(** * Who may use the bot

    The Discord settings of [main.py]: how the bot loads them when it
    is created, the names under which it creates and registers its
    commands, and the two checks at the head of every command. User,
    role and channel ids are integers; [int] is a parameter, as in the
    setup. The file settings, which [__init__] loads in between, are
    apart. Of [discord.py], a command takes the name given or, when
    that is empty, the name of its function, and a bot refuses a
    command whose name it has already. *)

Module Discord.
Import Control.

(** The attributes of the bot that the Discord settings decide. *)
Record bot := Bot {
  response_channel_id : option Z;
  allowed_roles : list Z;
  allowed_users : list Z;
  command_prefix : string;
  command_names : list (string * string)
}.

(** [option in config[s]] *)
Definition has_option (c : config) (s opt : string) : bool :=
  bool_decide (is_Some (get_raw c s opt)).

(** [__init__], lines 29-40. *)
Definition init (c : config) : bot :=
  {| response_channel_id := None;
     allowed_roles := [];
     allowed_users := [];
     command_prefix := get c "discord" "command_prefix" "!";
     command_names := [] |}.

(** The commands, in the order of their creation, lines 425-1255: the
    key of the name and the function. *)
Definition command_table : list (string * string) :=
  [("download", "download_artifact"); ("update", "update_server");
   ("status", "check_status"); ("version", "check_version");
   ("cleanup", "cleanup_files"); ("backups", "manage_backups");
   ("rollback", "rollback_server"); ("config", "show_config");
   ("help", "help_command"); ("stop", "stop_server_cmd");
   ("start", "start_server_cmd")].

(** The functions in the order of their registration, lines 1318-1328. *)
Definition registration : list string :=
  ["download_artifact"; "update_server"; "check_status"; "check_version";
   "cleanup_files"; "manage_backups"; "rollback_server"; "stop_server_cmd";
   "start_server_cmd"; "show_config"; "help_command"].

(** The options of lines 83-93, in their order. *)
Definition command_options : list string :=
  ["update"; "download"; "status"; "version"; "config"; "help"; "cleanup";
   "backups"; "rollback"; "stop"; "start"].

Section int.
Variable int : string → option Z.

(** [[int(x.strip()) for x in pieces]] *)
Fixpoint ints (pieces : list string) : list Z + exn :=
  match pieces with
  | [] => inl []
  | piece :: pieces' =>
      match int (Py.strip piece) with
      | None => inr (ValueError (Py.strip piece))
      | Some n =>
          match ints pieces' with
          | inl l => inl (n :: l)
          | inr e => inr e
          end
      end
  end.

(** An id list of lines 67-76: the option is read when it is there
    and not blank. *)
Definition id_list (c : config) (opt : string) (current : list Z)
  : list Z + exn :=
  if has_option c "discord" opt then
    let text := get c "discord" opt EmptyString in
    if Py.truthy (Some (Py.strip text)) then ints (Str.split "," text)
    else inl current
  else inl current.

(** [setup_discord_config(self)], lines 58-99: the bot after it, and
    the exception that was caught and logged, if any. *)
Definition setup_discord_config (c : config) (b : bot) : bot * option exn :=
  if negb (has_section c "discord") then (b, None)
  else
    let channel :=
      if has_option c "discord" "response_channel" then
        let text := get c "discord" "response_channel" EmptyString in
        match int text with
        | Some n => inl (Some n)
        | None => inr (ValueError text)
        end
      else inl (response_channel_id b) in
    match channel with
    | inr e => (b, Some e)
    | inl channel =>
        let b := {| response_channel_id := channel;
                    allowed_roles := allowed_roles b;
                    allowed_users := allowed_users b;
                    command_prefix := command_prefix b;
                    command_names := command_names b |} in
        match id_list c "allowed_roles" (allowed_roles b) with
        | inr e => (b, Some e)
        | inl roles =>
            let b := {| response_channel_id := response_channel_id b;
                        allowed_roles := roles;
                        allowed_users := allowed_users b;
                        command_prefix := command_prefix b;
                        command_names := command_names b |} in
            match id_list c "allowed_discord_users" (allowed_users b) with
            | inr e => (b, Some e)
            | inl users =>
                ({| response_channel_id := response_channel_id b;
                    allowed_roles := allowed_roles b;
                    allowed_users := users;
                    command_prefix := get c "discord" "command_prefix" "!";
                    command_names :=
                      (λ key, (key, get c "discord" (key +:+ "_command") key))
                      <$> command_options |},
                 None)
            end
        end
    end.

End int.

(** [commands.command(name=name)] on a function: an empty name falls
    back on the name of the function. *)
Definition command_name (name func : string) : string :=
  if bool_decide (name = EmptyString) then func else name.

(** The commands created, lines 425-1255: each function with the name
    of its command, [self.command_names[key]] being looked up in turn. *)
Fixpoint create_commands (names : list (string * string))
    (table : list (string * string)) : list (string * string) + exn :=
  match table with
  | [] => inl []
  | (key, func) :: table' =>
      match lookup_key key names with
      | None => inr (KeyError key)
      | Some name =>
          match create_commands names table' with
          | inl l => inl ((func, command_name name func) :: l)
          | inr e => inr e
          end
      end
  end.

(** [self.add_command] for the commands in turn, lines 1318-1328:
    [all_commands] are the names registered so far. *)
Fixpoint add_commands (names all_commands : list string)
  : list string + exn :=
  match names with
  | [] => inl all_commands
  | name :: names' =>
      if bool_decide (name ∈ all_commands)
      then inr (CommandRegistrationError name)
      else add_commands names' (all_commands ++ [name])
  end.

(** [setup_commands(self)], lines 421-1328: the names of the commands
    of the bot, in the order of their registration. *)
Definition setup_commands (b : bot) : list string + exn :=
  match create_commands (command_names b) command_table with
  | inr e => inr e
  | inl created =>
      add_commands (omap (λ func, lookup_key func created) registration) []
  end.

(** The names that the configuration gives the commands, in the order
    of their registration. *)
Definition configured_names (c : config) : list string :=
  omap (λ func,
          lookup_key func
            ((λ '(key, func),
                (func, command_name
                         (get c "discord" (key +:+ "_command") key) func))
             <$> command_table))
    registration.

(** [check_permissions(self, ctx)], lines 1343-1360, for the id of the
    author and the ids of the author's roles. *)
Definition check_permissions (b : bot) (author : Z) (roles : list Z) : bool :=
  if bool_decide (allowed_roles b = []) && bool_decide (allowed_users b = [])
  then true
  else if negb (bool_decide (allowed_users b = []))
          && bool_decide (author ∈ allowed_users b)
  then true
  else if negb (bool_decide (allowed_roles b = []))
          && existsb (λ role_id, bool_decide (role_id ∈ roles))
               (allowed_roles b)
  then true
  else false.

(** [check_channel(self, ctx)], lines 1362-1368, for the id of the
    channel. *)
Definition check_channel (b : bot) (channel : Z) : bool :=
  match response_channel_id b with
  | None => true
  | Some id => if bool_decide (id = 0) then true else bool_decide (channel = id)
  end.

End Discord.

(** Answers typed to the setup, and decimal notation for [int]. *)
Module SetupScenario.

Fixpoint digits (acc : Z) (s : string) : option Z :=
  match s with
  | EmptyString => Some acc
  | String c s' =>
      if Re.is_digit c
      then digits (10 * acc + (Z.of_nat (nat_of_ascii c) - 48)) s'
      else None
  end.
Definition decimal (s : string) : option Z :=
  match s with
  | EmptyString => None
  | _ => digits 0 s
  end.

Definition file_lines : list string :=
  [EmptyString; "cache"; " tmp "; "N"; "a month"; "500"; "14"].


Definition dev_dict : Setup.dict :=
  [("ServerFiles", Str.quoted "G:/GTAV/dev/server");
   ("TCADMIN_Enabled", "False");
   ("Service_Enabled", "True");
   ("Service_Name", Str.quoted "FXServer")].

(** The Discord answers: every question left at its default. *)
Definition discord_lines : list string := replicate 15 EmptyString.

Definition discord_dict : Setup.dict :=
  [("discord_token", "token");
   ("response_channel", EmptyString);
   ("allowed_roles", EmptyString);
   ("allowed_discord_users", EmptyString);
   ("command_prefix", "!");
   ("update_command", "update");
   ("download_command", "download");
   ("start_command", "start");
   ("stop_command", "stop");
   ("status_command", "status");
   ("version_command", "version");
   ("backups_command", "backups");
   ("rollback_command", "rollback");
   ("cleanup_command", "cleanup");
   ("config_command", "config");
   ("help_command", "help")].

Definition files : Setup.file_answers :=
  Setup.FileAnswers "./bot_files/" "cache" "tmp" false 14.

(** The configuration after these answers. *)
Definition ini : Control.config :=
  Setup.create_config_file discord_dict files dev_dict dev_dict.

(** A configuration that names a channel, two roles and a user. *)
Definition restricted : Control.config :=
  [("discord",
    [("discord_token", "token");
     ("response_channel", "42");
     ("allowed_roles", "11, 22");
     ("allowed_discord_users", "7")])].

End SetupScenario.

(** * Properties *)

Local Close Scope prog_scope.

(** ** File trees *)

Section tree_facts.
Import Tree.

Lemma assoc_set_entry_eq x n es : assoc x (set_entry x n es) = Some n.
Proof.
  induction es as [|[y m] es IH]; simpl.
  - by rewrite decide_True.
  - destruct (decide (x = y)) as [->|Hne]; simpl.
    + by rewrite decide_True.
    + by rewrite decide_False.
Qed.

Lemma assoc_set_entry_ne x y n es :
  x ≠ y → assoc y (set_entry x n es) = assoc y es.
Proof.
  intros Hxy. induction es as [|[z m] es IH]; simpl.
  - by rewrite decide_False.
  - destruct (decide (x = z)) as [->|Hne]; simpl.
    + by rewrite !(decide_False (P := y = z)).
    + by rewrite IH.
Qed.

Lemma assoc_del_entry_eq x es : assoc x (del_entry x es) = None.
Proof.
  unfold del_entry. induction es as [|[y m] es IH]; [done|].
  rewrite filter_cons. simpl. destruct (decide (y ≠ x)); simpl; [|done].
  by rewrite decide_False.
Qed.

Lemma assoc_del_entry_ne x y es :
  x ≠ y → assoc y (del_entry x es) = assoc y es.
Proof.
  intros Hxy. unfold del_entry. induction es as [|[z m] es IH]; [done|].
  rewrite filter_cons. simpl. destruct (decide (z ≠ x)) as [|Heq]; simpl.
  - by rewrite IH.
  - apply dec_stable in Heq as ->. by rewrite decide_False.
Qed.

Lemma assoc_Some_elem x n es : assoc x es = Some n → (x, n) ∈ es.
Proof.
  induction es as [|[y m] es IH]; simpl; [done|].
  destruct (decide (x = y)) as [->|]; intros; simplify_eq.
  - left.
  - right. auto.
Qed.

Lemma assoc_is_Some x es : is_Some (assoc x es) ↔ x ∈ es.*1.
Proof.
  induction es as [|[y m] es IH]; simpl.
  - split; [by intros [? ?]|by intros ?%elem_of_nil].
  - destruct (decide (x = y)) as [->|Hne].
    + split; [left|eauto].
    + rewrite IH. split; [by right|]. by intros [?|?]%elem_of_cons.
Qed.

Lemma set_entry_same x n es :
  NoDup es.*1 → (x, n) ∈ es → set_entry x n es = es.
Proof.
  induction es as [|[y m] es IH]; simpl; [by intros _ ?%elem_of_nil|].
  intros [Hy Hnd]%NoDup_cons [Heq|Hin]%elem_of_cons.
  - simplify_eq. by rewrite decide_True.
  - destruct (decide (x = y)) as [->|].
    + exfalso. apply Hy. by apply (list_elem_of_fmap_2 fst _ (y, n)).
    + f_equal. auto.
Qed.

Lemma lookup_app p q t : lookup (p ++ q) t = lookup p t ≫= lookup q.
Proof.
  revert t. induction p as [|x p IH]; intros t; simpl; [done|].
  destruct t as [|st es]; [done|].
  destruct (assoc x es); simpl; [apply IH|done].
Qed.

Lemma lookup_snoc_Some p x t n :
  lookup (p ++ [x]) t = Some n →
  ∃ st es, lookup p t = Some (Dir st es) ∧ assoc x es = Some n.
Proof.
  rewrite lookup_app. destruct (lookup p t) as [[|st es]|]; simpl; try done.
  destruct (assoc x es) eqn:?; simpl; [|done]. intros. simplify_eq. eauto.
Qed.

(** An existing path has existing ancestors. *)
Lemma lookup_prefix_is_Some p q t :
  p `prefix_of` q → is_Some (lookup q t) → is_Some (lookup p t).
Proof.
  intros [k ->]. rewrite lookup_app.
  destruct (lookup p t); [eauto|]. by intros [? ?].
Qed.

Lemma modify_single x f st es :
  modify [x] f (Dir st es)
  = Some (Dir st match f (assoc x es) with
                 | Some c => set_entry x c es
                 | None => del_entry x es
                 end).
Proof. done. Qed.

Lemma modify_cons_cons x y p f st es :
  modify (x :: y :: p) f (Dir st es)
  = (c ← assoc x es; c' ← modify (y :: p) f c;
     Some (Dir st (set_entry x c' es))).
Proof. done. Qed.

Lemma modify_cons_File x p f st ro data :
  modify (x :: p) f (File st ro data) = None.
Proof. done. Qed.

Lemma lookup_cons x p st es :
  lookup (x :: p) (Dir st es) = assoc x es ≫= lookup p.
Proof. done. Qed.

(** A successful [modify] below a directory leaves a directory whose
    entry on the way is the modified child. *)
Lemma modify_cons_inv x y p f t t' :
  modify (x :: y :: p) f t = Some t' →
  ∃ st es c c', t = Dir st es ∧ assoc x es = Some c
                ∧ modify (y :: p) f c = Some c'
                ∧ t' = Dir st (set_entry x c' es).
Proof.
  destruct t as [|st es]; [done|]. rewrite modify_cons_cons.
  destruct (assoc x es) as [c|] eqn:Hc; [|done]. cbn [mbind option_bind].
  destruct (modify (y :: p) f c) as [c'|] eqn:Hc'; cbn [mbind option_bind];
    [|done].
  intros [= <-]. by exists st, es, c, c'.
Qed.

Lemma lookup_modify_eq p f t t' :
  modify p f t = Some t' → lookup p t' = f (lookup p t).
Proof.
  revert t t'. induction p as [|x [|y p] IH]; intros t t' Hm.
  - simpl in *. by rewrite Hm.
  - destruct t as [|st es]; [done|]. rewrite modify_single in Hm.
    simplify_eq. rewrite !lookup_cons.
    destruct (assoc x es) as [c0|] eqn:Hc; simpl;
      (destruct (f _) as [c|] eqn:Hf;
       [rewrite assoc_set_entry_eq|rewrite assoc_del_entry_eq]; done).
  - apply modify_cons_inv in Hm as (st & es & c & c' & -> & Hc & Hc' & ->).
    rewrite !lookup_cons, assoc_set_entry_eq, Hc.
    apply (IH _ _ Hc').
Qed.

Lemma lookup_modify_below p q f t t' :
  modify p f t = Some t' → lookup (p ++ q) t' = f (lookup p t) ≫= lookup q.
Proof. intros Hm. by rewrite lookup_app, (lookup_modify_eq _ _ _ _ Hm). Qed.

Lemma lookup_modify_disjoint p q f t t' :
  disjoint p q → modify p f t = Some t' → lookup q t' = lookup q t.
Proof.
  revert q t t'. induction p as [|x [|y p] IH]; intros q t t' [Hpq Hqp] Hm.
  - destruct Hpq. apply prefix_nil.
  - destruct q as [|z q]; [destruct Hqp; apply prefix_nil|].
    destruct t as [|st es]; [done|]. rewrite modify_single in Hm.
    simplify_eq. rewrite !lookup_cons. assert (x ≠ z) as Hxz.
    { intros ->. apply Hpq. apply prefix_cons, prefix_nil. }
    destruct (f (assoc x es)).
    + by rewrite assoc_set_entry_ne.
    + by rewrite assoc_del_entry_ne.
  - destruct q as [|z q]; [destruct Hqp; apply prefix_nil|].
    apply modify_cons_inv in Hm as (st & es & c & c' & -> & Hc & Hc' & ->).
    rewrite !lookup_cons. destruct (decide (x = z)) as [->|Hxz].
    + rewrite assoc_set_entry_eq, Hc. simpl. apply (IH _ _ _ ); [|done].
      split; intros ?; [apply Hpq|apply Hqp]; by apply prefix_cons.
    + by rewrite assoc_set_entry_ne.
Qed.

(** [modify] does not turn an ancestor into something else than a
    directory, and keeps its [stat]. *)
Lemma lookup_modify_above p q f t t' st es :
  q `prefix_of` p → q ≠ p → modify p f t = Some t' →
  lookup q t = Some (Dir st es) → ∃ es', lookup q t' = Some (Dir st es').
Proof.
  revert q t t' st es.
  induction p as [|x [|y p] IH]; intros q t t' st es Hqp Hne Hm Hq.
  - apply prefix_nil_inv in Hqp. done.
  - destruct q as [|z q].
    + simpl in Hq. simplify_eq. rewrite modify_single in Hm.
      simplify_eq. simpl. eauto.
    + pose proof (prefix_cons_inv_1 _ _ _ _ Hqp) as ->.
      apply prefix_cons_inv_2, prefix_nil_inv in Hqp as ->. done.
  - apply modify_cons_inv in Hm as (st0 & es0 & c & c' & -> & Hc & Hc' & ->).
    destruct q as [|z q].
    + simpl in Hq. simplify_eq. simpl. eauto.
    + pose proof (prefix_cons_inv_1 _ _ _ _ Hqp) as ->.
      apply prefix_cons_inv_2 in Hqp.
      rewrite lookup_cons, Hc in Hq. simpl in Hq.
      rewrite lookup_cons, assoc_set_entry_eq. simpl.
      eapply IH; eauto. congruence.
Qed.

Lemma mkdirs_frame now p q t t' :
  mkdirs now p t = Some t' → ¬ q `prefix_of` p → lookup q t' = lookup q t.
Proof.
  revert q t t'. induction p as [|x p IH]; intros q t t' Hm Hq.
  - destruct t; simpl in Hm; by simplify_eq.
  - destruct t as [|st es]; [done|]. simpl in Hm.
    destruct (mkdirs now p _) as [c'|] eqn:Hc'; simpl in Hm; [|done].
    simplify_eq. destruct q as [|z q]; [destruct Hq; apply prefix_nil|].
    simpl. destruct (decide (x = z)) as [->|Hxz].
    + rewrite assoc_set_entry_eq. simpl.
      rewrite (IH q _ _ Hc'); [|by intros ?; apply Hq, prefix_cons].
      destruct (assoc z es); simpl; [done|]. destruct q; [|done].
      destruct Hq. apply prefix_cons, prefix_nil.
    + by rewrite assoc_set_entry_ne.
Qed.

Lemma mkdirs_is_dir now p t t' :
  mkdirs now p t = Some t' → is_dir p t' = true.
Proof.
  unfold is_dir. revert t t'. induction p as [|x p IH]; intros t t' Hm.
  - destruct t; simpl in *; by simplify_eq.
  - destruct t as [|st es]; [done|]. simpl in Hm.
    destruct (mkdirs now p _) as [c'|] eqn:Hc'; simpl in Hm; [|done].
    simplify_eq. simpl. rewrite assoc_set_entry_eq. simpl. by eapply IH.
Qed.

End tree_facts.

(** ** Programs: what a run keeps *)

Global Instance only_root_po : PreOrder only_root.
Proof.
  split.
  - intros [t n l r q]. by exists t.
  - intros w1 w2 w3 [t1 ->] [t2 ->]. by exists t2.
Qed.
Global Instance same_tree_po : PreOrder same_tree.
Proof. split; [done|]. unfold same_tree. intros ???; congruence. Qed.
Global Instance net_quiet_po : PreOrder net_quiet.
Proof. split; [done|]. unfold net_quiet. intros ???; congruence. Qed.
Global Instance same_at_po q : PreOrder (same_at q).
Proof. split; [done|]. unfold same_at. intros ???; congruence. Qed.
Global Instance logs_po P : PreOrder (logs P).
Proof.
  split.
  - intros w. exists []. by rewrite app_nil_r.
  - intros w1 w2 w3 (l1 & E1 & F1) (l2 & E2 & F2). exists (l1 ++ l2).
    rewrite E2, E1, app_assoc. split; [done|]. by apply Forall_app.
Qed.
Global Instance only_log_po : PreOrder only_log.
Proof.
  split.
  - intros [t n l r q]. by exists l.
  - intros w1 w2 w3 [l1 ->] [l2 ->]. by exists l2.
Qed.

Section keeps_rules.
Context (R : relation world) `{!PreOrder R}.

Lemma keeps_ret {A} (a : A) : keeps R (ret a).
Proof. intros w. simpl. reflexivity. Qed.

Lemma keeps_raise {A} e : keeps R (raise (A := A) e).
Proof. intros w. simpl. reflexivity. Qed.

Lemma keeps_bind {A B} (m : M A) (k : A → M B) :
  keeps R m → (∀ a, keeps R (k a)) → keeps R (bind m k).
Proof.
  intros Hm Hk w. unfold bind. specialize (Hm w).
  destruct (m w) as [a w1|e w1]; simpl in *; [|done].
  etrans; [done|]. apply Hk.
Qed.

Lemma keeps_try_except {A} (m : M A) h :
  keeps R m → (∀ e, keeps R (h e)) → keeps R (try_except m h).
Proof.
  intros Hm Hh w. unfold try_except. specialize (Hm w).
  destruct (m w) as [a w1|e w1]; simpl in *; [done|].
  etrans; [done|]. apply Hh.
Qed.

Lemma keeps_for_each {A S} (l : list A) (body : A → S → M S) acc :
  (∀ x s, keeps R (body x s)) → keeps R (for_each l body acc).
Proof.
  intros Hb. revert acc. induction l as [|x l IH]; intros acc; simpl.
  - apply keeps_ret.
  - apply keeps_bind; auto.
Qed.

Lemma keeps_when b m : keeps R m → keeps R (when_ b m).
Proof. destruct b; simpl; [done|]. intros _. apply keeps_ret. Qed.

(** A run that keeps the world as it is keeps any reflexive relation. *)
Lemma keeps_eq {A} (m : M A) : keeps (=) m → keeps R m.
Proof. intros Hm w. rewrite <-(Hm w). reflexivity. Qed.

End keeps_rules.

Lemma keeps_weaken {A} (R R' : relation world) (m : M A) :
  (∀ w w', R w w' → R' w w') → keeps R m → keeps R' m.
Proof. intros HR Hm w. apply HR, Hm. Qed.

Lemma only_root_logs P w w' : only_root w w' → logs P w w'.
Proof. intros [t ->]. exists []. by rewrite app_nil_r. Qed.
Lemma only_root_net_quiet w w' : only_root w w' → net_quiet w w'.
Proof. by intros [t ->]. Qed.
Lemma only_log_same_tree w w' : only_log w w' → same_tree w w'.
Proof. by intros [t ->]. Qed.
Lemma only_log_net_quiet w w' : only_log w w' → net_quiet w w'.
Proof. by intros [t ->]. Qed.
Lemma only_log_same_at q w w' : only_log w w' → same_at q w w'.
Proof. by intros [t ->]. Qed.
Lemma same_tree_same_at q w w' : same_tree w w' → same_at q w w'.
Proof. unfold same_tree, same_at. by intros ->. Qed.

(** *** Inversion of runs *)

Lemma bind_Ok {A B} (m : M A) (k : A → M B) w b w' :
  bind m k w = Ok b w' ↔ ∃ a w1, m w = Ok a w1 ∧ k a w1 = Ok b w'.
Proof.
  unfold bind. destruct (m w) as [a w1|e w1]; split.
  - intros ?. by exists a, w1.
  - by intros (? & ? & [= <- <-] & ?).
  - done.
  - by intros (? & ? & ? & ?).
Qed.

Lemma bind_Raise {A B} (m : M A) (k : A → M B) w e w' :
  bind m k w = Raise e w' ↔
  m w = Raise e w' ∨ ∃ a w1, m w = Ok a w1 ∧ k a w1 = Raise e w'.
Proof.
  unfold bind. destruct (m w) as [a w1|e1 w1]; split.
  - intros ?. right. by exists a, w1.
  - by intros [?|(? & ? & [= <- <-] & ?)].
  - intros [= -> ->]. by left.
  - by intros [[= -> ->]|(? & ? & ? & ?)].
Qed.

Lemma try_except_Ok {A} (m : M A) h w a w' :
  try_except m h w = Ok a w' ↔
  m w = Ok a w' ∨ ∃ e w1, m w = Raise e w1 ∧ h e w1 = Ok a w'.
Proof.
  unfold try_except. destruct (m w) as [a1 w1|e1 w1]; split.
  - intros ?. by left.
  - by intros [?|(? & ? & ? & ?)].
  - intros ?. right. by exists e1, w1.
  - by intros [?|(? & ? & [= <- <-] & ?)].
Qed.

Lemma try_except_Raise {A} (m : M A) h w e w' :
  try_except m h w = Raise e w' ↔
  ∃ e1 w1, m w = Raise e1 w1 ∧ h e1 w1 = Raise e w'.
Proof.
  unfold try_except. destruct (m w) as [a1 w1|e1 w1]; split.
  - done.
  - by intros (? & ? & ? & ?).
  - intros ?. by exists e1, w1.
  - by intros (? & ? & [= <- <-] & ?).
Qed.

Lemma bind_eval_Ok {A B} (m : M A) (k : A → M B) w a w1 :
  m w = Ok a w1 → bind m k w = k a w1.
Proof. unfold bind. by intros ->. Qed.

Lemma bind_eval_Raise {A B} (m : M A) (k : A → M B) w e w1 :
  m w = Raise e w1 → bind m k w = Raise e w1.
Proof. unfold bind. by intros ->. Qed.

(** *** The library calls *)

Section os_facts.
Import Os.

Lemma keeps_read {A} (f : node → A) : keeps (=) (read f).
Proof. done. Qed.
Lemma keeps_exists p : keeps (=) (exists_ p).
Proof. done. Qed.
Lemma keeps_is_dir p : keeps (=) (is_dir p).
Proof. done. Qed.
Lemma keeps_is_file p : keeps (=) (is_file p).
Proof. done. Qed.
Lemma keeps_walk_counts p : keeps (=) (walk_counts p).
Proof. done. Qed.
Lemma keeps_clock : keeps (=) clock.
Proof. done. Qed.
Lemma keeps_iterdir p : keeps (=) (iterdir p).
Proof. intros w. unfold iterdir. by repeat case_match. Qed.
Lemma keeps_glob p pre suf : keeps (=) (glob p pre suf).
Proof. intros w. unfold glob. by repeat case_match. Qed.
Lemma keeps_stat p : keeps (=) (stat_ p).
Proof. intros w. unfold stat_. by repeat case_match. Qed.
Lemma keeps_read_file p : keeps (=) (read_file p).
Proof. intros w. unfold read_file. by repeat case_match. Qed.

Local Ltac only_root_tac :=
  intros w; repeat (case_match; simpl; try reflexivity);
  eexists; reflexivity.

Lemma only_root_mkdir_parents p : keeps only_root (mkdir_parents p).
Proof. unfold mkdir_parents. only_root_tac. Qed.
Lemma only_root_open_w p : keeps only_root (open_w p).
Proof. unfold open_w. only_root_tac. Qed.
Lemma only_root_write p data : keeps only_root (write p data).
Proof. unfold write. only_root_tac. Qed.
Lemma only_root_unlink p : keeps only_root (unlink p).
Proof. unfold unlink. only_root_tac. Qed.
Lemma only_root_rmtree p : keeps only_root (rmtree p).
Proof. unfold rmtree. only_root_tac. Qed.
Lemma only_root_move src dst : keeps only_root (move src dst).
Proof. unfold move. only_root_tac. Qed.
Lemma only_root_copy2 src dst : keeps only_root (copy2 src dst).
Proof. unfold copy2. only_root_tac. Qed.
Lemma only_root_copytree src dst ok : keeps only_root (copytree src dst ok).
Proof. unfold copytree. only_root_tac. Qed.

End os_facts.

Lemma keeps_logger_only_log m : keeps only_log (logger m).
Proof. intros w. by eexists. Qed.

Lemma keeps_logger_logs (P : log_msg → Prop) m : P m → keeps (logs P) (logger m).
Proof. intros Hm w. exists [m]. split; [done|]. by constructor. Qed.

Lemma keeps_http_get_only_root_free url : keeps same_tree (Os.http_get url).
Proof. intros w. unfold Os.http_get. by repeat case_match. Qed.

(** Structural steps of a proof that a program keeps a relation. *)
Ltac keeps_step :=
  lazymatch goal with
  | |- keeps _ (bind _ _) => apply keeps_bind; [tc_solve| |intros ?]
  | |- keeps _ (ret _) => apply keeps_ret; tc_solve
  | |- keeps _ (raise _) => apply keeps_raise; tc_solve
  | |- keeps _ (try_except _ _) => apply keeps_try_except; [tc_solve| |intros ?]
  | |- keeps _ (for_each _ _ _) => apply keeps_for_each; [tc_solve|intros ? ?]
  | |- keeps _ (when_ _ _) => apply keeps_when; [tc_solve|]
  | |- keeps _ (match ?x with _ => _ end) => destruct x
  end.

Create HintDb keeps discriminated.

Ltac keeps_base :=
  first
    [ apply keeps_eq; [tc_solve|];
      first [ apply keeps_read | apply keeps_exists | apply keeps_is_dir
            | apply keeps_is_file | apply keeps_walk_counts | apply keeps_clock
            | apply keeps_iterdir | apply keeps_glob | apply keeps_stat
            | apply keeps_read_file ]
    | solve [eauto with keeps] ].

Ltac keeps_tac := repeat first [keeps_step | keeps_base].

(** The file operations under the relations that ignore the file tree. *)
Local Ltac by_only_root lem :=
  eapply keeps_weaken; [apply lem|];
  first [ apply only_root_mkdir_parents | apply only_root_open_w
        | apply only_root_write | apply only_root_unlink
        | apply only_root_rmtree | apply only_root_move
        | apply only_root_copy2 | apply only_root_copytree ].

Lemma keeps_logs_os {A} P (m : M A) : keeps only_root m → keeps (logs P) m.
Proof. apply keeps_weaken, only_root_logs. Qed.
Lemma keeps_net_quiet_os {A} (m : M A) : keeps only_root m → keeps net_quiet m.
Proof. apply keeps_weaken, only_root_net_quiet. Qed.
Lemma keeps_same_tree_log {A} (m : M A) : keeps only_log m → keeps same_tree m.
Proof. apply keeps_weaken, only_log_same_tree. Qed.
Lemma keeps_net_quiet_log {A} (m : M A) : keeps only_log m → keeps net_quiet m.
Proof. apply keeps_weaken, only_log_net_quiet. Qed.
Lemma keeps_same_at_log {A} q (m : M A) : keeps only_log m → keeps (same_at q) m.
Proof. apply keeps_weaken, only_log_same_at. Qed.
Lemma keeps_same_at_tree {A} q (m : M A) : keeps same_tree m → keeps (same_at q) m.
Proof. apply keeps_weaken, same_tree_same_at. Qed.

Global Hint Resolve keeps_logger_only_log keeps_logger_logs : keeps.
Global Hint Resolve only_root_mkdir_parents only_root_open_w only_root_write
  only_root_unlink only_root_rmtree only_root_move only_root_copy2
  only_root_copytree : keeps.
Global Hint Extern 5 (keeps (logs _) (Os.mkdir_parents _)) => apply keeps_logs_os : keeps.
Global Hint Extern 5 (keeps (logs _) (Os.open_w _)) => apply keeps_logs_os : keeps.
Global Hint Extern 5 (keeps (logs _) (Os.write _ _)) => apply keeps_logs_os : keeps.
Global Hint Extern 5 (keeps (logs _) (Os.unlink _)) => apply keeps_logs_os : keeps.
Global Hint Extern 5 (keeps (logs _) (Os.rmtree _)) => apply keeps_logs_os : keeps.
Global Hint Extern 5 (keeps (logs _) (Os.move _ _)) => apply keeps_logs_os : keeps.
Global Hint Extern 5 (keeps (logs _) (Os.copy2 _ _)) => apply keeps_logs_os : keeps.
Global Hint Extern 5 (keeps (logs _) (Os.copytree _ _ _)) => apply keeps_logs_os : keeps.
Global Hint Extern 5 (keeps net_quiet (Os.mkdir_parents _)) => apply keeps_net_quiet_os : keeps.
Global Hint Extern 5 (keeps net_quiet (Os.open_w _)) => apply keeps_net_quiet_os : keeps.
Global Hint Extern 5 (keeps net_quiet (Os.write _ _)) => apply keeps_net_quiet_os : keeps.
Global Hint Extern 5 (keeps net_quiet (Os.unlink _)) => apply keeps_net_quiet_os : keeps.
Global Hint Extern 5 (keeps net_quiet (Os.rmtree _)) => apply keeps_net_quiet_os : keeps.
Global Hint Extern 5 (keeps net_quiet (Os.move _ _)) => apply keeps_net_quiet_os : keeps.
Global Hint Extern 5 (keeps net_quiet (Os.copy2 _ _)) => apply keeps_net_quiet_os : keeps.
Global Hint Extern 5 (keeps net_quiet (Os.copytree _ _ _)) => apply keeps_net_quiet_os : keeps.
Global Hint Extern 5 (keeps same_tree (logger _)) => apply keeps_same_tree_log : keeps.
Global Hint Extern 5 (keeps net_quiet (logger _)) => apply keeps_net_quiet_log : keeps.
Global Hint Extern 5 (keeps (same_at _) (logger _)) => apply keeps_same_at_log : keeps.

(** ** Backup names *)

Lemma get_current_version_only_log target : keeps only_log (get_current_version target).
Proof. unfold get_current_version. keeps_tac. Qed.

Lemma get_current_version_run target w :
  ∃ w', get_current_version target w = Ok (version_marker target (root w)) w'
        ∧ only_log w w'.
Proof.
  unfold get_current_version, version_marker, try_except, bind, Os.exists_,
    Os.read, Os.read_file, Tree.exists_, logger, ret.
  destruct (Tree.lookup (target ++ ["version.txt"]) (root w))
    as [[st ro data|st es]|] eqn:Hl.
  - rewrite bool_decide_true by eauto. rewrite Hl.
    destruct (Py.truthy _); (eexists; split; [done|]);
      [by eexists|reflexivity].
  - rewrite bool_decide_true by eauto. rewrite Hl.
    eexists; split; [done|]. by eexists.
  - rewrite bool_decide_false by (by intros [? ?]).
    eexists; split; [done|]. reflexivity.
Qed.

Lemma first_free_spec taken cand rounds start :
  let k := first_free taken cand rounds start in
  (start ≤ k ≤ start + rounds)%nat
  ∧ (∀ j, (start ≤ j < k)%nat → taken (cand j) = true)
  ∧ ((k < start + rounds)%nat → taken (cand k) = false).
Proof.
  revert start. induction rounds as [|rounds IH]; intros start; simpl.
  - split; [lia|]. split; intros; lia.
  - destruct (taken (cand start)) eqn:Ht.
    + destruct (IH (S start)) as (H1 & H2 & H3). split; [lia|]. split.
      * intros j Hj. destruct (decide (j = start)) as [->|]; [done|].
        apply H2. lia.
      * intros ?. apply H3. lia.
    + split; [lia|]. split; [intros; lia|done].
Qed.

(** With one round more than there are names, the loop ends on a
    candidate that is not taken. *)
Lemma first_free_free taken cand (names : list string) start :
  Inj (=) (=) cand → (∀ x, taken x = true → x ∈ names) →
  taken (cand (first_free taken cand (S (length names)) start)) = false.
Proof.
  intros Hinj Hnames.
  destruct (first_free_spec taken cand (S (length names)) start) as (H1 & H2 & H3).
  set (k := first_free _ _ _ _) in *.
  destruct (decide (k < start + S (length names))%nat) as [|Hk]; [auto|].
  exfalso.
  assert (cand <$> seq start (S (length names)) ⊆+ names) as Hsub.
  { apply NoDup_submseteq.
    - apply NoDup_fmap_2; [done|]. apply NoDup_seq.
    - intros x (j & -> & Hj)%list_elem_of_fmap. apply Hnames, H2.
      apply elem_of_seq in Hj. lia. }
  apply submseteq_length in Hsub. rewrite length_fmap, length_seq in Hsub. lia.
Qed.

Lemma taken_in_entries dir x t :
  Tree.exists_ (dir ++ [x]) t = true →
  ∃ names, entry_count dir t = length names ∧ x ∈ names.
Proof.
  unfold Tree.exists_, entry_count. intros [n Hn]%bool_decide_eq_true.
  apply lookup_snoc_Some in Hn as (st & es & -> & Hx).
  exists es.*1. rewrite length_fmap. split; [done|].
  apply assoc_is_Some. eauto.
Qed.

Lemma first_free_backup dir t cand start :
  Inj (=) (=) cand →
  Tree.exists_
    (dir ++ [cand (first_free (λ x, Tree.exists_ (dir ++ [x]) t) cand
                     (S (entry_count dir t)) start)]) t = false.
Proof.
  intros Hinj. unfold entry_count.
  destruct (Tree.lookup dir t) as [[|st es]|] eqn:Hd.
  - apply bool_decide_eq_false. intros [n (? & ? & ? & ?)%lookup_snoc_Some].
    congruence.
  - rewrite <-(length_fmap fst es).
    apply (first_free_free (λ x, Tree.exists_ (dir ++ [x]) t)); [done|].
    intros x [n (? & ? & ? & Hx)%lookup_snoc_Some]%bool_decide_eq_true.
    simplify_eq. apply assoc_is_Some. eauto.
  - apply bool_decide_eq_false. intros [n (? & ? & ? & ?)%lookup_snoc_Some].
    congruence.
Qed.

Lemma parent_snoc (p : path) x : parent (p ++ [x]) = p.
Proof. apply removelast_last. Qed.
Lemma name_snoc (p : path) x : name (p ++ [x]) = x.
Proof. apply last_last. Qed.

Lemma numbered_inj (base : string) :
  Inj (=) (=) (λ counter : nat, base +:+ pretty counter).
Proof.
  intros j k H. apply (String.app_inj base) in H. by apply (inj pretty) in H.
Qed.

Lemma suffixed_inj (base sep : string) :
  Inj (=) (=) (λ counter : nat, base +:+ sep +:+ pretty counter).
Proof.
  intros j k H. apply (String.app_inj base) in H.
  by apply (numbered_inj sep) in H.
Qed.

Lemma create_backup_name_run target artifact w :
  ∃ p w',
    create_backup_name target artifact w = Ok p w'
    ∧ only_log w w'
    ∧ p = parent target ++ [name p]
    ∧ Tree.exists_ p (root w) = false
    ∧ backup_named target artifact (root w) (name p).
Proof.
  unfold backup_named, create_backup_name.
  destruct (get_current_version_run target w) as (w1 & Hv & Hlog).
  unfold bind at 1. rewrite Hv. unfold bind, Os.read, ret. simpl.
  assert (root w1 = root w) as -> by (by destruct Hlog as [l ->]).
  set (taken := λ x, Tree.exists_ (parent target ++ [x]) (root w)).
  set (rounds := S (entry_count (parent target) (root w))).
  assert (∀ base,
    let p := if taken base
             then parent target ++
                    [base +:+ "_" +:+
                       pretty (first_free taken
                                 (λ counter : nat, base +:+ "_" +:+ pretty counter)
                                 rounds 1)]
             else parent target ++ [base] in
    p = parent target ++ [name p] ∧ Tree.exists_ p (root w) = false
    ∧ first_unique taken base (name p)) as Hunique.
  { intros base. simpl. destruct (taken base) eqn:Hb.
    - rewrite name_snoc. split; [done|].
      pose proof (first_free_backup (parent target) (root w)
                    (λ counter : nat, base +:+ "_" +:+ pretty counter) 1
                    (suffixed_inj _ _)) as Hfree.
      split; [done|]. right. split; [done|].
      destruct (first_free_spec taken
                  (λ counter : nat, base +:+ "_" +:+ pretty counter) rounds 1)
        as (H1 & H2 & _).
      eexists. split; [apply H1|]. split; [done|]. split; [done|]. apply H2.
    - rewrite name_snoc. split; [done|]. split; [done|]. by left. }
  unfold backup_label.
  destruct (Py.truthy (version_marker target (root w))) eqn:Hm.
  { destruct (version_marker target (root w)) as [v|]; [|done]. simpl.
    destruct (Hunique (name target +:+ "_backup_" +:+ v)) as (? & ? & ?).
    eexists _, w1. repeat split; done. }
  destruct (Py.truthy artifact) eqn:Ha.
  { destruct artifact as [v|]; [|done]. simpl.
    destruct (Hunique (name target +:+ "_backup_" +:+ v)) as (? & ? & ?).
    eexists _, w1. repeat split; done. }
  eexists _, w1. split; [done|]. split; [done|]. rewrite name_snoc.
  split; [done|].
  pose proof (first_free_backup (parent target) (root w)
                (λ counter : nat, (name target +:+ "_bak") +:+ pretty counter) 1
                (numbered_inj _)) as Hfree.
  split; [done|].
  destruct (first_free_spec taken
              (λ counter : nat, (name target +:+ "_bak") +:+ pretty counter) rounds 1)
    as (H1 & H2 & _).
  eexists. split; [apply H1|]. split; [done|]. split; [done|apply H2].
Qed.

(** C6. [create_backup_name] always returns, reads the tree without
    changing it, and its result is a sibling of the target that does not
    exist yet. The name is [<dir_name>_backup_<version>], made unique by
    the suffix [_k] for the least [k] from 1 on, where the version is the
    marker of the target if it has one, else the artifact number given;
    without either it is [<dir_name>_bakN] for the least free [N]. *)
Theorem create_backup_name_unique_sibling target artifact w :
  ∃ p w',
    create_backup_name target artifact w = Ok p w'
    ∧ only_log w w'
    ∧ p = parent target ++ [name p]
    ∧ Tree.exists_ p (root w) = false
    ∧ let taken := λ x, Tree.exists_ (parent target ++ [x]) (root w) in
      match backup_label (version_marker target (root w)) artifact with
      | Some version =>
          first_unique taken (name target +:+ "_backup_" +:+ version) (name p)
      | None => first_numbered taken (name target +:+ "_bak") (name p)
      end.
Proof. exact (create_backup_name_run target artifact w). Qed.

(** ** The list of backups *)

Lemma chars_length s : length (Py.chars s) = String.length s.
Proof. unfold Py.chars. induction s; simpl; auto. Qed.

Lemma chars_app s1 s2 : Py.chars (s1 +:+ s2) = Py.chars s1 ++ Py.chars s2.
Proof. unfold Py.chars. induction s1; simpl; [done|]. by f_equal. Qed.

Lemma glob_star_prefix pattern x :
  Py.glob_star pattern EmptyString x = Py.startswith x pattern.
Proof.
  unfold Py.glob_star, Py.endswith, Py.startswith.
  rewrite (bool_decide_true (_ `suffix_of` _)) by apply suffix_nil.
  rewrite andb_true_r. case_bool_decide as Hp; [|done].
  apply prefix_length in Hp. rewrite !chars_length in Hp.
  rewrite bool_decide_true; [done|]. simpl. lia.
Qed.

Lemma elem_of_scan_backups dir pattern classify t b :
  b ∈ scan_backups dir pattern classify t
  ↔ describes_backup dir pattern classify t b.
Proof.
  unfold scan_backups, describes_backup.
  destruct (Tree.lookup dir t) as [[|st es]|] eqn:Hd.
  - split; [by intros ?%elem_of_nil|]. by intros (? & ? & ? & ? & ? & _).
  - rewrite list_elem_of_omap. split.
    + intros ([x n] & Hin & Hb). rewrite glob_star_prefix in Hb.
      destruct (Py.startswith x pattern) eqn:Hx; [|done].
      destruct n as [|st' es']; [done|]. simplify_eq. simpl.
      exists st, es, st', es'. by repeat split.
    + intros (st0 & es0 & st' & es' & [= <- <-] & Hin & Hx & Hp & Hc & Hs & Ht).
      exists (be_name b, Dir st' es'). split; [done|].
      rewrite glob_star_prefix, Hx. f_equal.
      destruct b; simpl in *. by subst.
  - split; [by intros ?%elem_of_nil|]. by intros (? & ? & ? & ? & ? & _).
Qed.

Lemma insert_newest_first_perm x l : insert_newest_first x l ≡ₚ x :: l.
Proof.
  induction l as [|y l IH]; simpl; [done|].
  case_bool_decide; [|done]. by rewrite IH, Permutation_swap.
Qed.

Lemma sort_newest_first_perm l : sort_newest_first l ≡ₚ l.
Proof.
  unfold sort_newest_first. induction l as [|x l IH]; simpl; [done|].
  by rewrite insert_newest_first_perm, IH.
Qed.

Lemma insert_newest_first_sorted x l :
  StronglySorted newest_first l →
  StronglySorted newest_first (insert_newest_first x l).
Proof.
  induction 1 as [|y l Hl IH Hy]; simpl.
  - repeat constructor.
  - case_bool_decide as Hxy.
    + constructor; [done|]. rewrite insert_newest_first_perm.
      constructor; [unfold newest_first; lia|done].
    + constructor; [by constructor|]. constructor.
      * unfold newest_first. lia.
      * eapply Forall_impl; [done|]. unfold newest_first. intros; simpl in *; lia.
Qed.

Lemma sort_newest_first_sorted l : StronglySorted newest_first (sort_newest_first l).
Proof.
  unfold sort_newest_first. induction l as [|x l IH]; simpl; [constructor|].
  by apply insert_newest_first_sorted.
Qed.

Lemma NoDup_fmap_elem_inj {A B} (f : A → B) l x y :
  NoDup (f <$> l) → x ∈ l → y ∈ l → f x = f y → x = y.
Proof.
  induction l as [|z l IH]; simpl; [by intros _ ?%elem_of_nil|].
  intros [Hz Hnd]%NoDup_cons [->|Hx]%elem_of_cons [->|Hy]%elem_of_cons Hf; auto.
  - destruct Hz. rewrite Hf. by apply list_elem_of_fmap_2.
  - destruct Hz. rewrite <-Hf. by apply list_elem_of_fmap_2.
Qed.

(** Where creation times are distinct, newest-first leaves one order. *)
Lemma sort_newest_first_order_free l l' :
  l' ≡ₚ l → NoDup (created <$> l) → sort_newest_first l' = sort_newest_first l.
Proof.
  intros Hperm Hnd. apply (StronglySorted_unique_strong newest_first).
  - intros x1 x2 H1 H2 R1 R2.
    apply (NoDup_fmap_elem_inj created l); [done| | |unfold newest_first in *; lia].
    + by rewrite <-Hperm, <-(sort_newest_first_perm l').
    + by rewrite <-(sort_newest_first_perm l).
  - apply sort_newest_first_sorted.
  - apply sort_newest_first_sorted.
  - by rewrite !sort_newest_first_perm.
Qed.

(** C7. [find_backup_directories] returns, without changing anything, the
    directories beside the server files whose name matches
    [<name>_backup*], of type [Server] or, when they hold a ServerData
    entry, [ServerPlusData], and, when a data path is given, the directories
    beside it whose name matches [<data_name>_backup*], of type
    [ServerDataOnly]. The list is sorted newest-created first whatever the
    order of enumeration: any other order of the same entries sorts to
    the same list when the creation times are distinct. *)
Theorem find_backup_directories_newest_first server_path server_data_path w :
  ∃ l,
    find_backup_directories server_path server_data_path w = Ok l w
    ∧ StronglySorted newest_first l
    ∧ (∀ b, b ∈ l ↔
         describes_backup (parent server_path) (name server_path +:+ "_backup")
           server_backup_type (root w) b
         ∨ ∃ data, server_data_path = Some data
             ∧ describes_backup (parent data) (name data +:+ "_backup")
                 (λ _, ServerDataOnly) (root w) b)
    ∧ (∀ l', l' ≡ₚ l → NoDup (created <$> l) → sort_newest_first l' = l).
Proof.
  unfold find_backup_directories, bind, Os.read, ret.
  exists (sort_newest_first
            (scan_backups (parent server_path) (name server_path +:+ "_backup")
               server_backup_type (root w)
             ++ match server_data_path with
                | Some data =>
                    scan_backups (parent data) (name data +:+ "_backup")
                      (λ _, ServerDataOnly) (root w)
                | None => []
                end)).
  split.
  { by destruct server_data_path. }
  split; [apply sort_newest_first_sorted|]. split.
  - intros b. rewrite sort_newest_first_perm, elem_of_app.
    rewrite elem_of_scan_backups. apply or_iff_compat_l.
    destruct server_data_path as [data|].
    + rewrite elem_of_scan_backups. split; [eauto|]. by intros (? & [= <-] & ?).
    + split; [by intros ?%elem_of_nil|]. by intros (? & ? & ?).
  - intros l' Hl' Hnd. apply sort_newest_first_order_free.
    + by rewrite Hl', sort_newest_first_perm.
    + by rewrite sort_newest_first_perm in Hnd.
Qed.

(** ** Deleting a backup *)

Lemma rmtree_Ok_removed p w u w' :
  Os.rmtree p w = Ok u w' → Tree.lookup p (root w') = None.
Proof.
  unfold Os.rmtree. repeat case_match; try done. intros [= <- <-]. simpl.
  match goal with H : Tree.remove _ _ = Some _ |- _ =>
    apply lookup_modify_eq in H as -> end.
  done.
Qed.

(** ** The artifact cache *)

Lemma modify_snoc d x f t t' :
  Tree.modify (d ++ [x]) f t = Some t' →
  ∃ st es, Tree.lookup d t = Some (Dir st es)
    ∧ Tree.lookup d t'
      = Some (Dir st match f (Tree.assoc x es) with
                     | Some c => Tree.set_entry x c es
                     | None => Tree.del_entry x es
                     end).
Proof.
  revert t t'. induction d as [|y d IH]; intros t t' Hm.
  - destruct t as [|st es]; [done|]. simpl in Hm. simplify_eq. by exists st, es.
  - assert (∃ z p, d ++ [x] = z :: p) as (z & p & Hp)
      by (destruct d; simpl; eauto).
    simpl in Hm. rewrite Hp in Hm.
    apply modify_cons_inv in Hm as (st & es & c & c' & -> & Hc & Hc' & ->).
    rewrite <-Hp in Hc'. apply IH in Hc' as (st' & es' & H1 & H2).
    exists st', es'. rewrite !lookup_cons, assoc_set_entry_eq, Hc. done.
Qed.

Lemma set_entry_names x n es :
  (Tree.set_entry x n es).*1
  = if bool_decide (x ∈ es.*1) then es.*1 else es.*1 ++ [x].
Proof.
  induction es as [|[y m] es IH]; csimpl; [done|].
  destruct (decide (x = y)) as [->|Hne]; csimpl.
  - rewrite bool_decide_true; [done|left].
  - rewrite IH. case_bool_decide as Hin.
    + rewrite bool_decide_true; [done|by right].
    + rewrite bool_decide_false; [done|]. by intros [?|?]%elem_of_cons.
Qed.

Lemma string_length_app s1 s2 :
  String.length (s1 +:+ s2) = (String.length s1 + String.length s2)%nat.
Proof. by rewrite <-!chars_length, chars_app, length_app. Qed.

(** The archive of [b] matches the pattern of every prefix [a] of [b]. *)
Lemma glob_star_archive a b :
  Py.startswith b a = true → Py.glob_star a ".7z" (b +:+ ".7z") = true.
Proof.
  unfold Py.glob_star, Py.startswith, Py.endswith.
  intros Hp%bool_decide_eq_true. rewrite chars_app.
  rewrite !bool_decide_true; [done| | |].
  - rewrite string_length_app. apply prefix_length in Hp.
    rewrite !chars_length in Hp. lia.
  - by apply suffix_app_r.
  - by apply prefix_app_r.
Qed.

Lemma startswith_refl a : Py.startswith a a = true.
Proof. by apply bool_decide_eq_true. Qed.

(** A cache hit: the first matching entry is returned and only logged. *)
Lemma download_cache_hit cfg artifact_number w x :
  cached_artifact cfg artifact_number (root w) = Some x →
  download_or_find_artifact cfg artifact_number false w
  = Ok x (with_log (log w ++ [UsingCachedArtifact x]) w).
Proof.
  unfold cached_artifact, download_or_find_artifact, try_except, bind, Os.glob.
  destruct (Tree.lookup (full_download_path cfg) (root w)) as [[|st es]|]; try done.
  destruct (filter _ es.*1) as [|y l]; [done|]. simpl. by intros [= <-].
Qed.

Lemma keeps_Ok {A} (R : relation world) (m : M A) w a w' :
  keeps R m → m w = Ok a w' → R w w'.
Proof. intros Hk Hm. specialize (Hk w). by rewrite Hm in Hk. Qed.

Lemma keeps_Raise {A} (R : relation world) (m : M A) w e w' :
  keeps R m → m w = Raise e w' → R w w'.
Proof. intros Hk Hm. specialize (Hk w). by rewrite Hm in Hk. Qed.

Global Hint Resolve keeps_http_get_only_root_free : keeps.

Lemma response_text_same_tree r : keeps same_tree (response_text r).
Proof. unfold response_text. keeps_tac. Qed.
Global Hint Resolve response_text_same_tree : keeps.

Lemma get_artifact_hash_same_tree artifact_number :
  keeps same_tree (get_artifact_hash_from_directory artifact_number).
Proof. unfold get_artifact_hash_from_directory. keeps_tac. Qed.
Global Hint Resolve get_artifact_hash_same_tree : keeps.

(** Inversion of the first step of a run that returns. *)
Tactic Notation "run_step" hyp(H) "as" simple_intropattern(a)
    simple_intropattern(w) simple_intropattern(Hm) :=
  apply bind_Ok in H as (a & w & Hm & H).

(** The same when the step is known to keep [R]. *)
Tactic Notation "run_step" hyp(H) "keeping" constr(R) "as"
    simple_intropattern(a) simple_intropattern(w) ident(Hm) :=
  apply bind_Ok in H as (a & w & Hm & H);
  apply (keeps_Ok R) in Hm; [|keeps_tac].

Lemma open_w_Ok d x w u w' :
  Os.open_w (d ++ [x]) w = Ok u w' →
  ∃ st es n, Tree.lookup d (root w) = Some (Dir st es)
    ∧ Tree.lookup d (root w') = Some (Dir st (Tree.set_entry x n es)).
Proof.
  unfold Os.open_w. repeat case_match; try done; intros ?; simplify_eq; simpl;
    match goal with H : Tree.put _ _ _ = Some _ |- _ =>
      apply modify_snoc in H as (st' & es' & H1 & H2) end; eauto.
Qed.

Lemma write_Ok d x data w u w' :
  Os.write (d ++ [x]) data w = Ok u w' →
  ∃ st es n, Tree.lookup d (root w) = Some (Dir st es)
    ∧ Tree.lookup d (root w') = Some (Dir st (Tree.set_entry x n es)).
Proof.
  unfold Os.write. repeat case_match; try done; intros ?; simplify_eq; simpl;
    match goal with H : Tree.put _ _ _ = Some _ |- _ =>
      apply modify_snoc in H as (st' & es' & H1 & H2) end; eauto.
Qed.

(** After a successful call the artifact is in the cache: the path that
    was returned is the one a cache lookup finds. *)
Lemma download_Ok_cached cfg artifact_number w p w1 :
  download_or_find_artifact cfg artifact_number false w = Ok p w1 →
  cached_artifact cfg artifact_number (root w1) = Some p.
Proof.
  destruct (cached_artifact cfg artifact_number (root w)) as [x|] eqn:Hc.
  { rewrite (download_cache_hit _ _ _ _ Hc). by intros [= <- <-]. }
  unfold download_or_find_artifact.
  intros [H|(e & w2 & _ & H)]%try_except_Ok; [|by apply bind_Ok in H as (? & ? & ? & ?)].
  run_step H as files w0 Hm. unfold Os.glob, cached_artifact in Hm, Hc.
  set (dl := full_download_path cfg) in *.
  set (file := artifact_number +:+ ".7z") in *.
  assert (files = [] ∧ w0 = w) as [-> ->].
  { destruct (Tree.lookup dl (root w)) as [[|st es]|]; simplify_eq; try done.
    destruct (filter _ es.*1); [done|]. done. }
  clear Hm. simpl in H.
  run_step H keeping same_tree as ? wa Ha.
  run_step H keeping same_tree as url wb Hb.
  run_step H keeping same_tree as ? wc Hc1.
  run_step H keeping same_tree as ? wd Hd1.
  run_step H keeping same_tree as ? we He.
  run_step H keeping same_tree as response wf Hf.
  run_step H keeping same_tree as ? wg Hg.
  case_bool_decide; [done|].
  run_step H keeping same_tree as ? wh Hh.
  assert (root wh = root w) as Hroot by (unfold same_tree in *; congruence).
  run_step H as ? wi Hopen. apply open_w_Ok in Hopen as (st & es & n & Hd & Hd').
  run_step H as ? wj Hwr. apply write_Ok in Hwr as (st' & es' & n' & Hw & Hw').
  run_step H keeping same_tree as ? wk Hk.
  run_step H keeping same_tree as ? wl Hl.
  run_step H keeping same_tree as ? wm Hm.
  run_step H keeping same_tree as ? wn Hn.
  run_step H keeping same_tree as ? wo Ho.
  injection H as <- <-.
  assert (root wo = root wj) as -> by (unfold same_tree in *; congruence).
  rewrite Hroot in Hd. rewrite Hd in Hc. rewrite Hd' in Hw. simplify_eq.
  apply fmap_None, head_None in Hc.
  assert (file ∉ es.*1) as Hfile.
  { intros Hin. assert (file ∈ filter (λ x, Py.glob_star artifact_number ".7z" x) es.*1)
      as Hin'; [|by rewrite Hc in Hin'; apply elem_of_nil in Hin'].
    apply list_elem_of_filter. split; [|done].
    apply Is_true_true, glob_star_archive, startswith_refl. }
  unfold cached_artifact. fold dl. rewrite Hw'.
  rewrite !set_entry_names. rewrite (bool_decide_false _ Hfile).
  rewrite bool_decide_true by (apply elem_of_app; right; left).
  rewrite filter_app, Hc. simpl. rewrite filter_cons_True.
  - done.
  - apply Is_true_true, glob_star_archive, startswith_refl.
Qed.

Lemma cached_artifact_first cfg artifact_number t st es y :
  Tree.lookup (full_download_path cfg) t = Some (Dir st es) →
  y ∈ es.*1 → Py.glob_star artifact_number ".7z" y = true →
  ∃ x, cached_artifact cfg artifact_number t = Some (full_download_path cfg ++ [x])
       ∧ x ∈ es.*1 ∧ Py.glob_star artifact_number ".7z" x = true.
Proof.
  intros Hd Hy Hmatch. unfold cached_artifact. rewrite Hd.
  destruct (filter (λ x, Py.glob_star artifact_number ".7z" x) es.*1)
    as [|x l] eqn:Hf.
  - assert (y ∈ filter (λ x, Py.glob_star artifact_number ".7z" x) es.*1) as Hin.
    { apply list_elem_of_filter. split; [by apply Is_true_true|done]. }
    rewrite Hf in Hin. by apply elem_of_nil in Hin.
  - exists x. split; [done|].
    assert (x ∈ filter (λ x, Py.glob_star artifact_number ".7z" x) es.*1) as Hin
      by (rewrite Hf; left).
    apply list_elem_of_filter in Hin as [Hx ?]. split; [done|].
    by apply Is_true_true.
Qed.

(** C5. When the download directory holds an entry that matches
    [<artifact_id>*.7z] and [force_download] is false,
    [download_or_find_artifact] returns a matching entry (the first in
    enumeration order) and changes nothing but the log: no request is sent.
    And when a call without [force_download] returns a path, the call
    repeated in the world it left returns the same path, again changing
    nothing but the log: requests are sent by the first call at most. *)
Theorem download_cached_without_network cfg artifact_number w :
  (∀ st es y,
     Tree.lookup (full_download_path cfg) (root w) = Some (Dir st es) →
     y ∈ es.*1 → Py.glob_star artifact_number ".7z" y = true →
     ∃ x, x ∈ es.*1 ∧ Py.glob_star artifact_number ".7z" x = true
       ∧ download_or_find_artifact cfg artifact_number false w
         = Ok (full_download_path cfg ++ [x])
              (with_log (log w ++ [UsingCachedArtifact (full_download_path cfg ++ [x])]) w))
  ∧ (∀ p w1,
       download_or_find_artifact cfg artifact_number false w = Ok p w1 →
       download_or_find_artifact cfg artifact_number false w1
       = Ok p (with_log (log w1 ++ [UsingCachedArtifact p]) w1)).
Proof.
  split.
  - intros st es y Hd Hy Hmatch.
    destruct (cached_artifact_first _ _ _ _ _ _ Hd Hy Hmatch) as (x & Hc & Hx & Hm).
    exists x. split; [done|]. split; [done|]. by apply download_cache_hit.
  - intros p w1 H. by apply download_cache_hit, (download_Ok_cached _ _ w).
Qed.

(** C10. When the decimal string of [a] is a proper prefix of that of [b]
    and the only entry of the download directory is the archive of [b],
    [download_or_find_artifact] for [a], without [force_download], returns
    the archive of [b] as a cache hit: nothing is requested and the number
    is not checked. *)
Theorem download_prefix_collision cfg a b w st n :
  Py.startswith b a = true → a ≠ b →
  Tree.lookup (full_download_path cfg) (root w) = Some (Dir st [(b +:+ ".7z", n)]) →
  download_or_find_artifact cfg a false w
  = Ok (full_download_path cfg ++ [b +:+ ".7z"])
       (with_log (log w ++ [UsingCachedArtifact (full_download_path cfg ++ [b +:+ ".7z"])]) w).
Proof.
  intros Hp _ Hd. apply download_cache_hit. unfold cached_artifact.
  rewrite Hd. simpl. rewrite filter_cons_True; [done|].
  by apply Is_true_true, glob_star_archive.
Qed.

Lemma download_cached_without_network_witness :
  (∃ x, download_or_find_artifact Scenario.cfg "17346" false Scenario.cache_17346
        = Ok (full_download_path Scenario.cfg ++ [x])
             (with_log [UsingCachedArtifact (full_download_path Scenario.cfg ++ [x])]
                Scenario.cache_17346))
  ∧ ∃ p w1,
      download_or_find_artifact Scenario.cfg "17346" false Scenario.fresh_cache
      = Ok p w1
      ∧ requests w1 = [list_url; Scenario.archive_url]
      ∧ download_or_find_artifact Scenario.cfg "17346" false w1
        = Ok p (with_log (log w1 ++ [UsingCachedArtifact p]) w1).
Proof.
  split.
  - destruct (proj1 (download_cached_without_network Scenario.cfg "17346"
                       Scenario.cache_17346)
                Scenario.st0 [("17346.7z", File (Stat 50 50) false "7z!")]
                "17346.7z" eq_refl)
      as (x & _ & _ & H).
    + by left.
    + by vm_compute.
    + by exists x.
  - eexists _, _. split; [by vm_compute|]. split; [done|].
    apply (proj2 (download_cached_without_network Scenario.cfg "17346"
                    Scenario.fresh_cache)).
    by vm_compute.
Defined.

Lemma download_prefix_collision_witness :
  download_or_find_artifact Scenario.cfg "173" false Scenario.cache_17346
  = Ok ["bot"; "downloads"; "17346.7z"]
       (with_log [UsingCachedArtifact ["bot"; "downloads"; "17346.7z"]]
          Scenario.cache_17346).
Proof.
  apply (download_prefix_collision Scenario.cfg "173" "17346"
           Scenario.cache_17346 Scenario.st0 (File (Stat 50 50) false "7z!")).
  - by vm_compute.
  - done.
  - done.
Defined.

(** ** Cleanup of the cache *)

Section put_facts.
Import Tree.
Local Arguments modify : simpl never.

Lemma modify_nil f t : modify [] f t = f (Some t).
Proof. done. Qed.





(** A modification just below an existing directory succeeds, and amounts
    to replacing the directory. *)
Lemma modify_snoc_put d x f t st es :
  lookup d t = Some (Dir st es) →
  modify (d ++ [x]) f t
  = put d (Dir st match f (assoc x es) with
                  | Some c => set_entry x c es
                  | None => del_entry x es
                  end) t.
Proof.
  unfold put. revert t. induction d as [|y d IH]; intros t Hl.
  - simpl in Hl. by simplify_eq.
  - destruct t as [|st0 es0]; [done|]. rewrite lookup_cons in Hl.
    destruct (assoc y es0) as [c|] eqn:Hc; [|done]. simpl in Hl.
    assert (∃ z p, d ++ [x] = z :: p) as (z & p & Hp)
      by (destruct d; simpl; eauto).
    simpl. rewrite Hp, modify_cons_cons, Hc, <-Hp. simpl.
    rewrite (IH _ Hl). destruct d as [|y' d].
    + simpl in *. simplify_eq. by rewrite modify_single.
    + by rewrite modify_cons_cons, Hc.
Qed.

Lemma put_is_Some d n t st es :
  lookup d t = Some (Dir st es) → is_Some (put d n t).
Proof.
  unfold put. revert t. induction d as [|x [|y d] IH]; intros t Hl.
  - rewrite modify_nil. by eexists.
  - destruct t as [|st0 es0]; [done|]. rewrite modify_single. by eexists.
  - destruct t as [|st0 es0]; [done|]. rewrite lookup_cons in Hl.
    rewrite modify_cons_cons. destruct (assoc x es0) as [c|]; [|done].
    simpl in *. destruct (IH _ Hl) as [c' ->]. by eexists.
Qed.

End put_facts.

Lemma assoc_app_notin x (kept l : list (string * node)) :
  x ∉ kept.*1 → Tree.assoc x (kept ++ l) = Tree.assoc x l.
Proof.
  induction kept as [|[y m] kept IH]; csimpl; [done|].
  intros Hx. rewrite decide_False; [|by intros ->; apply Hx; left].
  apply IH. intros ?. apply Hx. by right.
Qed.












(** ** Deleting a backup, by what it holds *)

Lemma node_nested_ind (P : node → Prop) :
  (∀ st ro data, P (File st ro data)) →
  (∀ st es, Forall (λ e, P e.2) es → P (Dir st es)) →
  ∀ n, P n.
Proof.
  intros HF HD. fix IH 1. intros [st ro data|st es]; [apply HF|].
  apply HD. induction es as [|[x c] es IHes]; constructor.
  - apply IH.
  - apply IHes.
Qed.

(** [shutil.rmtree] deletes a tree entirely exactly when no file in it
    is read-only. *)
Lemma rm_node_writable n : Tree.rm_node n = None ↔ writable n = true.
Proof.
  induction n as [st ro data|st es IH] using node_nested_ind.
  { simpl. by destruct ro. }
  cbn [Tree.rm_node writable].
  induction es as [|[x c] es IHes]; [done|].
  apply Forall_cons in IH as [Hc Hes]. specialize (IHes Hes). simpl in Hc.
  destruct (Tree.rm_node c) as [c'|] eqn:Hrm.
  - destruct (writable c) eqn:Hw.
    + discriminate (proj2 Hc eq_refl).
    + simpl. split; intros [=].
  - rewrite (proj1 Hc eq_refl). simpl. exact IHes.
Qed.

Lemma remove_is_Some p t n :
  p ≠ [] → Tree.lookup p t = Some n → is_Some (Tree.remove p t).
Proof.
  intros Hp Hl. destruct p as [|x p _] using rev_ind; [done|].
  rewrite lookup_app in Hl.
  destruct (Tree.lookup p t) as [[|st es]|] eqn:Hd; try done.
  unfold Tree.remove. rewrite (modify_snoc_put _ _ _ _ _ _ Hd).
  by eapply put_is_Some.
Qed.

(** C9. [delete_backup_directory] answers [False], and does nothing, when
    the path is absent (or is not a directory). On a directory in which
    no file is read-only it removes the tree, and nothing else, logs the
    deletion and answers [True]. On a directory that holds a read-only
    file the deletion fails: the error is logged and raised again, and no
    answer is given. *)
Theorem delete_backup_directory_true_false_or_raise backup_path w :
  match Tree.lookup backup_path (root w) with
  | Some (Dir st es) =>
      if writable (Dir st es) && bool_decide (backup_path ≠ []) then
        ∃ t, Tree.remove backup_path (root w) = Some t
          ∧ Tree.lookup backup_path t = None
          ∧ delete_backup_directory backup_path w
            = Ok true (with_log (log w ++ [DeletedBackupDirectory backup_path])
                         (with_root t w))
      else
        ∃ w1, delete_backup_directory backup_path w = Raise PermissionError w1
          ∧ log w1 = log w ++ [FailedToDeleteBackup backup_path PermissionError]
  | _ => delete_backup_directory backup_path w = Ok false w
  end.
Proof.
  unfold delete_backup_directory, try_except, bind, Os.exists_, Os.is_dir,
    Os.read, Tree.exists_, Tree.is_dir, logger, ret, raise.
  destruct (Tree.lookup backup_path (root w)) as [[st ro data|st es]|] eqn:Hl.
  - rewrite (bool_decide_true (is_Some _)) by eauto. done.
  - rewrite (bool_decide_true (is_Some _)) by eauto. cbn [andb].
    unfold Os.rmtree. rewrite Hl.
    destruct (writable (Dir st es)) eqn:Hw; cbn [andb].
    + apply rm_node_writable in Hw. rewrite Hw.
      case_bool_decide as Hp.
      * destruct (remove_is_Some _ _ _ Hp Hl) as [t Ht]. rewrite Ht.
        exists t. split; [done|]. split; [|done].
        by apply lookup_modify_eq in Ht.
      * subst backup_path.
        unfold Tree.remove. simpl. by eexists.
    + destruct (Tree.rm_node (Dir st es)) as [r|] eqn:Hrm.
      * destruct (Tree.put backup_path r (root w)); by eexists.
      * apply rm_node_writable in Hrm. congruence.
  - rewrite bool_decide_false by (by intros [? ?]). done.
Qed.

Lemma delete_backup_directory_true_false_or_raise_witness :
  (∃ w', delete_backup_directory ["srv"; "server_backup_1"]
           RollbackScenario.before = Ok true w'
         ∧ Tree.lookup ["srv"] (root w')
           = Some (Dir Scenario.st0
                     [("server", RollbackScenario.release "2" "two")]))
  ∧ (∃ w', delete_backup_directory ["bot"; "downloads"]
             (CleanupScenario.cache CleanupScenario.with_read_only)
           = Raise PermissionError w')
  ∧ delete_backup_directory ["srv"; "server_backup_9"] RollbackScenario.before
    = Ok false RollbackScenario.before.
Proof.
  split_and!.
  - pose proof (delete_backup_directory_true_false_or_raise
                  ["srv"; "server_backup_1"] RollbackScenario.before) as H.
    vm_compute in H. destruct H as (t & [= <-] & _ & H).
    eexists. split; [vm_compute; exact H|]. vm_compute. reflexivity.
  - pose proof (delete_backup_directory_true_false_or_raise
                  ["bot"; "downloads"]
                  (CleanupScenario.cache CleanupScenario.with_read_only)) as H.
    set (t := Tree.lookup _ _) in H. vm_compute in t. subst t.
    cbv beta iota in H.
    set (b := writable _ && _) in H. vm_compute in b. subst b.
    destruct H as (w1 & H & _). by exists w1.
  - exact (delete_backup_directory_true_false_or_raise
             ["srv"; "server_backup_9"] RollbackScenario.before).
Defined.

(** ** The swap *)


(** *** The tiers of the data restore *)

Global Hint Extern 1 (keeps (logs _) (logger _)) =>
  apply keeps_logger_logs; exact I : keeps.



Lemma exists_nonempty_eq p : keeps (=) (exists_nonempty p).
Proof.
  unfold exists_nonempty. keeps_tac.
Qed.

Lemma copy_items_only_root items dst counts :
  keeps only_root (copy_items items dst counts).
Proof. unfold copy_items. keeps_tac. Qed.

Lemma copy_items_logs P items dst counts :
  keeps (logs P) (copy_items items dst counts).
Proof. apply keeps_logs_os, copy_items_only_root. Qed.

Global Hint Resolve copy_items_logs : keeps.









(** ** Frames: what the file operations leave alone *)

Lemma disjoint_sym p q : disjoint p q → disjoint q p.
Proof. by intros [? ?]. Qed.

Lemma disjoint_snoc p q x : disjoint p q → disjoint (p ++ [x]) q.
Proof.
  intros [Hpq Hqp]. split.
  - intros H. apply Hpq. by eapply prefix_app_l.
  - intros [k Hk]. destruct k as [|y k _] using rev_ind.
    + apply Hpq. exists [x]. by rewrite app_nil_r in Hk.
    + apply Hqp. exists k. rewrite app_assoc in Hk.
      by apply app_inj_tail in Hk as [-> _].
Qed.

Lemma parent_prefix (p : path) : parent p `prefix_of` p.
Proof.
  unfold parent. destruct p as [|x p _] using rev_ind; [done|].
  rewrite removelast_last. by apply prefix_app_r.
Qed.

Lemma parent_name (p : path) : p ≠ [] → p = parent p ++ [name p].
Proof. intros Hp. by apply app_removelast_last. Qed.

Section frames.
Import Os.
Context (q : path).

Local Ltac frame_modify :=
  match goal with
  | H : Tree.modify _ _ _ = Some _ |- _ =>
      eapply lookup_modify_disjoint in H; [rewrite H|]; clear H
  | H : Tree.put _ _ _ = Some _ |- _ =>
      eapply lookup_modify_disjoint in H; [rewrite H|]; clear H
  | H : Tree.remove _ _ = Some _ |- _ =>
      eapply lookup_modify_disjoint in H; [rewrite H|]; clear H
  end.

Lemma same_at_mkdir_parents p :
  ¬ q `prefix_of` p → keeps (same_at q) (mkdir_parents p).
Proof.
  intros Hq w. unfold mkdir_parents, same_at.
  repeat case_match; simpl; try done; by eapply mkdirs_frame.
Qed.

Lemma same_at_open_w p : disjoint p q → keeps (same_at q) (open_w p).
Proof.
  intros Hq w. unfold open_w, same_at.
  repeat case_match; simpl; try done; by frame_modify.
Qed.

Lemma same_at_write p data : disjoint p q → keeps (same_at q) (write p data).
Proof.
  intros Hq w. unfold write, same_at.
  repeat case_match; simpl; try done; by frame_modify.
Qed.

Lemma same_at_unlink p : disjoint p q → keeps (same_at q) (unlink p).
Proof.
  intros Hq w. unfold unlink, same_at.
  repeat case_match; simpl; try done; by frame_modify.
Qed.

Lemma same_at_rmtree p : disjoint p q → keeps (same_at q) (rmtree p).
Proof.
  intros Hq w. unfold rmtree, same_at.
  repeat case_match; simpl; try done; by frame_modify.
Qed.

Lemma same_at_copy2 src dst : disjoint dst q → keeps (same_at q) (copy2 src dst).
Proof.
  intros Hq w. unfold copy2, same_at.
  repeat case_match; simpl; try done; simplify_option_eq;
    frame_modify; try done; by apply disjoint_snoc.
Qed.

Lemma same_at_copytree src dst ok :
  disjoint dst q → keeps (same_at q) (copytree src dst ok).
Proof.
  intros Hq w. unfold copytree, same_at.
  assert (¬ q `prefix_of` parent dst) as Hparent.
  { intros H. apply Hq. etrans; [done|]. apply parent_prefix. }
  repeat case_match; simpl; try done; simplify_option_eq;
    frame_modify; try done; by eapply mkdirs_frame.
Qed.

Lemma same_at_move src dst :
  disjoint src q → disjoint dst q → keeps (same_at q) (move src dst).
Proof.
  intros Hs Hd w. unfold move, same_at.
  repeat case_match; simpl; try done; simplify_option_eq;
    repeat (frame_modify; try done; try (by apply disjoint_snoc)).
Qed.

Lemma same_at_copy_items items dst counts :
  disjoint dst q → keeps (same_at q) (copy_items items dst counts).
Proof.
  intros Hq. unfold copy_items. keeps_tac.
  - by apply same_at_copy2, disjoint_snoc.
  - by apply same_at_copytree, disjoint_snoc.
Qed.

End frames.

(** ** Copies of trees *)

Lemma wf_Dir st es :
  wf (Dir st es) ↔ NoDup es.*1 ∧ Forall (λ e, wf e.2) es.
Proof.
  simpl. apply and_iff_compat_l. induction es as [|e es IH]; simpl.
  - split; [constructor|done].
  - rewrite Forall_cons, IH. done.
Qed.

Lemma wf_lookup p t n : wf t → Tree.lookup p t = Some n → wf n.
Proof.
  revert t. induction p as [|x p IH]; intros t Ht Hl.
  - simpl in Hl. by simplify_eq.
  - destruct t as [|st es]; [done|]. rewrite lookup_cons in Hl.
    destruct (Tree.assoc x es) as [c|] eqn:Hc; [|done]. simpl in Hl.
    apply (IH c); [|done]. apply wf_Dir in Ht as [_ Hes].
    rewrite Forall_forall in Hes. by apply (Hes (x, c)), assoc_Some_elem.
Qed.

Lemma set_entry_notin x n es :
  x ∉ es.*1 → Tree.set_entry x n es = es ++ [(x, n)].
Proof.
  induction es as [|[y m] es IH]; csimpl; [done|].
  intros Hx. rewrite decide_False; [|by intros ->; apply Hx; left].
  f_equal. apply IH. intros ?. apply Hx. by right.
Qed.

Lemma assoc_notin x es : x ∉ es.*1 → Tree.assoc x es = None.
Proof.
  intros Hx. apply eq_None_not_Some. by rewrite assoc_is_Some.
Qed.

Lemma copy_entries_nil f now acc : Tree.copy_entries f now [] acc = acc.
Proof. done. Qed.

Lemma copy_entries_cons f now e es acc :
  Tree.copy_entries f now (e :: es) acc
  = Tree.copy_entries f now es
      match e.2 with
      | Dir _ _ =>
          let '(d', err) := f e.2 (Tree.assoc e.1 acc.1) in
          (match d' with
           | Some d => Tree.set_entry e.1 d acc.1
           | None => acc.1
           end, acc.2 || err)
      | File st ro data =>
          let '(des', err) := Tree.copy2_entry now e.1 st ro data acc.1 in
          (des', acc.2 || err)
      end.
Proof. done. Qed.

(** Into a place where nothing was, a well-formed directory is copied
    whole and without error. *)
Lemma copytree_node_fresh now ok n :
  wf n → Tree.is_dir [] n = true →
  Tree.copytree_node now ok n None = (Some (copied now n), false).
Proof.
  induction n as [st ro data|st es IH] using node_nested_ind; [done|].
  intros [Hnd Hwf]%wf_Dir _. simpl.
  enough (∀ des, (∀ x, x ∈ es.*1 → x ∉ des.*1) →
            Tree.copy_entries (Tree.copytree_node now ok) now es (des, false)
            = (des ++ ((λ e, (e.1, copied now e.2)) <$> es), false)) as Hloop.
  { by rewrite (Hloop []) by (intros ? _ ?%elem_of_nil; done). }
  induction es as [|[x c] es IHes]; intros des Hdes.
  { by rewrite copy_entries_nil, app_nil_r. }
  apply Forall_cons in IH as [IHc IH]. apply Forall_cons in Hwf as [Hc Hwf].
  csimpl in Hnd. apply NoDup_cons in Hnd as [Hx Hnd].
  assert (x ∉ des.*1) as Hxdes by (apply Hdes; left).
  rewrite copy_entries_cons.
  assert (Tree.copy_entries (Tree.copytree_node now ok) now es
            (des ++ [(x, copied now c)], false)
          = (des ++ ((λ e, (e.1, copied now e.2)) <$> (x, c) :: es), false))
    as Hrest.
  { rewrite IHes; [by rewrite <-app_assoc|done..|].
    intros y Hy. rewrite fmap_app. csimpl.
    intros [?|Hyx%list_elem_of_singleton]%elem_of_app; [|by subst].
    by apply (Hdes y); [right|]. }
  destruct c as [cst ro data|cst ces]; simpl in *.
  - unfold Tree.copy2_entry, Tree.copy_file_entry, Tree.copy_file_onto.
    rewrite assoc_notin by done. simpl.
    by rewrite set_entry_notin by done.
  - rewrite assoc_notin by done. rewrite IHc by done. simpl.
    by rewrite set_entry_notin by done.
Qed.

(** ** Rolling back *)

Lemma move_Ok_fresh src dst w u w' :
  Os.move src dst w = Ok u w' →
  Tree.exists_ dst (root w) = false →
  ∃ n, Tree.lookup src (root w) = Some n
       ∧ disjoint src dst
       ∧ Tree.lookup dst (root w') = Some n
       ∧ Tree.lookup src (root w') = None.
Proof.
  unfold Os.move. intros H Hfresh.
  destruct (Tree.lookup src (root w)) as [n|] eqn:Hs; [|done].
  assert (Tree.is_dir dst (root w) = false) as Hd.
  { unfold Tree.is_dir, Tree.exists_ in *.
    destruct (Tree.lookup dst (root w)) eqn:Hl; [|done].
    rewrite bool_decide_true in Hfresh; [done|by eexists]. }
  rewrite Hd, Hfresh in H. case_bool_decide as Hpre; [done|].
  destruct (Tree.remove src (root w)) as [t1|] eqn:Hrm; simpl in H; [|done].
  destruct (Tree.put dst n t1) as [t2|] eqn:Hput; [|done].
  simplify_eq. simpl.
  assert (disjoint src dst) as Hdisj.
  { split; [done|]. intros Hp.
    apply bool_decide_eq_false in Hfresh. apply Hfresh.
    eapply lookup_prefix_is_Some; eauto. }
  exists n. split_and!; [done|done|..].
  - by apply lookup_modify_eq in Hput.
  - rewrite (lookup_modify_disjoint dst src _ _ _ (disjoint_sym _ _ Hdisj) Hput).
    by apply lookup_modify_eq in Hrm.
Qed.

Lemma copytree_Ok_fresh src dst ok w u w' :
  Os.copytree src dst ok w = Ok u w' →
  Tree.lookup dst (root w) = None →
  ∃ n, Tree.lookup src (root w) = Some n
       ∧ (wf n → Tree.lookup dst (root w') = Some (copied (now w) n)).
Proof.
  unfold Os.copytree. intros H Hdst.
  destruct (Tree.lookup src (root w)) as [[|sst ses]|] eqn:Hs; try done.
  rewrite Hdst in H.
  destruct (Tree.mkdirs (now w) (parent dst) (root w)) as [t0|]; [|done].
  exists (Dir sst ses). split; [done|]. intros Hwf.
  rewrite (copytree_node_fresh _ _ _ Hwf) in H by done. simpl in H.
  destruct (Tree.put dst _ t0) as [t|] eqn:Hput; [|done].
  simplify_eq. simpl. by apply lookup_modify_eq in Hput.
Qed.

Lemma find_backup_directories_run server_path server_data_path w :
  find_backup_directories server_path server_data_path w
  = Ok (catalog server_path server_data_path (root w)) w.
Proof.
  unfold find_backup_directories, catalog, bind, Os.read, ret.
  by destruct server_data_path.
Qed.

Lemma elem_of_catalog server_path server_data_path t b :
  b ∈ catalog server_path server_data_path t ↔
    describes_backup (parent server_path) (name server_path +:+ "_backup")
      server_backup_type t b
    ∨ ∃ data, server_data_path = Some data
        ∧ describes_backup (parent data) (name data +:+ "_backup")
            (λ _, ServerDataOnly) t b.
Proof.
  unfold catalog. rewrite sort_newest_first_perm, elem_of_app.
  rewrite elem_of_scan_backups. apply or_iff_compat_l.
  destruct server_data_path as [data|].
  - rewrite elem_of_scan_backups. split; [eauto|]. by intros (? & [= <-] & ?).
  - split; [by intros ?%elem_of_nil|]. by intros (? & ? & ?).
Qed.

Lemma elem_assoc x n es : NoDup es.*1 → (x, n) ∈ es → Tree.assoc x es = Some n.
Proof.
  induction es as [|[y m] es IH]; csimpl; [by intros _ ?%elem_of_nil|].
  intros [Hy Hnd]%NoDup_cons [Heq|Hin]%elem_of_cons.
  - simplify_eq. by rewrite decide_True.
  - rewrite decide_False; [auto|]. intros ->. apply Hy.
    by apply (list_elem_of_fmap_2 fst _ (y, n)).
Qed.

(** In a well-formed tree a backup entry describes what is at its path. *)
Lemma describes_backup_lookup dir pattern classify t b :
  wf t → describes_backup dir pattern classify t b →
  ∃ st es, Tree.lookup (be_path b) t = Some (Dir st es).
Proof.
  intros Hwf (st & es & st' & es' & Hd & Hin & _ & -> & _).
  exists st', es'. rewrite lookup_app, Hd. simpl.
  apply (wf_lookup _ _ _ Hwf), wf_Dir in Hd as [Hnd _].
  by rewrite (elem_assoc _ _ _ Hnd Hin).
Qed.

(** An entry goes on describing a backup that is left as it was. *)
Lemma describes_backup_same_at dir pattern classify t t' b :
  wf t → describes_backup dir pattern classify t b →
  Tree.lookup (be_path b) t' = Tree.lookup (be_path b) t →
  describes_backup dir pattern classify t' b.
Proof.
  intros Hwf (st & es & st' & es' & Hd & Hin & Hx & Hp & Hc & Hs & Ht) Hsame.
  rewrite Hp, (lookup_app dir _ t), Hd in Hsame. simpl in Hsame.
  apply (wf_lookup _ _ _ Hwf), wf_Dir in Hd as [Hnd _].
  rewrite (elem_assoc _ _ _ Hnd Hin) in Hsame. simpl in Hsame.
  apply lookup_snoc_Some in Hsame as (st2 & es2 & Hd2 & Hin2).
  exists st2, es2, st', es'. split_and!; try done.
  by apply assoc_Some_elem.
Qed.

Lemma startswith_length s p :
  Py.startswith s p = true → (String.length p ≤ String.length s)%nat.
Proof.
  unfold Py.startswith. intros H%bool_decide_eq_true%prefix_length.
  by rewrite !chars_length in H.
Qed.

(** A backup beside the server files is not the server files, and not
    above them. *)
Lemma server_backup_not_above target t b :
  target ≠ [] →
  describes_backup (parent target) (name target +:+ "_backup")
    server_backup_type t b →
  ¬ be_path b `prefix_of` target.
Proof.
  intros Hne (_ & _ & _ & _ & _ & _ & Hx & Hp & _) [k Hk].
  rewrite Hp in Hk. rewrite (parent_name target Hne) in Hk at 1.
  rewrite <-app_assoc in Hk. apply app_inv_head in Hk.
  injection Hk as Hk _. apply startswith_length in Hx.
  rewrite <-Hk, string_length_app in Hx. simpl in Hx. lia.
Qed.

Lemma keeps_stop_server c : keeps (=) (stop_server c).
Proof. intros w. unfold stop_server. by destruct (stop_outcome c). Qed.
Lemma keeps_start_server c : keeps (=) (start_server c).
Proof. intros w. unfold start_server. by destruct (start_outcome c). Qed.

(** A rollback that succeeds, step by step. *)
Lemma rollback_run cfg ctl backup_name w safety w' :
  wf (root w) →
  rollback_server cfg ctl backup_name w = Ok (RolledBack safety) w' →
  ∃ i chosen old kept,
    list_find (λ b, be_name b = backup_name)
      (catalog (server_files cfg) (server_data cfg) (root w)) = Some (i, chosen)
    ∧ Tree.lookup (server_files cfg) (root w) = Some old
    ∧ Tree.lookup (be_path chosen) (root w) = Some kept
    ∧ safety = parent (server_files cfg) ++ [name safety]
    ∧ Tree.exists_ safety (root w) = false
    ∧ backup_named (server_files cfg) None (root w) (name safety)
    ∧ Tree.lookup safety (root w') = Some old
    ∧ (type chosen ≠ ServerDataOnly →
         ¬ be_path chosen `prefix_of` server_files cfg)
    ∧ (¬ be_path chosen `prefix_of` server_files cfg →
         Tree.lookup (server_files cfg) (root w') = Some (copied (now w) kept)
         ∧ Tree.lookup (be_path chosen) (root w') = Some kept
         ∧ chosen ∈ catalog (server_files cfg) (server_data cfg) (root w')).
Proof.
  intros Hwf. unfold rollback_server.
  set (target := server_files cfg). set (data := server_data cfg).
  intros [H|(e & w1 & _ & H)]%try_except_Ok; cycle 1.
  { apply bind_Ok in H as (? & w2 & _ & H).
    destruct (managed cfg); [|done].
    apply try_except_Ok in H as [H|(? & ? & _ & H)]; [|done].
    by apply bind_Ok in H as (? & ? & _ & H). }
  rewrite (bind_eval_Ok _ _ _ _ _ (find_backup_directories_run target data w)) in H.
  destruct (list_find _ _) as [[i chosen]|] eqn:Hfind; [|done].
  pose proof Hfind as (Hin%list_elem_of_lookup_2 & Hname & _)%list_find_Some.
  run_step H as ? w1 Hstop.
  apply (keeps_Ok eq) in Hstop;
    [subst w1|apply keeps_when; [tc_solve|apply keeps_stop_server]].
  destruct (create_backup_name_run target None w)
    as (p & w2 & Hc & [l ->] & Hp & Hfresh & Hnamed).
  rewrite (bind_eval_Ok _ _ _ _ _ Hc) in H.
  run_step H as ? w3 Hmv.
  pose proof (move_Ok_fresh _ _ _ _ _ Hmv Hfresh)
    as (old & Hold & Hdisj & Hsafe & Hgone).
  run_step H as ? w4 Hcp.
  pose proof (copytree_Ok_fresh _ _ _ _ _ _ Hcp Hgone) as (kept' & Hkept' & Hcopy).
  run_step H as ? w5 Hstart.
  apply (keeps_Ok eq) in Hstart;
    [subst w5|apply keeps_when; [tc_solve|apply keeps_start_server]].
  injection H as <- <-. simpl in *.
  assert (target ≠ []) as Hne.
  { intros Heq. destruct Hdisj as [Hd _]. apply Hd. rewrite Heq. apply prefix_nil. }
  assert (∃ st es, Tree.lookup (be_path chosen) (root w) = Some (Dir st es))
    as (cst & ces & Hchosen).
  { apply elem_of_catalog in Hin as [Hin|(? & _ & Hin)];
      by eapply describes_backup_lookup. }
  assert (Tree.lookup p (root w4) = Some old) as Hsafe4.
  { rewrite <-Hsafe. eapply (keeps_Ok (same_at p)); [|exact Hcp].
    by apply same_at_copytree. }
  exists i, chosen, old, (Dir cst ces). split_and!; try done.
  - intros Htype. apply elem_of_catalog in Hin as [Hin|(? & _ & Hin)].
    + by eapply server_backup_not_above.
    + destruct Hin as (_ & _ & _ & _ & _ & _ & _ & _ & _ & _ & Ht). done.
  - intros Hnest.
    assert (disjoint target (be_path chosen)) as Htc.
    { split; [|done]. intros Hpre.
      assert (is_Some (Tree.lookup target (root w3))) as [? ?]; [|congruence].
      eapply lookup_prefix_is_Some; [done|]. rewrite Hkept'. by eexists. }
    assert (disjoint p (be_path chosen)) as Hpc.
    { split.
      - intros Hpre. apply bool_decide_eq_false in Hfresh. apply Hfresh.
        eapply lookup_prefix_is_Some; [done|]. by eexists.
      - intros [k Hk]. destruct k as [|y k _] using rev_ind.
        + rewrite app_nil_r in Hk. apply bool_decide_eq_false in Hfresh.
          apply Hfresh. rewrite Hk, Hchosen. by eexists.
        + rewrite Hp, app_assoc in Hk. apply app_inj_tail in Hk as [Hk _].
          apply Hnest. etrans; [|apply parent_prefix]. by exists k. }
    assert (Tree.lookup (be_path chosen) (root w3) = Some (Dir cst ces)) as Hc3.
    { rewrite <-Hchosen. by apply (keeps_Ok _ _ _ _ _ (same_at_move _ _ _ Htc Hpc) Hmv). }
    assert (Tree.lookup (be_path chosen) (root w4) = Some (Dir cst ces)) as Hc4.
    { rewrite <-Hc3. by apply (keeps_Ok _ _ _ _ _ (same_at_copytree _ _ _ _ Htc) Hcp). }
    rewrite Hc3 in Hkept'. injection Hkept' as <-.
    split_and!; [|done|].
    + apply (keeps_Ok _ _ _ _ _ (only_root_move _ _)) in Hmv as [t ->].
      by rewrite (Hcopy (wf_lookup _ _ _ Hwf Hchosen)).
    + apply elem_of_catalog. apply elem_of_catalog in Hin as [Hin|(d & Hd & Hin)];
        [left|right; exists d; split; [done|]];
        (eapply describes_backup_same_at; [exact Hwf|exact Hin|congruence]).
Qed.

(** C3. A rollback that succeeds took the newest backup of the given name
    in the catalog. What was at DeploymentPath is now, as it was, at the
    safety backup: a sibling that did not exist, named by
    [create_backup_name] from the version marker of the tree being
    replaced (or [<name>_bakN] where that tree has none). DeploymentPath
    holds a copy of the chosen backup, and the chosen backup is where it
    was, unchanged, and still in the catalog. This needs that
    DeploymentPath does not lie inside the chosen backup, which a backup
    beside the server files never does. *)
Theorem rollback_server_moves_then_copies cfg ctl backup_name w safety w' :
  wf (root w) →
  rollback_server cfg ctl backup_name w = Ok (RolledBack safety) w' →
  ∃ i chosen old kept,
    list_find (λ b, be_name b = backup_name)
      (catalog (server_files cfg) (server_data cfg) (root w)) = Some (i, chosen)
    ∧ Tree.lookup (server_files cfg) (root w) = Some old
    ∧ Tree.lookup (be_path chosen) (root w) = Some kept
    ∧ safety = parent (server_files cfg) ++ [name safety]
    ∧ Tree.exists_ safety (root w) = false
    ∧ backup_named (server_files cfg) None (root w) (name safety)
    ∧ Tree.lookup safety (root w') = Some old
    ∧ (type chosen ≠ ServerDataOnly →
         ¬ be_path chosen `prefix_of` server_files cfg)
    ∧ (¬ be_path chosen `prefix_of` server_files cfg →
         Tree.lookup (server_files cfg) (root w') = Some (copied (now w) kept)
         ∧ Tree.lookup (be_path chosen) (root w') = Some kept
         ∧ chosen ∈ catalog (server_files cfg) (server_data cfg) (root w')).
Proof. exact (rollback_run cfg ctl backup_name w safety w'). Qed.

Lemma rollback_server_moves_then_copies_witness :
  let w' := final (rollback_server RollbackScenario.cfg RollbackScenario.ctl
                     "server_backup_1" RollbackScenario.before) in
  rollback_server RollbackScenario.cfg RollbackScenario.ctl "server_backup_1"
    RollbackScenario.before
  = Ok (RolledBack ["srv"; "server_backup_2"]) w'
  ∧ Tree.lookup ["srv"; "server_backup_2"] (root w')
    = Some (RollbackScenario.release "2" "two")
  ∧ Tree.lookup ["srv"; "server"] (root w')
    = Some (copied 100 (RollbackScenario.release "1" "one"))
  ∧ Tree.lookup ["srv"; "server_backup_1"] (root w')
    = Some (RollbackScenario.release "1" "one")
  ∧ ∃ b, b ∈ catalog ["srv"; "server"] None (root w')
         ∧ be_name b = "server_backup_1".
Proof.
  intros w'.
  assert (rollback_server RollbackScenario.cfg RollbackScenario.ctl
            "server_backup_1" RollbackScenario.before
          = Ok (RolledBack ["srv"; "server_backup_2"]) w') as Hrun.
  { vm_compute. reflexivity. }
  assert (wf (root RollbackScenario.before)) as Hwf.
  { simpl. repeat split; apply (bool_decide_unpack _); by vm_compute. }
  split; [exact Hrun|].
  destruct (rollback_server_moves_then_copies _ _ _ _ _ _ Hwf Hrun)
    as (i & chosen & old & kept & Hfind & Hold & Hkept & _ & _ & _ & Hsafe
        & Hserver & Hrest).
  vm_compute in Hfind. injection Hfind as <- <-.
  vm_compute in Hold. injection Hold as <-.
  vm_compute in Hkept. injection Hkept as <-.
  destruct Hrest as (Htarget & Hchosen & Hin).
  { apply Hserver. discriminate. }
  split; [exact Hsafe|]. split; [exact Htarget|]. split; [exact Hchosen|].
  eexists. split; [exact Hin|reflexivity].
Defined.

(** ** The version marker and the backups of an update *)

Global Instance stays_po q : PreOrder (stays q).
Proof.
  split.
  - by intros w _.
  - intros w1 w2 w3 H12 H23 Hq. unfold stays in *.
    rewrite H23; [by apply H12|]. by rewrite H12.
Qed.

Lemma same_at_stays q w w' : same_at q w w' → stays q w w'.
Proof. by intros H _. Qed.

Lemma keeps_stays {A} q (m : M A) : keeps (same_at q) m → keeps (stays q) m.
Proof. apply keeps_weaken, same_at_stays. Qed.




Section update_frames.
Context (q : path).

Lemma copy_source_same_at source target :
  disjoint target q → keeps (same_at q) (copy_source source target).
Proof.
  intros Hq. unfold copy_source. keeps_tac.
  - apply same_at_mkdir_parents, Hq.
  - by apply same_at_copy_items.
Qed.

Lemma restore_from_data_backup_same_at data created :
  (∀ d, data = Some d → disjoint d q) →
  keeps (same_at q) (restore_from_data_backup data created).
Proof.
  intros Hq. unfold restore_from_data_backup.
  destruct data as [d|]; [|keeps_tac]. specialize (Hq d eq_refl). keeps_tac.
  - apply same_at_mkdir_parents, Hq.
  - by apply same_at_copy_items.
Qed.

Lemma restore_from_server_backup_same_at target data created restored :
  disjoint target q → (∀ d, data = Some d → disjoint d q) →
  keeps (same_at q) (restore_from_server_backup target data created restored).
Proof.
  intros Ht Hq. unfold restore_from_server_backup.
  destruct data as [d|]; [specialize (Hq d eq_refl)|]; keeps_tac.
  - apply same_at_mkdir_parents, Hq.
  - by apply same_at_copy_items.
  - by apply same_at_copytree, disjoint_snoc.
Qed.

Lemma restore_from_artifact_same_at source target data restored :
  disjoint target q → (∀ d, data = Some d → disjoint d q) →
  keeps (same_at q) (restore_from_artifact source target data restored).
Proof.
  intros Ht Hq. unfold restore_from_artifact.
  destruct data as [d|]; [specialize (Hq d eq_refl)|]; keeps_tac.
  - apply same_at_mkdir_parents, Hq.
  - by apply same_at_copy_items.
  - by apply same_at_copytree, disjoint_snoc.
Qed.

Lemma create_version_file_same_at target artifact :
  disjoint target q → keeps (same_at q) (create_version_file target artifact).
Proof.
  intros Ht. unfold create_version_file. keeps_tac.
  - by apply same_at_open_w, disjoint_snoc.
  - by apply same_at_write, disjoint_snoc.
Qed.

(** The data are moved to a name that is free: not onto [q], which
    exists, nor to a place in it. *)
Lemma backup_server_data_stays data artifact :
  (∀ d, data = Some d → disjoint d q) →
  keeps (stays q) (backup_server_data data artifact).
Proof.
  intros Hq w Hex. unfold backup_server_data.
  destruct data as [d|]; [|done]. specialize (Hq d eq_refl).
  destruct (exists_nonempty d w) as [b w0|e w0] eqn:Hne.
  - apply (keeps_Ok eq) in Hne as Hw0; [subst w0|apply exists_nonempty_eq].
    rewrite (bind_eval_Ok _ _ _ _ _ Hne). destruct b; [|done].
    destruct (create_backup_name_run d artifact w)
      as (p & w1 & Hc & [l ->] & Hp & Hfresh & _).
    rewrite (bind_eval_Ok _ _ _ _ _ Hc). unfold logger at 1.
    unfold bind at 1.
    assert (disjoint p q) as Hpq.
    { apply bool_decide_eq_false in Hfresh. split.
      - intros Hpre. apply Hfresh. by eapply lookup_prefix_is_Some.
      - intros [k Hk]. destruct k as [|y k _] using rev_ind.
        + rewrite app_nil_r in Hk. by subst p.
        + rewrite Hp, app_assoc in Hk. apply app_inj_tail in Hk as [Hk _].
          destruct Hq as [_ Hq]. apply Hq. etrans; [|apply parent_prefix].
          by exists k. }
    lazymatch goal with
    | |- context [final (bind (Os.move d p) ?k ?w1)] =>
        assert (keeps (same_at q) (bind (Os.move d p) k)) as Hk
    end.
    { keeps_tac. by apply same_at_move. }
    exact (Hk _).
  - apply (keeps_Raise eq) in Hne as Hw0; [subst w0|apply exists_nonempty_eq].
    by rewrite (bind_eval_Raise _ _ _ _ _ Hne).
Qed.

End update_frames.

Lemma bind_logger {B} m (k : unit → M B) w :
  bind (logger m) k w = k () (with_log (log w ++ [m]) w).
Proof. done. Qed.







(** *** The marker and the safety backup of a rollback *)










(** ** The tiers of the data restore, one after the other *)















(** * Further properties of the file-management core *)

(** ** What an update and a rollback leave alone *)

Lemma keeps_logger_stays q m : keeps (stays q) (logger m).
Proof. apply keeps_stays, keeps_same_at_log, keeps_logger_only_log. Qed.

Global Hint Resolve keeps_logger_stays : keeps.

(** A tree moved to the backup name that [create_backup_name] returns
    does not land on, or in, anything that exists. *)
Lemma backup_then_stays {A} q target artifact (k : path → M A) :
  disjoint target q →
  (∀ p, disjoint p q → keeps (stays q) (k p)) →
  keeps (stays q) (bind (create_backup_name target artifact) k).
Proof.
  intros Ht Hk w Hex.
  destruct (create_backup_name_run target artifact w)
    as (p & w1 & Hc & [l ->] & Hp & Hfresh & _).
  rewrite (bind_eval_Ok _ _ _ _ _ Hc).
  enough (disjoint p q) as Hpq by exact (Hk p Hpq (with_log l w) Hex).
  apply bool_decide_eq_false in Hfresh. split.
  - intros Hpre. apply Hfresh. by eapply lookup_prefix_is_Some.
  - intros [j Hj]. destruct j as [|y j _] using rev_ind.
    + rewrite app_nil_r in Hj. by subst p.
    + rewrite Hp, app_assoc in Hj. apply app_inj_tail in Hj as [Hj _].
      destruct Ht as [_ Ht]. apply Ht. etrans; [|apply parent_prefix].
      by exists j.
Qed.

Lemma backup_server_files_stays q target artifact :
  disjoint target q → keeps (stays q) (backup_server_files target artifact).
Proof.
  intros Ht. unfold backup_server_files.
  apply keeps_bind; [tc_solve|apply keeps_eq, exists_nonempty_eq; tc_solve|].
  intros []; [|keeps_tac].
  apply backup_then_stays; [done|]. intros p Hp.
  apply keeps_stays. keeps_tac. by apply same_at_move.
Qed.

Lemma copy_server_files_stays q source target data artifact :
  disjoint target q → (∀ d, data = Some d → disjoint d q) →
  keeps (stays q) (copy_server_files source target data artifact).
Proof.
  intros Ht Hd. unfold copy_server_files.
  apply keeps_try_except; [tc_solve| |intros ?; keeps_tac].
  apply keeps_bind; [tc_solve|keeps_tac|intros ?].
  apply keeps_bind; [tc_solve|by apply backup_server_files_stays|intros ?].
  apply keeps_bind; [tc_solve|by apply backup_server_data_stays|intros ?].
  apply keeps_stays. keeps_tac.
  - by apply copy_source_same_at.
  - by apply restore_from_data_backup_same_at.
  - by apply restore_from_server_backup_same_at.
  - by apply restore_from_artifact_same_at.
  - by apply create_version_file_same_at.
Qed.

Lemma find_backup_directories_eq server_path server_data_path :
  keeps (=) (find_backup_directories server_path server_data_path).
Proof.
  intros w. by rewrite find_backup_directories_run.
Qed.

Lemma rollback_server_stays q cfg ctl backup_name :
  disjoint (server_files cfg) q →
  keeps (stays q) (rollback_server cfg ctl backup_name).
Proof.
  intros Ht. unfold rollback_server.
  apply keeps_try_except; [tc_solve| |intros e].
  - apply keeps_bind;
      [tc_solve|apply keeps_eq, find_backup_directories_eq; tc_solve|intros l].
    destruct (list_find _ l) as [[i chosen]|]; [|keeps_tac].
    apply keeps_bind; [tc_solve| |intros ?].
    { apply keeps_when; [tc_solve|]. apply keeps_eq, keeps_stop_server. tc_solve. }
    apply backup_then_stays; [done|]. intros p Hp. apply keeps_stays.
    apply keeps_bind; [tc_solve|by apply same_at_move|intros ?].
    apply keeps_bind; [tc_solve|by apply same_at_copytree|intros ?].
    apply keeps_bind; [tc_solve| |intros ?; keeps_tac].
    apply keeps_when; [tc_solve|]. apply keeps_eq, keeps_start_server. tc_solve.
  - apply keeps_bind; [tc_solve|keeps_tac|intros ?].
    destruct (managed cfg); [|keeps_tac].
    apply keeps_try_except; [tc_solve| |intros ?; keeps_tac].
    apply keeps_bind; [tc_solve| |intros ?; keeps_tac].
    apply keeps_eq, keeps_start_server. tc_solve.
Qed.

(** X1. An update changes nothing but DeploymentPath, the data path and
    the backups it creates: whatever exists outside DeploymentPath and the
    data path when [copy_server_files] starts (the extracted tree it
    installs from, the backups of earlier updates) is there unchanged
    when it ends, whether it returns or raises. *)
Theorem copy_server_files_touches_only_its_trees
    source target data artifact q w :
  disjoint target q → (∀ d, data = Some d → disjoint d q) →
  is_Some (Tree.lookup q (root w)) →
  Tree.lookup q (root (final (copy_server_files source target data artifact w)))
  = Tree.lookup q (root w).
Proof.
  intros Ht Hd Hq. by apply (copy_server_files_stays q source target data artifact).
Qed.

(** X2. A rollback changes nothing but DeploymentPath and the safety
    backup it creates: whatever exists outside DeploymentPath when
    [rollback_server] starts is there unchanged when it ends, however it
    ends. In particular the data of a server whose data path is outside
    DeploymentPath are not rolled back. *)
Theorem rollback_server_touches_only_deployment cfg ctl backup_name q w :
  disjoint (server_files cfg) q →
  is_Some (Tree.lookup q (root w)) →
  Tree.lookup q (root (final (rollback_server cfg ctl backup_name w)))
  = Tree.lookup q (root w).
Proof.
  intros Ht Hq. by apply (rollback_server_stays q cfg ctl backup_name).
Qed.

(** X3. A rollback to a name that no backup in the catalog has does
    nothing at all: the server is not stopped, nothing is moved, and the
    answer is that the backup was not found. That is the only way to
    this answer. *)
Theorem rollback_server_unknown_backup cfg ctl backup_name w :
  (list_find (λ b, be_name b = backup_name)
     (catalog (server_files cfg) (server_data cfg) (root w)) = None →
   rollback_server cfg ctl backup_name w = Ok BackupNotFound w)
  ∧ (∀ w', rollback_server cfg ctl backup_name w = Ok BackupNotFound w' →
       list_find (λ b, be_name b = backup_name)
         (catalog (server_files cfg) (server_data cfg) (root w)) = None).
Proof.
  unfold rollback_server. split.
  - intros Hfind. unfold try_except.
    rewrite (bind_eval_Ok _ _ _ _ _ (find_backup_directories_run _ _ w)).
    by rewrite Hfind.
  - intros w' [H|(e & w1 & _ & H)]%try_except_Ok.
    + rewrite (bind_eval_Ok _ _ _ _ _ (find_backup_directories_run _ _ w)) in H.
      destruct (list_find _ _) as [[i chosen]|]; [|done]. exfalso.
      run_step H as ? wa _. run_step H as ? wb _. run_step H as ? wc _.
      run_step H as ? wd _. run_step H as ? we _. done.
    + exfalso. run_step H as ? wa _. destruct (managed cfg); [|done].
      apply try_except_Ok in H as [H|(? & ? & _ & H)]; [|done].
      by run_step H as ? wb _.
Qed.

Lemma copy_server_files_touches_only_its_trees_witness :
  Tree.lookup ["srv"; "extract"]
    (root (final (copy_server_files ["srv"; "extract"] ["srv"; "server"] None
                    (Some "2") MarkerScenario.before)))
  = Some MarkerScenario.extracted.
Proof.
  etrans.
  - apply (copy_server_files_touches_only_its_trees
             ["srv"; "extract"] ["srv"; "server"] None (Some "2")
             ["srv"; "extract"] MarkerScenario.before).
    + unfold disjoint. split; apply (bool_decide_unpack _); by vm_compute.
    + discriminate.
    + apply (bool_decide_unpack _). by vm_compute.
  - vm_compute. reflexivity.
Defined.

Lemma rollback_server_touches_only_deployment_witness :
  Tree.lookup ["srv"; "server_backup_1"]
    (root (final (rollback_server RollbackScenario.cfg RollbackScenario.ctl
                    "server_backup_1" RollbackScenario.before)))
  = Some (RollbackScenario.release "1" "one").
Proof.
  etrans.
  - apply (rollback_server_touches_only_deployment
             RollbackScenario.cfg RollbackScenario.ctl "server_backup_1"
             ["srv"; "server_backup_1"] RollbackScenario.before).
    + unfold disjoint. split; apply (bool_decide_unpack _); by vm_compute.
    + apply (bool_decide_unpack _). by vm_compute.
  - vm_compute. reflexivity.
Defined.

Lemma rollback_server_unknown_backup_witness :
  rollback_server RollbackScenario.cfg RollbackScenario.ctl "server_backup_9"
    RollbackScenario.before
  = Ok BackupNotFound RollbackScenario.before.
Proof.
  apply (proj1 (rollback_server_unknown_backup
                  RollbackScenario.cfg RollbackScenario.ctl "server_backup_9"
                  RollbackScenario.before)).
  vm_compute. reflexivity.
Defined.

(** ** Deleting a backup that is listed *)

Lemma describes_backup_exists dir pattern classify t b :
  describes_backup dir pattern classify t b →
  is_Some (Tree.lookup (be_path b) t).
Proof.
  intros (st & es & st' & es' & Hd & Hin & _ & -> & _).
  rewrite lookup_app, Hd. simpl.
  destruct (Tree.assoc (be_name b) es) as [c|] eqn:Hc; [by eexists|].
  apply eq_None_not_Some in Hc. destruct Hc. apply assoc_is_Some.
  by apply (list_elem_of_fmap_2 fst _ (be_name b, Dir st' es')).
Qed.

Lemma catalog_exists server_path server_data_path t b :
  b ∈ catalog server_path server_data_path t →
  is_Some (Tree.lookup (be_path b) t).
Proof.
  intros [H|(d & _ & H)]%elem_of_catalog; by eapply describes_backup_exists.
Qed.

Lemma delete_backup_directory_true p w w' :
  delete_backup_directory p w = Ok true w' →
  ∃ w1, Os.rmtree p w = Ok () w1 ∧ root w' = root w1.
Proof.
  unfold delete_backup_directory.
  intros [H|(e & w1 & _ & H)]%try_except_Ok;
    [|by apply bind_Ok in H as (? & ? & ? & ?)].
  run_step H as e wa Ha. injection Ha as <- <-.
  run_step H as d wb Hb. injection Hb as <- <-.
  destruct (_ && _); [|done].
  run_step H as [] w1 Hrm. run_step H as ? w2 Hlog.
  unfold logger in Hlog. unfold ret in H. simplify_eq. by exists w1.
Qed.

(** X4. When [delete_backup_directory] answers [True] for a path, no
    backup at that path is in the list that [find_backup_directories]
    returns afterwards, and every backup that was listed and lies
    neither in nor above the deleted one is listed still, with the same
    creation time, size and type. *)
Theorem delete_backup_directory_unlists server_path server_data_path p w w' :
  wf (root w) →
  delete_backup_directory p w = Ok true w' →
  (∀ b, b ∈ catalog server_path server_data_path (root w') → be_path b ≠ p)
  ∧ (∀ b, b ∈ catalog server_path server_data_path (root w) →
          disjoint p (be_path b) →
          b ∈ catalog server_path server_data_path (root w')).
Proof.
  intros Hwf (w1 & Hrm & ->)%delete_backup_directory_true. split.
  - intros b Hb%catalog_exists Heq. rewrite Heq in Hb.
    apply rmtree_Ok_removed in Hrm. rewrite Hrm in Hb. by destruct Hb.
  - intros b Hb Hdisj.
    pose proof (keeps_Ok _ _ _ _ _ (same_at_rmtree (be_path b) p Hdisj) Hrm)
      as Hsame.
    apply elem_of_catalog. apply elem_of_catalog in Hb as [Hb|(d & Hd & Hb)];
      [left|right; exists d; split; [done|]];
      by eapply describes_backup_same_at.
Qed.

Lemma delete_backup_directory_unlists_witness :
  ∃ w',
    delete_backup_directory ["srv"; "server_backup_1"] RollbackScenario.before
    = Ok true w'
    ∧ ∀ b, b ∈ catalog ["srv"; "server"] None (root w') →
           be_path b ≠ ["srv"; "server_backup_1"].
Proof.
  pose (w' := final (delete_backup_directory ["srv"; "server_backup_1"]
                       RollbackScenario.before)).
  assert (delete_backup_directory ["srv"; "server_backup_1"]
            RollbackScenario.before = Ok true w') as Hrun.
  { vm_compute. reflexivity. }
  exists w'. split; [exact Hrun|].
  apply (delete_backup_directory_unlists ["srv"; "server"] None
           ["srv"; "server_backup_1"] RollbackScenario.before w').
  - simpl. repeat split; apply (bool_decide_unpack _); by vm_compute.
  - exact Hrun.
Defined.

(** ** The listing and the download *)











Lemma http_get_answers url w r :
  answers w url r →
  Os.http_get url w = Ok r (with_requests (requests w ++ [url]) w).
Proof. intros [i Hfind]. unfold Os.http_get. by rewrite Hfind. Qed.

(** The run of [get_artifact_hash_from_directory] on a listing that has
    a link for the artifact. *)
Lemma get_artifact_hash_from_directory_run artifact_number w listing dir :
  answers w list_url listing →
  status listing = 200%nat → complete listing = true →
  Re.search artifact_number (body listing) = Some dir →
  ∃ l, get_artifact_hash_from_directory artifact_number w
       = Ok dir (with_log (log w ++ l)
                   (with_requests (requests w ++ [list_url]) w)).
Proof.
  intros Hanswers Hstatus Hcomplete Hsearch.
  unfold get_artifact_hash_from_directory, try_except.
  rewrite bind_logger.
  erewrite bind_eval_Ok; [|apply http_get_answers; exact Hanswers].
  rewrite Hstatus. rewrite bool_decide_false by (by intros []).
  unfold response_text. rewrite Hcomplete.
  unfold bind at 1. unfold ret at 1.
  rewrite !bind_logger, Hsearch, bind_logger. unfold ret. simpl.
  eexists. f_equal. unfold with_log, with_requests. simpl.
  rewrite <-!app_assoc. reflexivity.
Qed.

Lemma glob_no_match cfg artifact_number t :
  cached_artifact cfg artifact_number t = None →
  ∀ w, root w = t →
  Os.glob (full_download_path cfg) artifact_number ".7z" w = Ok [] w.
Proof.
  unfold cached_artifact, Os.glob. intros Hc w ->.
  destruct (Tree.lookup (full_download_path cfg) t) as [[|st es]|]; try done.
  apply fmap_None, head_None in Hc. by rewrite Hc.
Qed.

Lemma cached_artifact_appended cfg artifact_number t t' st es n :
  Tree.lookup (full_download_path cfg) t = Some (Dir st es) →
  cached_artifact cfg artifact_number t = None →
  Tree.lookup (full_download_path cfg) t'
  = Some (Dir st (es ++ [(artifact_number +:+ ".7z", n)])) →
  cached_artifact cfg artifact_number t'
  = Some (full_download_path cfg ++ [artifact_number +:+ ".7z"]).
Proof.
  unfold cached_artifact. intros -> Hc ->.
  apply fmap_None, head_None in Hc.
  rewrite fmap_app, filter_app, Hc. csimpl. rewrite filter_cons_True; [done|].
  apply Is_true_true, glob_star_archive, startswith_refl.
Qed.

Lemma try_except_eval_Ok {A} (m : M A) h w a w1 :
  m w = Ok a w1 → try_except m h w = Ok a w1.
Proof. unfold try_except. by intros ->. Qed.

Lemma try_except_eval_Raise {A} (m : M A) h w e w1 :
  m w = Raise e w1 → try_except m h w = h e w1.
Proof. unfold try_except. by intros ->. Qed.

Lemma bind_ret {A B} (a : A) (k : A → M B) w : bind (ret a) k w = k a w.
Proof. done. Qed.

Lemma with_log_same w : with_log (log w ++ []) w = w.
Proof. destruct w. unfold with_log. simpl. by rewrite app_nil_r. Qed.

Lemma set_entry_last x n n' es :
  x ∉ es.*1 → Tree.set_entry x n' (es ++ [(x, n)]) = es ++ [(x, n')].
Proof.
  induction es as [|[y m] es IH]; csimpl.
  - intros _. by rewrite decide_True.
  - intros Hx. rewrite decide_False; [|by intros ->; apply Hx; left].
    f_equal. apply IH. intros ?. apply Hx. by right.
Qed.

Lemma assoc_last x n es : x ∉ es.*1 → Tree.assoc x (es ++ [(x, n)]) = Some n.
Proof.
  intros Hx. rewrite assoc_app_notin by done. simpl. by rewrite decide_True.
Qed.

(** Opening a file that is not there, for writing, in a directory that
    is there: it is created, empty, as the last entry. *)
Lemma open_w_fresh d x w st es :
  Tree.lookup d (root w) = Some (Dir st es) → x ∉ es.*1 →
  ∃ t, Os.open_w (d ++ [x]) w = Ok () (with_root t w)
       ∧ Tree.lookup d t
         = Some (Dir st (es ++ [(x, File (Tree.fresh (now w)) false EmptyString)])).
Proof.
  intros Hd Hx. unfold Os.open_w.
  rewrite lookup_app, Hd. simpl. rewrite assoc_notin by done. simpl.
  unfold Tree.put. rewrite (modify_snoc_put _ _ _ _ _ _ Hd).
  rewrite set_entry_notin by done.
  destruct (put_is_Some d
              (Dir st (es ++ [(x, File (Tree.fresh (now w)) false EmptyString)]))
              (root w) _ _ Hd) as [t Ht].
  rewrite Ht. exists t. split; [done|]. by apply lookup_modify_eq in Ht.
Qed.

(** Writing to the file that is the last entry of its directory. *)
Lemma write_last d x data w st es st' ro old :
  Tree.lookup d (root w) = Some (Dir st (es ++ [(x, File st' ro old)])) →
  x ∉ es.*1 →
  ∃ t, Os.write (d ++ [x]) data w = Ok () (with_root t w)
       ∧ Tree.lookup d t
         = Some (Dir st (es ++ [(x, File (Stat (now w) (st_ctime st')) ro
                                       (old +:+ data))])).
Proof.
  intros Hd Hx. unfold Os.write.
  rewrite lookup_app, Hd. simpl. rewrite assoc_last by done. simpl.
  unfold Tree.put. rewrite (modify_snoc_put _ _ _ _ _ _ Hd).
  rewrite set_entry_last by done.
  destruct (put_is_Some d
              (Dir st (es ++ [(x, File (Stat (now w) (st_ctime st')) ro
                                    (old +:+ data))]))
              (root w) _ _ Hd) as [t Ht].
  rewrite Ht. exists t. split; [done|]. by apply lookup_modify_eq in Ht.
Qed.

Lemma bind_download_size {B} (o : option nat) (k : unit → M B) w :
  ∃ l, bind match o with
            | Some n => logger (DownloadSize n)
            | None => ret ()
            end k w
       = k () (with_log (log w ++ l) w).
Proof.
  destruct o as [n|].
  - exists [DownloadSize n]. apply bind_logger.
  - exists []. by rewrite bind_ret, with_log_same.
Qed.

(** The run of a download that finds nothing in the cache, the artifact
    in the listing, and an archive behind the link. *)
Ltac norm_world_in H :=
  cbn [with_log with_root with_requests root now log remote requests] in H.
Tactic Notation "norm_world" "in" hyp(H) := norm_world_in H.

Lemma download_run cfg artifact_number force w st es listing dir archive :
  let file := full_download_path cfg ++ [artifact_number +:+ ".7z"] in
  Tree.lookup (full_download_path cfg) (root w) = Some (Dir st es) →
  cached_artifact cfg artifact_number (root w) = None →
  answers w list_url listing →
  status listing = 200%nat → complete listing = true →
  Re.search artifact_number (body listing) = Some dir →
  answers w (list_url +:+ dir +:+ "/server.7z") archive →
  status archive = 200%nat →
  ∃ w',
    download_or_find_artifact cfg artifact_number force w
    = (if complete archive then Ok file w' else Raise ClientError w')
    ∧ Tree.lookup (full_download_path cfg) (root w')
      = Some (Dir st (es ++ [(artifact_number +:+ ".7z",
                              File (Stat (now w) (now w)) false (body archive))]))
    ∧ Tree.lookup file (root w')
      = Some (File (Stat (now w) (now w)) false (body archive))
    ∧ requests w'
      = requests w ++ [list_url; list_url +:+ dir +:+ "/server.7z"].
Proof.
  intros file Hdl Hcache Hlisting Hstatus Hcomplete Hsearch Harchive Hstatus'.
  set (dl := full_download_path cfg) in *.
  set (fname := artifact_number +:+ ".7z") in *.
  assert (fname ∉ es.*1) as Hfresh.
  { intros Hin. unfold cached_artifact in Hcache. fold dl in Hcache.
    rewrite Hdl in Hcache. apply fmap_None, head_None in Hcache.
    assert (fname ∈ filter (λ x, Py.glob_star artifact_number ".7z" x) es.*1)
      as Hin'; [|by rewrite Hcache in Hin'; apply elem_of_nil in Hin'].
    apply list_elem_of_filter. split; [|done].
    apply Is_true_true, glob_star_archive, startswith_refl. }
  destruct (get_artifact_hash_from_directory_run _ w _ _
              Hlisting Hstatus Hcomplete Hsearch) as (l1 & Hhash).
  unfold download_or_find_artifact.
  lazymatch goal with
  | |- ∃ w', try_except ?m ?h w = _ ∧ _ =>
      enough (∀ R, R = m w →
              ∃ w1, R = (if complete archive then Ok file w1
                         else Raise ClientError w1)
                ∧ Tree.lookup dl (root w1)
                  = Some (Dir st (es ++ [(fname,
                       File (Stat (now w) (now w)) false (body archive))]))
                ∧ requests w1
                  = requests w ++ [list_url; list_url +:+ dir +:+ "/server.7z"])
        as Hbody;
      [destruct (Hbody (m w) eq_refl) as (w1 & Hm & Hroot & Hreq)|intros R HR]
  end.
  { assert (Tree.lookup file (root w1)
            = Some (File (Stat (now w) (now w)) false (body archive))) as Hfile.
    { unfold file. fold dl fname. rewrite lookup_app, Hroot. simpl.
      by rewrite assoc_last by done. }
    destruct (complete archive).
    - exists w1. split; [by apply try_except_eval_Ok|done].
    - eexists. split; [|split; [|split]].
      + rewrite (try_except_eval_Raise _ _ _ _ _ Hm), bind_logger. reflexivity.
      + done.
      + done.
      + done. }
  rewrite (bind_eval_Ok _ _ _ _ _ (glob_no_match _ _ _ Hcache _ eq_refl)) in HR.
  cbv beta iota in HR.
  rewrite (bool_decide_false ([] ≠ [])) in HR by (by intros H; apply H).
  rewrite andb_false_l in HR. unfold when_ at 1 in HR. rewrite bind_ret in HR.
  lazymatch type of HR with
  | context [bind (try_except ?m ?h) ?k ?w0] =>
      eassert (try_except m h w0 = Ok _ _) as Hinner
  end.
  { apply try_except_eval_Ok.
    rewrite (bind_eval_Ok _ _ _ _ _ Hhash), !bind_logger. reflexivity. }
  rewrite (bind_eval_Ok _ _ _ _ _ Hinner) in HR. clear Hinner.
  norm_world in HR.
  rewrite bind_logger in HR. norm_world in HR.
  rewrite bind_logger in HR. norm_world in HR.
  rewrite bind_logger in HR. norm_world in HR.
  erewrite bind_eval_Ok in HR; [|apply http_get_answers; exact Harchive].
  norm_world in HR. rewrite bind_logger, Hstatus' in HR. norm_world in HR.
  rewrite (bool_decide_false (200%nat ≠ 200%nat)) in HR by (by intros H; apply H).
  lazymatch type of HR with
  | context [bind (match content_length archive with _ => _ end) ?k ?w0] =>
      destruct (bind_download_size (content_length archive) k w0) as [l2 Hsize];
      rewrite Hsize in HR; clear Hsize
  end.
  norm_world in HR.
  lazymatch type of HR with
  | context [bind (Os.open_w _) ?k ?w0] =>
      destruct (open_w_fresh dl fname w0 st es Hdl Hfresh) as (t1 & Hopen & Ht1);
      rewrite (bind_eval_Ok _ _ _ _ _ Hopen) in HR
  end.
  norm_world in HR. norm_world in Ht1.
  lazymatch type of HR with
  | context [bind (Os.write _ _) ?k ?w0] =>
      destruct (write_last dl fname (body archive) w0 st es _ _ _ Ht1 Hfresh)
        as (t2 & Hwrite & Ht2);
      rewrite (bind_eval_Ok _ _ _ _ _ Hwrite) in HR
  end.
  norm_world in HR. norm_world in Ht2. simpl in Ht2.
  destruct (complete archive).
  - change (when_ (negb true) (raise ClientError)) with (ret () : M unit) in HR.
    rewrite bind_ret in HR.
    lazymatch type of HR with
    | context [bind (Os.read_file _) ?k ?w0] =>
        assert (Os.read_file (dl ++ [fname]) w0 = Ok (body archive) w0) as Hread
    end.
    { unfold Os.read_file. simpl. rewrite lookup_app, Ht2. simpl.
      by rewrite assoc_last by done. }
    rewrite (bind_eval_Ok _ _ _ _ _ Hread) in HR.
    rewrite bind_logger in HR. norm_world in HR.
    rewrite bind_logger in HR. norm_world in HR.
    rewrite bind_logger in HR. norm_world in HR.
    unfold ret in HR. subst R. eexists. split; [done|].
    split; [done|]. simpl. by rewrite <-app_assoc.
  - change (when_ (negb false) (raise ClientError))
      with (raise ClientError : M unit) in HR.
    rewrite (bind_eval_Raise _ _ _ _ _ eq_refl) in HR. subst R.
    eexists. split; [done|]. split; [done|]. simpl. by rewrite <-app_assoc.
Qed.

(** X6. A download that finds no archive of the artifact in the cache,
    a link for it in the listing and, behind the link, an archive that
    arrives whole with status 200, returns [<downloads>/<number>.7z]:
    that file is new, holds the body that was sent, and two requests
    were made, for the listing and for the archive. *)
Theorem download_fetches_and_caches
    cfg artifact_number force w st es listing dir archive :
  let file := full_download_path cfg ++ [artifact_number +:+ ".7z"] in
  Tree.lookup (full_download_path cfg) (root w) = Some (Dir st es) →
  cached_artifact cfg artifact_number (root w) = None →
  answers w list_url listing →
  status listing = 200%nat → complete listing = true →
  Re.search artifact_number (body listing) = Some dir →
  answers w (list_url +:+ dir +:+ "/server.7z") archive →
  status archive = 200%nat → complete archive = true →
  ∃ w',
    download_or_find_artifact cfg artifact_number force w = Ok file w'
    ∧ Tree.lookup file (root w')
      = Some (File (Stat (now w) (now w)) false (body archive))
    ∧ requests w'
      = requests w ++ [list_url; list_url +:+ dir +:+ "/server.7z"].
Proof.
  intros file Hdl Hcache Hlisting Hstatus Hcomplete Hsearch Harchive Hstatus' Hwhole.
  destruct (download_run cfg artifact_number force w st es listing dir archive
              Hdl Hcache Hlisting Hstatus Hcomplete Hsearch Harchive Hstatus')
    as (w' & Hrun & _ & Hfile & Hreq).
  rewrite Hwhole in Hrun. by exists w'.
Qed.

(** X7. When the stream of the archive breaks, the download raises, and
    what had arrived stays in the cache as [<number>.7z]: the next
    download of the artifact, unless forced, returns this truncated file
    as a cache hit and sends no request. *)
Theorem download_broken_stream_stays_cached
    cfg artifact_number force w st es listing dir archive :
  let file := full_download_path cfg ++ [artifact_number +:+ ".7z"] in
  Tree.lookup (full_download_path cfg) (root w) = Some (Dir st es) →
  cached_artifact cfg artifact_number (root w) = None →
  answers w list_url listing →
  status listing = 200%nat → complete listing = true →
  Re.search artifact_number (body listing) = Some dir →
  answers w (list_url +:+ dir +:+ "/server.7z") archive →
  status archive = 200%nat → complete archive = false →
  ∃ w',
    download_or_find_artifact cfg artifact_number force w = Raise ClientError w'
    ∧ Tree.lookup file (root w')
      = Some (File (Stat (now w) (now w)) false (body archive))
    ∧ download_or_find_artifact cfg artifact_number false w'
      = Ok file (with_log (log w' ++ [UsingCachedArtifact file]) w').
Proof.
  intros file Hdl Hcache Hlisting Hstatus Hcomplete Hsearch Harchive Hstatus' Hbroken.
  destruct (download_run cfg artifact_number force w st es listing dir archive
              Hdl Hcache Hlisting Hstatus Hcomplete Hsearch Harchive Hstatus')
    as (w' & Hrun & Hroot & Hfile & Hreq).
  rewrite Hbroken in Hrun. exists w'. split_and!; [done..|].
  apply download_cache_hit.
  exact (cached_artifact_appended _ _ _ _ _ _ _ Hdl Hcache Hroot).
Qed.

Lemma download_fetches_and_caches_witness :
  ∃ w',
    download_or_find_artifact Scenario.cfg "17346" false Scenario.fresh_cache
    = Ok ["bot"; "downloads"; "17346.7z"] w'
    ∧ Tree.lookup ["bot"; "downloads"; "17346.7z"] (root w')
      = Some (File (Stat 100 100) false "7z!")
    ∧ requests w' = [list_url; Scenario.archive_url].
Proof.
  apply (download_fetches_and_caches Scenario.cfg "17346" false
           Scenario.fresh_cache Scenario.st0 []
           (Response 200 None Scenario.html true) "17346-c75a342e"
           (Response 200 (Some 3%nat) "7z!" true)).
  - vm_compute. reflexivity.
  - vm_compute. reflexivity.
  - exists 0%nat. vm_compute. reflexivity.
  - reflexivity.
  - reflexivity.
  - vm_compute. reflexivity.
  - exists 1%nat. vm_compute. reflexivity.
  - reflexivity.
  - reflexivity.
Defined.

Lemma download_broken_stream_stays_cached_witness :
  ∃ w',
    download_or_find_artifact Scenario.cfg "17346" false BrokenScenario.before
    = Raise ClientError w'
    ∧ Tree.lookup ["bot"; "downloads"; "17346.7z"] (root w')
      = Some (File (Stat 100 100) false "7z")
    ∧ download_or_find_artifact Scenario.cfg "17346" false w'
      = Ok ["bot"; "downloads"; "17346.7z"]
           (with_log (log w' ++ [UsingCachedArtifact ["bot"; "downloads"; "17346.7z"]])
              w').
Proof.
  apply (download_broken_stream_stays_cached Scenario.cfg "17346" false
           BrokenScenario.before Scenario.st0 []
           (Response 200 None Scenario.html true) "17346-c75a342e"
           (Response 200 (Some 3%nat) "7z" false)).
  - vm_compute. reflexivity.
  - vm_compute. reflexivity.
  - exists 0%nat. vm_compute. reflexivity.
  - reflexivity.
  - reflexivity.
  - vm_compute. reflexivity.
  - exists 1%nat. vm_compute. reflexivity.
  - reflexivity.
  - reflexivity.
Defined.

Lemma open_w_no_Exception p w e w' :
  Os.open_w p w = Raise e w' → ∀ msg, e ≠ Exception msg.
Proof. unfold Os.open_w. repeat case_match; intros [= <- <-]; done. Qed.

Lemma write_no_Exception p data w e w' :
  Os.write p data w = Raise e w' → ∀ msg, e ≠ Exception msg.
Proof. unfold Os.write. repeat case_match; intros [= <- <-]; done. Qed.

Lemma read_file_no_Exception p w e w' :
  Os.read_file p w = Raise e w' → ∀ msg, e ≠ Exception msg.
Proof. unfold Os.read_file. repeat case_match; intros [= <- <-]; done. Qed.

(** Inversion of the first step of a run that raises, when the step is
    known to keep [R]: either the step raised, or it returned. *)
Tactic Notation "raise_step" hyp(H) "keeping" constr(R) "as"
    simple_intropattern(a) simple_intropattern(w) ident(Hm) :=
  apply bind_Raise in H as [H|(a & w & Hm & H)];
  [apply (keeps_Raise R) in H; [|keeps_tac]
  |apply (keeps_Ok R) in Hm; [|keeps_tac]].

(** X8. When a download fails with one of the program's own errors (the
    artifact is not in the listing, the listing or the archive is
    answered with a status other than 200), nothing has been written:
    the file tree is as it was. *)
Theorem download_error_writes_nothing cfg artifact_number force w msg w' :
  download_or_find_artifact cfg artifact_number force w
  = Raise (Exception msg) w' →
  root w' = root w.
Proof.
  unfold download_or_find_artifact.
  intros (e1 & w1 & H & Hh)%try_except_Raise.
  rewrite bind_logger in Hh. injection Hh as -> <-. simpl.
  raise_step H keeping same_tree as files w0 Hglob; [done|].
  assert (bind (when_ (bool_decide (files ≠ []) && force)
                  (logger FoundCachedButForced))
            (λ _, bind
               (try_except
                  (bind (get_artifact_hash_from_directory artifact_number)
                     (λ artifact_dir,
                        bind (logger (ConstructedUrl
                                (list_url +:+ artifact_dir +:+ "/server.7z")))
                          (λ _, bind (logger (ArtifactDirectory artifact_dir))
                             (λ _, ret (list_url +:+ artifact_dir
                                        +:+ "/server.7z")))))
                  (λ e, bind (logger (FailedToGetArtifactDirectory e))
                     (λ _, raise (Exception
                        ("Artifact " +:+ artifact_number
                         +:+ " not found in FiveM directory listing")))))
               (λ download_url,
                  bind (logger (FoundDownloadUrl download_url))
                    (λ _, bind (logger (SavingTo
                             (full_download_path cfg ++ [artifact_number +:+ ".7z"])))
                       (λ _, bind (logger (StartingDownload download_url))
                          (λ _, bind (Os.http_get download_url)
                             (λ download_response,
                                bind (logger (DownloadStatus (status download_response)))
                                  (λ _,
                                     if bool_decide (status download_response ≠ 200%nat)
                                     then raise (Exception
                                            ("Failed to download artifact: HTTP "
                                             +:+ pretty (status download_response)))
                                     else
                                       bind match content_length download_response with
                                            | Some n => logger (DownloadSize n)
                                            | None => ret ()
                                            end
                                         (λ _, bind (Os.open_w
                                                 (full_download_path cfg
                                                  ++ [artifact_number +:+ ".7z"]))
                                            (λ _, bind (Os.write
                                                    (full_download_path cfg
                                                     ++ [artifact_number +:+ ".7z"])
                                                    (body download_response))
                                               (λ _, bind (when_ (negb (complete download_response))
                                                             (raise ClientError))
                                                  (λ _, bind (Os.read_file
                                                          (full_download_path cfg
                                                           ++ [artifact_number +:+ ".7z"]))
                                                     (λ data,
                                                        bind (logger DownloadCompleted)
                                                          (λ _, bind (logger (DownloadedTo
                                                                  (full_download_path cfg
                                                                   ++ [artifact_number +:+ ".7z"])))
                                                             (λ _, bind (logger (FinalFileSize
                                                                     (String.length data)))
                                                                (λ _, ret (full_download_path cfg
                                                                   ++ [artifact_number +:+ ".7z"]))))))))))))))))
            w0 = Raise (Exception msg) w1 → root w1 = root w) as Htail.
  { clear H. intros H.
    raise_step H keeping same_tree as ? wa Ha;
      [unfold same_tree in *; congruence|].
    raise_step H keeping same_tree as url wb Hb;
      [unfold same_tree in *; congruence|].
    raise_step H keeping same_tree as ? wc Hc;
      [unfold same_tree in *; congruence|].
    raise_step H keeping same_tree as ? wd Hd;
      [unfold same_tree in *; congruence|].
    raise_step H keeping same_tree as ? we He;
      [unfold same_tree in *; congruence|].
    raise_step H keeping same_tree as response wf Hf;
      [unfold same_tree in *; congruence|].
    raise_step H keeping same_tree as ? wg Hg;
      [unfold same_tree in *; congruence|].
    case_bool_decide.
    { injection H as _ <-. unfold same_tree in *. congruence. }
    raise_step H keeping same_tree as ? wh Hh;
      [unfold same_tree in *; congruence|].
    exfalso.
    apply bind_Raise in H as [H|(? & wi & _ & H)];
      [by eapply open_w_no_Exception|].
    apply bind_Raise in H as [H|(? & wj & _ & H)];
      [by eapply write_no_Exception|].
    apply bind_Raise in H as [H|(? & wk & _ & H)].
    { destruct (complete response); done. }
    apply bind_Raise in H as [H|(? & wl & _ & H)];
      [by eapply read_file_no_Exception|].
    rewrite !bind_logger in H. done. }
  destruct files as [|f fs]; [by apply Htail|].
  destruct force; [by apply Htail|].
  rewrite bind_logger in H. done.
Qed.

Lemma download_error_writes_nothing_witness :
  ∃ msg w',
    download_or_find_artifact Scenario.cfg "99999" false Scenario.fresh_cache
    = Raise (Exception msg) w'
    ∧ root w' = root Scenario.fresh_cache.
Proof.
  pose (w' := final (download_or_find_artifact Scenario.cfg "99999" false
                       Scenario.fresh_cache)).
  assert (download_or_find_artifact Scenario.cfg "99999" false
            Scenario.fresh_cache
          = Raise (Exception "Artifact 99999 not found in FiveM directory listing")
              w') as Hrun.
  { vm_compute. reflexivity. }
  eexists _, w'. split; [exact Hrun|].
  exact (download_error_writes_nothing _ _ _ _ _ _ Hrun).
Defined.

(** ** Backups that the catalog does not show *)

(** No name [<name>_bakN] matches [<name>_backup*]. *)
Lemma bak_name_not_listed base suffix :
  Py.startswith ((base +:+ "_bak") +:+ suffix) (base +:+ "_backup") = false.
Proof.
  unfold Py.startswith. apply bool_decide_eq_false. rewrite !chars_app.
  rewrite <-app_assoc. intros Hpre%prefix_app_inv.
  do 3 apply prefix_cons_inv_2 in Hpre. by apply prefix_cons_inv_1 in Hpre.
Qed.

(** X9. When the tree that a rollback replaces has no version marker,
    and no separate data path is configured, the safety backup holds
    that tree but is not in the list of backups: its name,
    [<name>_bakN], does not match [<name>_backup*], so the bot can
    neither roll back to it nor delete it. *)
Theorem rollback_server_unversioned_safety_unlisted
    cfg ctl backup_name w safety w' :
  wf (root w) → server_data cfg = None →
  version_marker (server_files cfg) (root w) = None →
  rollback_server cfg ctl backup_name w = Ok (RolledBack safety) w' →
  Tree.lookup safety (root w') = Tree.lookup (server_files cfg) (root w)
  ∧ ∀ b, b ∈ catalog (server_files cfg) (server_data cfg) (root w') →
         be_path b ≠ safety.
Proof.
  intros Hwf Hdata Hmarker Hrun.
  destruct (rollback_run _ _ _ _ _ _ Hwf Hrun)
    as (i & chosen & old & kept & _ & Hold & _ & Hp & _ & Hnamed & Hsafe & _).
  split; [congruence|]. intros b Hb Heq.
  unfold backup_named in Hnamed. rewrite Hmarker in Hnamed. simpl in Hnamed.
  destruct Hnamed as (k & _ & Hk & _).
  rewrite Hdata in Hb.
  apply elem_of_catalog in Hb as [Hb|(d & [=] & _)].
  destruct Hb as (_ & _ & _ & _ & _ & _ & Hx & Hpath & _).
  rewrite Hp, Hpath in Heq. apply app_inj_tail in Heq as [_ Heq].
  rewrite Heq, Hk, bak_name_not_listed in Hx. done.
Qed.

Lemma rollback_server_unversioned_safety_unlisted_witness :
  ∃ w',
    rollback_server RollbackScenario.cfg RollbackScenario.ctl "server_backup_1"
      UnversionedScenario.before = Ok (RolledBack ["srv"; "server_bak1"]) w'
    ∧ Tree.lookup ["srv"; "server_bak1"] (root w')
      = Some (Dir (Stat 5 5) [("server.exe", File (Stat 1 1) false "two")])
    ∧ ∀ b, b ∈ catalog ["srv"; "server"] None (root w') →
           be_path b ≠ ["srv"; "server_bak1"].
Proof.
  pose (w' := final (rollback_server RollbackScenario.cfg RollbackScenario.ctl
                       "server_backup_1" UnversionedScenario.before)).
  assert (rollback_server RollbackScenario.cfg RollbackScenario.ctl
            "server_backup_1" UnversionedScenario.before
          = Ok (RolledBack ["srv"; "server_bak1"]) w') as Hrun.
  { vm_compute. reflexivity. }
  exists w'. split; [exact Hrun|].
  apply (rollback_server_unversioned_safety_unlisted
           RollbackScenario.cfg RollbackScenario.ctl "server_backup_1"
           UnversionedScenario.before ["srv"; "server_bak1"] w').
  - simpl. repeat split; apply (bool_decide_unpack _); by vm_compute.
  - reflexivity.
  - vm_compute. reflexivity.
  - exact Hrun.
Defined.

(** * Properties of configuration and process control *)

Section control_facts.
Import Control.

Lemma contains_chars_spec needle hay :
  Str.contains_chars needle hay = true ↔ occurs_in needle hay.
Proof.
  unfold occurs_in. induction hay as [|c hay IH]; simpl.
  - rewrite orb_false_r, bool_decide_eq_true. split.
    + intros [k Hk]. by exists [], k.
    + intros (pre & post & H). symmetry in H.
      apply app_eq_nil in H as [-> H]. apply app_eq_nil in H as [-> _].
      done.
  - rewrite orb_true_iff, bool_decide_eq_true, IH. split.
    + intros [[k Hk]|(pre & post & ->)].
      * by exists [], k.
      * by exists (c :: pre), post.
    + intros (pre & post & H). destruct pre as [|d pre]; simpl in H.
      * left. by exists post.
      * injection H as -> ->. right. by exists pre, post.
Qed.

(** A text that has [needle] has every part of [needle]. *)
Lemma contains_part part needle hay :
  Str.contains part needle = true → Str.contains needle hay = true →
  Str.contains part hay = true.
Proof.
  unfold Str.contains. rewrite !contains_chars_spec.
  intros (p1 & q1 & ->) (p2 & q2 & ->).
  exists (p2 ++ p1), (q1 ++ q2). by rewrite <-!app_assoc.
Qed.

Lemma already_running_or_running s :
  Str.contains "already running" s || Str.contains "running" s
  = Str.contains "running" s.
Proof.
  destruct (Str.contains "already running" s) eqn:H; [|done].
  symmetry. by apply (contains_part "running" "already running").
Qed.

Lemma commands_app tr1 tr2 : commands (tr1 ++ tr2) = commands tr1 ++ commands tr2.
Proof. unfold commands. apply omap_app. Qed.

(** What [start_windows_service] does, by what [sc start] does. *)
Lemma start_windows_service_run service (h : host) tr :
  let args := ["sc"; "start"; service] in
  start_windows_service service h tr =
  match h tr args with
  | inl c =>
      if bool_decide (returncode c = 0) then
        (inl true, tr ++ [Run args 30; Log (StartCommandSent service)])
      else if Str.contains "running" (Str.lower (error_text c)) then
        (inl true, tr ++ [Run args 30; Log (AlreadyRunning service)])
      else
        let e := Exception ("Service start failed: " +:+ error_text c) in
        (inr e, tr ++ [Run args 30; Log (ErrorStartingService service e)])
  | inr e => (inr e, tr ++ [Run args 30; Log (ErrorStartingService service e)])
  end.
Proof.
  simpl. unfold start_windows_service, try_except, bind, run, logger, emit,
    ret, raise.
  destruct (h tr ["sc"; "start"; service]) as [c|e]; simpl;
    [case_bool_decide; simpl;
     [|rewrite already_running_or_running;
       destruct (Str.contains "running" _); simpl]|];
    by rewrite <-app_assoc.
Qed.

(** What [stop_windows_service] does, by what [sc stop] does. *)
Lemma stop_windows_service_run service (h : host) tr :
  let args := ["sc"; "stop"; service] in
  stop_windows_service service h tr =
  match h tr args with
  | inl c =>
      if bool_decide (returncode c = 0) then
        (inl true, tr ++ [Run args 30; Log (StopCommandSent service)])
      else if Str.contains "not started" (Str.lower (error_text c))
              || Str.contains "stopped" (Str.lower (error_text c)) then
        (inl true, tr ++ [Run args 30; Log (AlreadyStopped service)])
      else
        let e := Exception ("Service stop failed: " +:+ error_text c) in
        (inr e, tr ++ [Run args 30; Log (ErrorStoppingService service e)])
  | inr e => (inr e, tr ++ [Run args 30; Log (ErrorStoppingService service e)])
  end.
Proof.
  simpl. unfold stop_windows_service, try_except, bind, run, logger, emit,
    ret, raise.
  destruct (h tr ["sc"; "stop"; service]) as [c|e]; simpl;
    [case_bool_decide; simpl;
     [|destruct (_ || _); simpl]|];
    by rewrite <-app_assoc.
Qed.

(** What [tcadmin_command] does when the configuration has the two
    TCAdmin keys, by what the TCAdmin program does. *)
Lemma tcadmin_command_run cfg command exe id (h : host) tr :
  tcadmin_executable cfg = Some exe →
  tcadmin_service_id cfg = Some id →
  let args := [exe; "-service=" +:+ id; "-command=" +:+ command] in
  let tr1 := tr ++ [Log (ExecutingTcadmin args)] in
  tcadmin_command cfg command h tr =
  match h tr1 args with
  | inl c =>
      if bool_decide (returncode c = 0) then
        (inl (Py.strip (stdout c)),
         tr1 ++ [Run args 30; Log (TcadminSuccessful (Py.strip (stdout c)))])
      else
        let e := Exception ("TCAdmin command failed: " +:+ error_text c) in
        (inr e, tr1 ++ [Run args 30; Log (TcadminFailed (error_text c));
                        Log (ErrorExecutingTcadmin e)])
  | inr TimeoutExpired =>
      (inr (Exception "TCAdmin command timed out"),
       tr1 ++ [Run args 30; Log TcadminTimedOut])
  | inr e => (inr e, tr1 ++ [Run args 30; Log (ErrorExecutingTcadmin e)])
  end.
Proof.
  intros Hexe Hid. simpl.
  unfold tcadmin_command, try_except, bind, item, run, logger, emit, ret,
    raise.
  rewrite Hexe, Hid. simpl.
  destruct (h _ _) as [c|e]; simpl;
    [case_bool_decide; simpl|destruct e; simpl];
    by rewrite <-?app_assoc.
Qed.

Lemma getboolean_pure c s opt fb h tr :
  (getboolean c s opt fb h tr).2 = tr.
Proof.
  unfold getboolean. destruct (get_raw c s opt) as [v|]; [|done].
  by destruct (lookup_key _ boolean_states).
Qed.

Lemma or_None_not_empty d :
  (if Py.truthy (Some d) then Some d else None) ≠ Some EmptyString.
Proof.
  unfold Py.truthy. case_bool_decide; simpl; intros [=]; contradiction.
Qed.

(** What a configuration that [get_server_config] returns has. *)
Lemma get_server_config_Some c server_type h tr cfg tr' :
  get_server_config c server_type h tr = (inl (Some cfg), tr') →
  has_section c server_type = true
  ∧ service_name cfg = get c server_type "Service_Name" EmptyString
  ∧ (if tcadmin_enabled cfg
     then ∃ exe id,
       get_raw c server_type "tcadmin_executable" = Some exe ∧ exe ≠ EmptyString
       ∧ get_raw c server_type "tcadmin_service_id" = Some id ∧ id ≠ EmptyString
       ∧ tcadmin_executable cfg = Some exe
       ∧ tcadmin_service_id cfg = Some id
     else tcadmin_executable cfg = None ∧ tcadmin_service_id cfg = None)
  ∧ (service_enabled cfg = true → service_name cfg ≠ EmptyString)
  ∧ server_data cfg ≠ Some EmptyString
  ∧ (tr' = tr ++ (if tcadmin_enabled cfg || service_enabled cfg then []
                  else [Log (FileOperationsOnly server_type)])).
Proof.
  unfold get_server_config.
  destruct (has_section c server_type) eqn:Hsec; simpl; [|done].
  unfold bind at 1.
  pose proof (getboolean_pure c server_type "TCADMIN_Enabled" false h tr) as H1.
  destruct (getboolean c server_type "TCADMIN_Enabled" false h tr)
    as [[tcadmin|e] tr1]; simpl in H1; subst tr1; [|done].
  unfold bind at 1.
  pose proof (getboolean_pure c server_type "Service_Enabled" false h tr) as H2.
  destruct (getboolean c server_type "Service_Enabled" false h tr)
    as [[service|e] tr1]; simpl in H2; subst tr1; [|done].
  unfold missing, get, bind, logger, emit, ret, raise.
  intros Hrun. split; [done|].
  pose proof or_None_not_empty as Hdata.
  destruct tcadmin; simpl in Hrun.
  - destruct (get_raw c server_type "tcadmin_executable") as [exe|] eqn:Hexe;
      simpl in Hrun; [|done].
    case_bool_decide as Hexe'; simpl in Hrun; [done|].
    destruct (get_raw c server_type "tcadmin_service_id") as [id|] eqn:Hid;
      simpl in Hrun; [|done].
    case_bool_decide as Hid'; simpl in Hrun; [done|].
    destruct service; simpl in Hrun;
      [case_bool_decide as Hname; simpl in Hrun; [done|]|];
      simplify_eq; simpl; rewrite ?app_nil_r;
      (split_and!; try done; try apply Hdata); by exists exe, id.
  - destruct service; simpl in Hrun;
      [case_bool_decide as Hname; simpl in Hrun; [done|]|];
      simplify_eq; simpl; rewrite ?app_nil_r;
      split_and!; try done; apply Hdata.
Qed.

(** X10. [start_windows_service] runs [sc start <name>] once and never
    answers [False]: it answers [True] exactly when the command ends
    with code 0 or its error text (standard error, or standard output
    when that is empty) has the word [running], in any case; otherwise
    it raises, a failure of [sc] as [Service start failed: <text>], a
    timeout or a missing [sc] as they come. *)
Theorem start_windows_service_succeeds_iff service (h : host) tr :
  let args := ["sc"; "start"; service] in
  let r := start_windows_service service h tr in
  commands r.2 = commands tr ++ [args]
  ∧ r.1 ≠ inl false
  ∧ (r.1 = inl true ↔
       ∃ c, h tr args = inl c
            ∧ (returncode c = 0
               ∨ Str.contains "running" (Str.lower (error_text c)) = true))
  ∧ (∀ e, h tr args = inr e → r.1 = inr e)
  ∧ (∀ c, h tr args = inl c → r.1 ≠ inl true →
          r.1 = inr (Exception ("Service start failed: " +:+ error_text c))).
Proof.
  simpl. rewrite start_windows_service_run. simpl.
  destruct (h tr ["sc"; "start"; service]) as [c|e] eqn:Hh; simpl.
  - case_bool_decide as Hrc; simpl;
      [|destruct (Str.contains "running" _) eqn:Hrunning; simpl];
      rewrite !commands_app; simpl;
      (split; [done|]); (split; [done|]); split.
    + split; [|done]. intros _. exists c. auto.
    + split; [done|]. intros c' [= <-]. done.
    + split; [|done]. intros _. exists c. auto.
    + split; [done|]. intros c' [= <-]. done.
    + split; [done|]. intros (c' & [= <-] & [?|?]); congruence.
    + split; [done|]. by intros c' [= <-] _.
  - rewrite !commands_app. simpl.
    split; [done|]. split; [done|]. split.
    + split; [done|]. by intros (c' & [=] & _).
    + split; [|done]. by intros e' [= <-].
Qed.

(** X11. [stop_windows_service] runs [sc stop <name>] once and never
    answers [False]: it answers [True] exactly when the command ends
    with code 0 or its error text has [not started] or [stopped], in
    any case; otherwise it raises, a failure of [sc] as
    [Service stop failed: <text>], a timeout as it comes. *)
Theorem stop_windows_service_succeeds_iff service (h : host) tr :
  let args := ["sc"; "stop"; service] in
  let r := stop_windows_service service h tr in
  commands r.2 = commands tr ++ [args]
  ∧ r.1 ≠ inl false
  ∧ (r.1 = inl true ↔
       ∃ c, h tr args = inl c
            ∧ (returncode c = 0
               ∨ Str.contains "not started" (Str.lower (error_text c)) = true
               ∨ Str.contains "stopped" (Str.lower (error_text c)) = true))
  ∧ (∀ e, h tr args = inr e → r.1 = inr e)
  ∧ (∀ c, h tr args = inl c → r.1 ≠ inl true →
          r.1 = inr (Exception ("Service stop failed: " +:+ error_text c))).
Proof.
  simpl. rewrite stop_windows_service_run. simpl.
  destruct (h tr ["sc"; "stop"; service]) as [c|e] eqn:Hh; simpl.
  - case_bool_decide as Hrc; simpl;
      [|destruct (_ || _) eqn:Hstopped; simpl];
      rewrite !commands_app; simpl;
      (split; [done|]); (split; [done|]); split.
    + split; [|done]. intros _. exists c. auto.
    + split; [done|]. intros c' [= <-]. done.
    + split; [|done]. intros _. exists c. split; [done|]. right.
      by apply orb_true_iff.
    + split; [done|]. intros c' [= <-]. done.
    + split; [done|]. intros (c' & [= <-] & [?|H]); [done|].
      apply orb_true_iff in H. congruence.
    + split; [done|]. by intros c' [= <-] _.
  - rewrite !commands_app. simpl.
    split; [done|]. split; [done|]. split.
    + split; [done|]. by intros (c' & [=] & _).
    + split; [|done]. by intros e' [= <-].
Qed.

(** X12. [get_windows_service_status] never raises. It runs
    [sc query <name>] once and answers one of five words: [running]
    exactly when the command ends with code 0 and its output has
    [RUNNING] (also when it has [STOPPED] as well), [not_found]
    exactly when the command ends with another code, [error] exactly
    when the command could not be run or timed out. *)
Theorem get_windows_service_status_total service (h : host) tr :
  let args := ["sc"; "query"; service] in
  ∃ s tr',
    get_windows_service_status service h tr = (inl s, tr')
    ∧ commands tr' = commands tr ++ [args]
    ∧ s ∈ ["running"; "stopped"; "unknown"; "not_found"; "error"]
    ∧ (s = "running" ↔
         ∃ c, h tr args = inl c ∧ returncode c = 0
              ∧ Str.contains "RUNNING" (Py.strip (stdout c)) = true)
    ∧ (s = "stopped" ↔
         ∃ c, h tr args = inl c ∧ returncode c = 0
              ∧ Str.contains "RUNNING" (Py.strip (stdout c)) = false
              ∧ Str.contains "STOPPED" (Py.strip (stdout c)) = true)
    ∧ (s = "not_found" ↔ ∃ c, h tr args = inl c ∧ returncode c ≠ 0)
    ∧ (s = "error" ↔ ∃ e, h tr args = inr e).
Proof.
  simpl. unfold get_windows_service_status, try_except, bind, run, logger,
    emit, ret.
  destruct (h tr ["sc"; "query"; service]) as [c|e] eqn:Hh; simpl;
    [case_bool_decide as Hrc; simpl;
     [destruct (Str.contains "RUNNING" _) eqn:Hrunning; simpl;
      [|destruct (Str.contains "STOPPED" _) eqn:Hstopped; simpl]|]|];
    eexists _, _; (split; [done|]);
    rewrite !commands_app; simpl; rewrite ?app_nil_r;
    (split; [done|]);
    (split; [apply (bool_decide_unpack _); by vm_compute|]);
    split_and!;
    (split;
     [first [intros H; discriminate H
            |intros _; eexists; split_and?; first [done|eassumption]]
     |first [intros _; reflexivity
            |intros (c' & Heq & Hrest); exfalso; simplify_eq;
             destruct_and?; congruence
            |intros (c' & Heq); exfalso; congruence]]).
Qed.
End control_facts.

Section control_facts2.
Import Control.

Lemma getboolean_cases c s opt fb (h : host) tr :
  (∃ b, getboolean c s opt fb h tr = (inl b, tr))
  ∨ (∃ v, getboolean c s opt fb h tr = (inr (ValueError v), tr)
          ∧ get_raw c s opt = Some v
          ∧ lookup_key (Str.lower v) boolean_states = None).
Proof.
  unfold getboolean. destruct (get_raw c s opt) as [v|]; [|left; by eexists].
  destruct (lookup_key (Str.lower v) boolean_states) as [b|] eqn:Hb.
  - left. by eexists.
  - right. by exists v.
Qed.

(** X13. How [get_server_config] ends. It answers [None] only for a
    section that is absent. A configuration it returns passed the
    checks: with TCAdmin enabled it has a non-empty executable and a
    non-empty service id, with the service enabled a non-empty service
    name, and its [server_data] is never the empty text. It raises
    [ValueError] only for a value of [TCADMIN_Enabled] or
    [Service_Enabled] that is no boolean word, and [Exception] only for
    a required option that is absent or empty. *)
Theorem get_server_config_outcomes c server_type (h : host) tr :
  match (get_server_config c server_type h tr).1 with
  | inl None => has_section c server_type = false
  | inl (Some cfg) =>
      has_section c server_type = true
      ∧ (tcadmin_enabled cfg = true →
         ∃ exe id, tcadmin_executable cfg = Some exe ∧ exe ≠ EmptyString
                   ∧ tcadmin_service_id cfg = Some id ∧ id ≠ EmptyString)
      ∧ (service_enabled cfg = true → service_name cfg ≠ EmptyString)
      ∧ server_data cfg ≠ Some EmptyString
  | inr (ValueError v) =>
      lookup_key (Str.lower v) boolean_states = None
      ∧ (get_raw c server_type "TCADMIN_Enabled" = Some v
         ∨ get_raw c server_type "Service_Enabled" = Some v)
  | inr (Exception msg) =>
      (get c server_type "tcadmin_executable" EmptyString = EmptyString
       ∧ msg = server_type +:+ ": tcadmin_executable"
               +:+ " is required when TCADMIN_Enabled=True")
      ∨ (get c server_type "tcadmin_service_id" EmptyString = EmptyString
         ∧ msg = server_type +:+ ": tcadmin_service_id"
                 +:+ " is required when TCADMIN_Enabled=True")
      ∨ (get c server_type "Service_Name" EmptyString = EmptyString
         ∧ msg = server_type
                 +:+ ": Service_Name is required when Service_Enabled=True")
  | inr _ => False
  end.
Proof.
  unfold get_server_config.
  destruct (has_section c server_type) eqn:Hsec; simpl; [|done].
  unfold bind at 1.
  destruct (getboolean_cases c server_type "TCADMIN_Enabled" false h tr)
    as [[tcadmin ->]|(v & -> & ? & ?)]; [|simpl; auto].
  unfold bind at 1.
  destruct (getboolean_cases c server_type "Service_Enabled" false h tr)
    as [[service ->]|(v & -> & ? & ?)]; [|simpl; auto].
  unfold bind, missing, logger, emit, ret, raise, Py.truthy.
  destruct tcadmin, service; simpl;
    repeat (case_bool_decide; simpl; auto).
  all: split_and!; try done.
  all: first [by intros [=]|intros _; by eexists _, _].
Qed.

(** X14. With TCAdmin enabled, [stop_server] on a configuration that
    [get_server_config] returned runs the configured TCAdmin program
    once, with the arguments [-service=<id>] and [-command=stop], and
    no other command, also when the Windows service is enabled as well.
    It answers [True], after a pause of two seconds, when the program
    ends with code 0; it raises [TCAdmin command failed: <text>] when
    it ends with another code and [TCAdmin command timed out] when it
    does not end in time. *)
Theorem stop_server_tcadmin_first c server_type h0 tr0 cfg tr1 (h : host) tr :
  get_server_config c server_type h0 tr0 = (inl (Some cfg), tr1) →
  tcadmin_enabled cfg = true →
  let exe := get c server_type "tcadmin_executable" EmptyString in
  let id := get c server_type "tcadmin_service_id" EmptyString in
  let args := [exe; "-service=" +:+ id; "-command=stop"] in
  let r := stop_server cfg h tr in
  exe ≠ EmptyString ∧ id ≠ EmptyString
  ∧ commands r.2 = commands tr ++ [args]
  ∧ match h (tr ++ [Log (ExecutingTcadmin args)]) args with
    | inl c =>
        if bool_decide (returncode c = 0)
        then r.1 = inl true ∧ last r.2 = Some (Sleep 2)
        else r.1 = inr (Exception ("TCAdmin command failed: "
                                   +:+ error_text c))
    | inr TimeoutExpired => r.1 = inr (Exception "TCAdmin command timed out")
    | inr e => r.1 = inr e
    end.
Proof.
  intros Hcfg Hon. simpl.
  destruct (get_server_config_Some _ _ _ _ _ _ Hcfg)
    as (_ & _ & Htc & _). rewrite Hon in Htc.
  destruct Htc as (exe & id & Hexe & Hexe' & Hid & Hid' & Hcexe & Hcid).
  unfold get. rewrite Hexe, Hid. simpl.
  split; [done|]. split; [done|].
  unfold stop_server, try_except, bind. rewrite Hon.
  rewrite (tcadmin_command_run cfg "stop" exe id h tr Hcexe Hcid). simpl.
  change ("-command=" +:+ "stop") with "-command=stop".
  destruct (h _ _) as [res|e]; simpl.
  - case_bool_decide; simpl.
    + unfold item, bind, logger, sleep, emit, ret. rewrite Hcid. simpl.
      rewrite !commands_app. simpl. rewrite !app_nil_r.
      split; [done|]. split; [done|]. by rewrite last_snoc.
    + unfold logger, emit, raise, bind. simpl.
      rewrite !commands_app. simpl. by rewrite !app_nil_r.
  - destruct e; simpl; unfold logger, emit, raise, bind; simpl;
      rewrite !commands_app; simpl; by rewrite !app_nil_r.
Qed.

Lemma stop_server_tcadmin_first_witness :
  commands (stop_server ControlScenario.live ControlScenario.succeeds []).2
  = [["C:/TCAdmin2/Monitor/TCAdminServiceBrowser.exe"; "-service=12345";
      "-command=stop"]].
Proof.
  apply (stop_server_tcadmin_first ControlScenario.ini "live"
           ControlScenario.succeeds [] ControlScenario.live []
           ControlScenario.succeeds []).
  - vm_compute. reflexivity.
  - reflexivity.
Defined.

(** X15. With TCAdmin disabled and the service enabled, [start_server]
    on a configuration that [get_server_config] returned runs
    [sc start <name>] once and nothing else, where the name is the
    value of [Service_Name] as it stands in the configuration, quotes
    included. It answers [True] under the conditions of
    [start_windows_service], and a timeout of [sc] is raised as it
    comes. *)
Theorem start_server_service_name_as_configured
    c server_type h0 tr0 cfg tr1 (h : host) tr :
  get_server_config c server_type h0 tr0 = (inl (Some cfg), tr1) →
  tcadmin_enabled cfg = false →
  service_enabled cfg = true →
  let name := get c server_type "Service_Name" EmptyString in
  let args := ["sc"; "start"; name] in
  let r := start_server cfg h tr in
  name ≠ EmptyString
  ∧ commands r.2 = commands tr ++ [args]
  ∧ (r.1 = inl true ↔
       ∃ res, h tr args = inl res
            ∧ (returncode res = 0
               ∨ Str.contains "running" (Str.lower (error_text res)) = true))
  ∧ (h tr args = inr TimeoutExpired → r.1 = inr TimeoutExpired).
Proof.
  intros Hcfg Hoff Hon. simpl.
  destruct (get_server_config_Some _ _ _ _ _ _ Hcfg)
    as (_ & Hname & _ & Hsvc & _).
  specialize (Hsvc Hon). rewrite Hname in Hsvc. split; [done|].
  unfold start_server, try_except, bind. rewrite Hoff, Hon, Hname.
  rewrite start_windows_service_run. simpl.
  destruct (h tr _) as [res|e] eqn:Hh; simpl.
  - case_bool_decide as Hrc; simpl;
      [|destruct (Str.contains "running" _) eqn:Hrunning; simpl];
      unfold logger, emit, raise, ret; simpl;
      rewrite !commands_app; simpl; rewrite ?app_nil_r;
      (split; [done|]); (split; [|done]).
    + split; [|done]. intros _. exists res. auto.
    + split; [|done]. intros _. exists res. auto.
    + split; [done|]. intros (c' & [= <-] & [?|?]); congruence.
  - unfold logger, emit, raise, ret; simpl.
    rewrite !commands_app; simpl; rewrite ?app_nil_r.
    split; [done|]. split.
    + split; [done|]. by intros (c' & [=] & _).
    + by intros [= ->].
Qed.

Lemma start_server_service_name_as_configured_witness :
  commands (start_server ControlScenario.dev ControlScenario.times_out []).2
  = [["sc"; "start"; Str.quoted "FXServer"]]
  ∧ (start_server ControlScenario.dev ControlScenario.times_out []).1
    = inr TimeoutExpired.
Proof.
  destruct (start_server_service_name_as_configured ControlScenario.ini "dev"
              ControlScenario.succeeds [] ControlScenario.dev []
              ControlScenario.times_out [])
    as (_ & Hcommands & _ & Htimeout).
  - vm_compute. reflexivity.
  - reflexivity.
  - reflexivity.
  - split; [exact Hcommands|]. apply Htimeout. reflexivity.
Defined.

(** X16. [get_server_status] never raises and answers one of six
    words. With TCAdmin enabled the answer is [unknown] and no command
    is run; [running] is answered only for a server managed as a Windows
    service whose [sc query] ends with code 0 and has [RUNNING] in its
    output; without management the answer is [no_management] and
    nothing happens. *)
Theorem get_server_status_total cfg (h : host) tr :
  ∃ s tr',
    get_server_status cfg h tr = (inl s, tr')
    ∧ s ∈ ["running"; "stopped"; "unknown"; "not_found"; "error";
           "no_management"]
    ∧ (tcadmin_enabled cfg = true → s = "unknown" ∧ commands tr' = commands tr)
    ∧ (s = "running" →
         tcadmin_enabled cfg = false ∧ service_enabled cfg = true
         ∧ ∃ res, h tr ["sc"; "query"; service_name cfg] = inl res
              ∧ returncode res = 0
              ∧ Str.contains "RUNNING" (Py.strip (stdout res)) = true)
    ∧ (s = "no_management" ↔
         tcadmin_enabled cfg = false ∧ service_enabled cfg = false)
    ∧ (s = "no_management" → tr' = tr).
Proof.
  unfold get_server_status, get_windows_service_status, try_except, bind,
    run, logger, emit, ret.
  destruct (tcadmin_enabled cfg) eqn:Htc; simpl;
    [|destruct (service_enabled cfg) eqn:Hsvc; simpl;
      [destruct (h tr _) as [res|e] eqn:Hh; simpl;
       [case_bool_decide as Hrc; simpl;
        [destruct (Str.contains "RUNNING" _) eqn:Hrunning; simpl;
         [|destruct (Str.contains "STOPPED" _) eqn:Hstopped; simpl]|]|]|]];
    eexists _, _; (split; [done|]);
    (split; [apply (bool_decide_unpack _); by vm_compute|]);
    rewrite ?commands_app; simpl; rewrite ?app_nil_r;
    split_and!; try done.
  all: try (split; [intros H; discriminate H|intros [_ H]; discriminate H]).
  all: try (split; [intros H; discriminate H|intros [H _]; discriminate H]).
  intros _. split_and!; try done. by exists res.
Qed.
End control_facts2.

(** * Properties of the setup program *)

Section setup_facts.
Import Setup.

Lemma bind_Got {A B} (m : I A) (k : A → I B) input b rest :
  bind m k input = Got b rest →
  ∃ a mid, m input = Got a mid ∧ k a mid = Got b rest.
Proof.
  unfold bind. destruct (m input) as [a mid|]; [|done]. by exists a, mid.
Qed.

Lemma blank_true value : blank value = true ↔ value = EmptyString.
Proof.
  unfold blank, Py.truthy. rewrite negb_involutive. apply bool_decide_eq_true.
Qed.

Lemma blank_false value : blank value = false ↔ value ≠ EmptyString.
Proof. rewrite <-blank_true. by destruct (blank value). Qed.

Lemma get_user_input_required dflt input v rest :
  get_user_input dflt true input = Got v rest → v ≠ EmptyString.
Proof.
  induction input as [|line input IH]; simpl; [done|].
  destruct (blank (Py.strip line)) eqn:Hblank; simpl.
  - destruct (Py.truthy dflt) eqn:Hd; [|done].
    intros [= <- _]. destruct dflt as [d|]; [|done]. simpl in *.
    by apply negb_true_iff, bool_decide_eq_false in Hd.
  - intros [= <- _]. by apply blank_false.
Qed.

(** X17. [get_user_input] for a required answer without default skips
    the blank lines: it returns the first line that is not blank,
    stripped, and leaves the lines after it; it ends with [EOFError]
    exactly when every line is blank. With any default, a required
    answer is never empty. *)
Theorem get_user_input_required_skips_blank input :
  (∀ v rest,
     get_user_input None true input = Got v rest ↔
     ∃ skipped line,
       input = skipped ++ line :: rest
       ∧ Forall (λ l, Py.strip l = EmptyString) skipped
       ∧ Py.strip line = v ∧ v ≠ EmptyString)
  ∧ (get_user_input None true input = EOFError ↔
     Forall (λ l, Py.strip l = EmptyString) input)
  ∧ (∀ dflt v rest, get_user_input dflt true input = Got v rest → v ≠ EmptyString).
Proof.
  split_and!; [| |intros dflt v rest; apply get_user_input_required].
  - intros v rest. induction input as [|line input IH]; simpl.
    + split; [done|]. intros (skipped & l & H & _). by destruct skipped.
    + rewrite andb_false_r.
      destruct (blank (Py.strip line)) eqn:Hblank; simpl.
      * apply blank_true in Hblank. rewrite IH. split.
        -- intros (skipped & l & -> & Hs & Hl & Hv).
           exists (line :: skipped), l. split_and!; try done.
           by constructor.
        -- intros (skipped & l & Hin & Hs & Hl & Hv).
           destruct skipped as [|l0 skipped]; simpl in Hin; simplify_eq;
             try done.
           exists skipped, l. split_and!; try done.
           by apply Forall_cons in Hs as [_ Hs].
      * apply blank_false in Hblank. split.
        -- intros [= <- <-]. by exists [], line.
        -- intros (skipped & l & Hin & Hs & Hl & Hv).
           destruct skipped as [|l0 skipped]; simpl in Hin; simplify_eq;
             try done.
           by apply Forall_cons in Hs as [Hs _].
  - induction input as [|line input IH]; simpl; [done|].
    rewrite andb_false_r.
    destruct (blank (Py.strip line)) eqn:Hblank; simpl.
    + apply blank_true in Hblank. rewrite IH. split.
      * by constructor.
      * by intros [_ ?]%Forall_cons.
    + apply blank_false in Hblank. split; [done|].
      by intros [? _]%Forall_cons.
Qed.
End setup_facts.

Section setup_facts2.
Import Setup.

Lemma get_integer_input_bounds int dflt min_value max_value input n rest :
  get_integer_input int dflt min_value max_value input = Got n rest →
  dflt = Some n ∨ (below min_value n = false ∧ above max_value n = false).
Proof.
  induction input as [|line input IH]; simpl; [done|].
  destruct (blank (Py.strip line)).
  - destruct dflt as [d|]; [intros [= <- _]; by left|].
    destruct (int (Py.strip line)) as [i|]; [|done].
    destruct (below min_value i) eqn:Hmin; [done|].
    destruct (above max_value i) eqn:Hmax; [done|].
    intros [= <- _]. by right.
  - destruct (int (Py.strip line)) as [i|]; [|done].
    destruct (below min_value i) eqn:Hmin; [done|].
    destruct (above max_value i) eqn:Hmax; [done|].
    intros [= <- _]. by right.
Qed.

(** X18. Whatever is typed, the file settings that [setup_file_config]
    returns have a number of days between 0 and 365 and three directory
    names that are not empty. *)
Theorem setup_file_config_in_range int input a rest :
  setup_file_config int input = Got a rest →
  0 ≤ auto_cleanup_days a ≤ 365
  ∧ base_directory a ≠ EmptyString
  ∧ download_directory a ≠ EmptyString
  ∧ temp_directory a ≠ EmptyString.
Proof.
  unfold setup_file_config. intros H.
  apply bind_Got in H as (base_dir & in1 & Hbase & H).
  apply bind_Got in H as (download_dir & in2 & Hdownload & H).
  apply bind_Got in H as (temp_dir & in3 & Htemp & H).
  apply bind_Got in H as (keep_files & in4 & Hkeep & H).
  apply bind_Got in H as (cleanup_days & in5 & Hdays & H).
  unfold ret in H. simplify_eq. simpl.
  apply get_user_input_required in Hbase, Hdownload, Htemp.
  split; [|done].
  apply get_integer_input_bounds in Hdays as [[= <-]|[Hmin Hmax]]; [lia|].
  unfold below, above in *.
  apply bool_decide_eq_false in Hmin, Hmax. lia.
Qed.

Lemma setup_file_config_in_range_witness :
  0 ≤ 14 ≤ 365 ∧ "./bot_files/" ≠ EmptyString ∧ "cache" ≠ EmptyString ∧ "tmp" ≠ EmptyString.
Proof.
  apply (setup_file_config_in_range SetupScenario.decimal
           SetupScenario.file_lines
           (FileAnswers "./bot_files/" "cache" "tmp" false 14) []).
  vm_compute. reflexivity.
Defined.
End setup_facts2.

Section setup_facts3.
Import Setup.

Lemma choose_method_Got turns input choice rest :
  choose_method turns input = Got choice rest →
  choice ∈ ["1"; "2"; "3"].
Proof.
  revert input. induction turns as [|turns IH]; intros input; simpl; [done|].
  intros (c & mid & _ & H)%bind_Got.
  case_bool_decide as Hc; [|by eapply IH].
  unfold ret in H. by simplify_eq.
Qed.

Lemma get_user_input_shorter dflt required input v rest :
  get_user_input dflt required input = Got v rest →
  (length rest < length input)%nat.
Proof.
  induction input as [|line input IH]; simpl; [done|].
  destruct (_ && _); [intros [= _ <-]; lia|].
  destruct (_ && _); [intros H%IH; lia|intros [= _ <-]; lia].
Qed.

(** The turns allowed never end the loop: with more of them the
    outcome is the same. *)
Lemma choose_method_turns turns input :
  (length input ≤ turns)%nat →
  choose_method turns input = choose_method (length input) input.
Proof.
  revert turns.
  induction input as [input IH] using (induction_ltof1 _ (@length string)).
  unfold ltof in IH. intros turns Hturns.
  destruct input as [|line input']; [by destruct turns|].
  destruct turns as [|turns]; simpl in Hturns; [lia|].
  change (length (line :: input')) with (S (length input')).
  cbn [choose_method]. unfold bind.
  destruct (get_user_input (Some "1") true (line :: input'))
    as [choice rest|] eqn:Hg; [|done].
  case_bool_decide; [done|].
  apply get_user_input_shorter in Hg. simpl in Hg.
  rewrite (IH rest) by (simpl; lia).
  symmetry. apply IH; simpl; lia.
Qed.









Lemma quoted_not_empty s : Str.quoted s ≠ EmptyString.
Proof. done. Qed.



End setup_facts3.

(** * Properties of the Discord settings *)

Section discord_facts.
Import Control Discord.
Variable int : string → option Z.

(** How [setup_discord_config] ends on a new bot. *)
Lemma setup_discord_config_cases c :
  let r := setup_discord_config int c (init c) in
  (has_section c "discord" = true ∧ r.2 = None
   ∧ command_names r.1
     = (λ key, (key, get c "discord" (key +:+ "_command") key))
       <$> command_options
   ∧ (if has_option c "discord" "response_channel"
      then int (get c "discord" "response_channel" EmptyString)
           = Some (default 0 (response_channel_id r.1))
           ∧ is_Some (response_channel_id r.1)
      else response_channel_id r.1 = None)
   ∧ id_list int c "allowed_roles" [] = inl (allowed_roles r.1)
   ∧ id_list int c "allowed_discord_users" [] = inl (allowed_users r.1))
  ∨ ((has_section c "discord" = false ∨ is_Some r.2)
     ∧ command_names r.1 = []).
Proof.
  simpl. unfold setup_discord_config.
  destruct (has_section c "discord"); simpl; [|right; auto].
  destruct (has_option c "discord" "response_channel") eqn:Hch;
    [destruct (int (get c "discord" "response_channel" EmptyString)) as [n|] eqn:Hn|];
    simpl; try (right; split; [right; by eexists|done]).
  all: destruct (id_list int c "allowed_roles" []) as [roles|e] eqn:Hroles;
    simpl; try (right; split; [right; by eexists|done]).
  all: destruct (id_list int c "allowed_discord_users" []) as [users|e]
    eqn:Husers;
    simpl; try (right; split; [right; by eexists|done]).
  all: left; by split_and!.
Qed.



End discord_facts.

Section discord_facts2.
Import Control Discord.
Variable int : string → option Z.

Lemma split_not_nil c s : Str.split c s ≠ [].
Proof.
  destruct s as [|d s]; simpl; [done|].
  destruct (Str.split c s); [done|]. by case_bool_decide.
Qed.

Lemma ints_length pieces ids :
  ints int pieces = inl ids → length ids = length pieces.
Proof.
  revert ids. induction pieces as [|piece pieces IH]; intros ids; simpl.
  - by intros [= <-].
  - destruct (int (Py.strip piece)); [|done].
    destruct (ints int pieces) as [l|]; [|done].
    intros [= <-]. simpl. by rewrite (IH l).
Qed.

(** An id list that the configuration names is not empty once read. *)
Lemma id_list_named c opt ids :
  Py.strip (get c "discord" opt EmptyString) ≠ EmptyString →
  id_list int c opt [] = inl ids →
  ids ≠ [] ∧ ints int (Str.split "," (get c "discord" opt EmptyString)) = inl ids.
Proof.
  intros Hnamed. unfold id_list, has_option.
  assert (is_Some (get_raw c "discord" opt)) as Hthere.
  { unfold get in Hnamed. destruct (get_raw c "discord" opt); [by eexists|].
    by destruct Hnamed. }
  rewrite (bool_decide_true _ Hthere).
  unfold Py.truthy. rewrite (bool_decide_false _ Hnamed). simpl.
  intros Hids. split; [|done].
  apply ints_length in Hids. intros ->.
  by destruct (split_not_nil "," (get c "discord" opt EmptyString)), (Str.split _ _).
Qed.

Lemma existsb_role (roles l : list Z) :
  existsb (λ role_id : Z, bool_decide (role_id ∈ roles)) l = true
  ↔ ∃ role, role ∈ l ∧ role ∈ roles.
Proof.
  rewrite existsb_exists. split.
  - intros (x & Hx%list_elem_of_In & Hd%bool_decide_eq_true). eauto.
  - intros (x & Hx%list_elem_of_In & Hd). exists x.
    by rewrite bool_decide_eq_true.
Qed.

Lemma check_permissions_true b author roles :
  check_permissions b author roles = true ↔
  (allowed_roles b = [] ∧ allowed_users b = [])
  ∨ author ∈ allowed_users b
  ∨ ∃ role, role ∈ allowed_roles b ∧ role ∈ roles.
Proof.
  unfold check_permissions.
  pose proof (existsb_role roles (allowed_roles b)) as Hex.
  destruct (allowed_roles b) as [|r rs] eqn:Hr,
    (allowed_users b) as [|u us] eqn:Hu; simpl in *.
  - split; [auto|done].
  - destruct (bool_decide (author ∈ u :: us)) eqn:Hin.
    + apply bool_decide_eq_true in Hin. split; auto.
    + apply bool_decide_eq_false in Hin.
      split; [done|]. intros [[_ [=]]|[?|?%Hex]]; done.
  - destruct (_ || _).
    + split; [|done]. intros _. right. right. by apply Hex.
    + split; [done|]. intros [[[=] _]|[Hn|Hx%Hex]]; [|done].
      by apply elem_of_nil in Hn.
  - destruct (bool_decide (author ∈ u :: us)) eqn:Hin.
    + apply bool_decide_eq_true in Hin. split; auto.
    + apply bool_decide_eq_false in Hin. destruct (_ || _).
      * split; [|done]. intros _. right. right. by apply Hex.
      * split; [done|]. intros [[[=] _]|[Hn|Hx%Hex]]; done.
Qed.

(** X21. A bot that could create its commands enforces the
    restrictions of its configuration: when [allowed_roles] or
    [allowed_discord_users] is not blank, the ids of each list that is
    not blank were all read, that list is not empty, and
    [check_permissions] lets in exactly the listed users and the
    holders of a listed role. *)
Theorem configured_restrictions_enforced c names author roles :
  let b := (setup_discord_config int c (init c)).1 in
  let roles_text := get c "discord" "allowed_roles" EmptyString in
  let users_text := get c "discord" "allowed_discord_users" EmptyString in
  setup_commands b = inl names →
  Py.strip roles_text ≠ EmptyString ∨ Py.strip users_text ≠ EmptyString →
  (Py.strip roles_text ≠ EmptyString →
   allowed_roles b ≠ []
   ∧ ints int (Str.split "," roles_text) = inl (allowed_roles b))
  ∧ (Py.strip users_text ≠ EmptyString →
     allowed_users b ≠ []
     ∧ ints int (Str.split "," users_text) = inl (allowed_users b))
  ∧ (check_permissions b author roles = true ↔
     author ∈ allowed_users b ∨ ∃ role, role ∈ allowed_roles b ∧ role ∈ roles).
Proof.
  simpl. intros Hnames Hnamed.
  destruct (setup_discord_config_cases int c)
    as [(_ & _ & _ & _ & Hroles & Husers)|[_ Hnone]]; simpl in *;
    [|unfold setup_commands in Hnames; by rewrite Hnone in Hnames].
  assert (∀ opt ids, Py.strip (get c "discord" opt EmptyString) ≠ EmptyString →
                     id_list int c opt [] = inl ids →
                     ids ≠ [] ∧ ints int (Str.split "," (get c "discord" opt EmptyString))
                                = inl ids) as Hlist
    by (intros; by apply id_list_named).
  split; [intros H; by apply Hlist|]. split; [intros H; by apply Hlist|].
  rewrite check_permissions_true. split; [|auto].
  intros [[Hr Hu]|H]; [|done]. exfalso.
  destruct Hnamed as [H|H]; [by apply (Hlist _ _ H) in Hroles as [? _]|].
  by apply (Hlist _ _ H) in Husers as [? _].
Qed.

End discord_facts2.

Lemma configured_restrictions_enforced_witness :
  Discord.check_permissions
    (Discord.setup_discord_config SetupScenario.decimal SetupScenario.restricted
       (Discord.init SetupScenario.restricted)).1 8 [33; 22] = true
  ↔ 8 ∈ [7] ∨ ∃ role, role ∈ [11; 22] ∧ role ∈ [33; 22].
Proof.
  apply (configured_restrictions_enforced SetupScenario.decimal
           SetupScenario.restricted
           (Discord.configured_names SetupScenario.restricted) 8 [33; 22]).
  - vm_compute. reflexivity.
  - left. by vm_compute.
Defined.

Section discord_facts3.
Import Control Discord.
Variable int : string → option Z.

(** What the Discord questions return: the token, the answer on the
    channel, and fourteen more entries. *)
Lemma setup_discord_config_Got typed input d rest :
  Setup.setup_discord_config typed input = Setup.Got (Some d) rest →
  ∃ channel mid tail,
    Setup.get_user_input (Some EmptyString) false input = Setup.Got channel mid
    ∧ d = ("discord_token", Py.strip typed)
          :: ("response_channel", channel) :: tail.
Proof.
  unfold Setup.setup_discord_config.
  destruct (Setup.blank (Py.strip typed)); [done|]. intros H.
  apply bind_Got in H as (channel & mid & Hchannel & H).
  exists channel, mid.
  repeat (apply bind_Got in H as (? & ? & _ & H)).
  unfold Setup.ret in H. simplify_eq. by eexists.
Qed.

(** X22. A channel question left blank in the setup stops the bot
    from starting. The setup writes an empty [response_channel]; the
    bot takes the option for a number, the conversion fails (given
    that the empty text is no number), the failure is caught before
    the command names are loaded, and the first command cannot be
    created: [KeyError] for [download]. *)
Theorem setup_blank_channel_stops_bot typed line input d rest c :
  int EmptyString = None →
  Setup.setup_discord_config typed (line :: input) = Setup.Got (Some d) rest →
  Py.strip line = EmptyString →
  lookup_key "discord" c = Some (Setup.section_of d) →
  let r := setup_discord_config int c (init c) in
  r.2 = Some (ValueError EmptyString)
  ∧ setup_commands r.1 = inr (KeyError "download").
Proof.
  intros Hint Hd Hline Hc.
  apply setup_discord_config_Got in Hd as (channel & mid & tail & Hchannel & ->).
  simpl in Hchannel. rewrite Hline in Hchannel. simpl in Hchannel.
  injection Hchannel as <- _.
  assert (get_raw c "discord" "response_channel" = Some EmptyString) as Hraw.
  { unfold get_raw. rewrite Hc. reflexivity. }
  simpl. unfold setup_discord_config, has_section, has_option, get.
  rewrite Hc, Hraw. rewrite !bool_decide_true by eauto. simpl.
  by rewrite Hint.
Qed.

End discord_facts3.

Lemma setup_blank_channel_stops_bot_witness :
  (Discord.setup_discord_config SetupScenario.decimal SetupScenario.ini
     (Discord.init SetupScenario.ini)).2 = Some (Control.ValueError EmptyString)
  ∧ Discord.setup_commands
      (Discord.setup_discord_config SetupScenario.decimal SetupScenario.ini
         (Discord.init SetupScenario.ini)).1
    = inr (Control.KeyError "download").
Proof.
  apply (setup_blank_channel_stops_bot SetupScenario.decimal "token" EmptyString
           (replicate 14 EmptyString) SetupScenario.discord_dict []
           SetupScenario.ini).
  - reflexivity.
  - vm_compute. reflexivity.
  - reflexivity.
  - reflexivity.
Defined.
